(** * The msxml3 schema cache (dlls/msxml3/schema.c)

    A shallow embedding of the schema collection of Wine's msxml3: the
    reference-counted cache entries, the dialect detector, and the
    operations of IXMLDOMSchemaCollection (add, get, remove, length,
    namespaceURI, addCollection) over libxml2's chained hash table.

    C pointers are addresses into explicit heaps (a NULL-able pointer is an
    [option]); a dereference of an address that is not allocated is a
    memory fault, the [None] of the monad [M].  Calls into collaborators
    whose code is elsewhere (the document reference counting of domdoc.c,
    libxml2's schema compiler) are recorded, in order, in a trace. *)

From Stdlib Require Import ZArith Lia.
From stdpp Require Import gmap strings list fin_maps.

(** ** Scalars *)

(** Addresses of heap objects. *)
Abbreviation ptr := positive.

(** The HRESULT codes that schema.c returns. *)
Inductive HRESULT :=
  | S_OK
  | E_FAIL
  | E_INVALIDARG
  | E_POINTER
  | E_OUTOFMEMORY
  | E_NOTIMPL.

(** LONG is a 32-bit signed integer; InterlockedIncrement,
    InterlockedDecrement and [--] wrap around. *)
Definition LONG_wrap (z : Z) : Z := ((z + 2 ^ 31) mod 2 ^ 32 - 2 ^ 31)%Z.

Definition is_LONG (z : Z) : Prop := (- 2 ^ 31 <= z < 2 ^ 31)%Z.

(** ULONG is a 32-bit unsigned integer: what a LONG becomes when a
    function declared ULONG returns it. *)
Definition ULONG_of_LONG (z : Z) : Z := (z mod 2 ^ 32)%Z.

(** This is just the number of buckets, should be prime *)
Definition DEFAULT_HASHTABLE_SIZE : nat := 31.

Definition XSD_schema : string := "schema".
Definition XSD_nsURI : string := "http://www.w3.org/2001/XMLSchema".
Definition XDR_schema : string := "Schema".
Definition XDR_nsURI : string := "urn:schemas-microsoft-com:xml-data".

Inductive SCHEMA_TYPE :=
  | SCHEMA_TYPE_INVALID
  | SCHEMA_TYPE_XDR
  | SCHEMA_TYPE_XSD.

Inductive CLSID :=
  | CLSID_DOMDocument30
  | CLSID_DOMDocument40.

(** ** libxml2 trees, as far as schema.c reads them *)

Record xmlNs := { href : option string; prefix : option string }.

(** An element: its local name, its namespace, and the content below it. *)
#[warnings="-register-all"]
Inductive xmlNode :=
  | XmlNode (name : option string) (ns : option xmlNs)
            (properties : list (string * string)) (children : list xmlNode).

Definition node_name (n : xmlNode) : option string :=
  match n with XmlNode nm _ _ _ => nm end.

Definition node_ns (n : xmlNode) : option xmlNs :=
  match n with XmlNode _ s _ _ => s end.

(** A parsed document; [xmlDocGetRootElement] is its root element, if any. *)
Record xmlDoc := { xmlDocGetRootElement : option xmlNode; URL : option string }.

(** A compiled schema; libxml2 keeps the document it was compiled from. *)
Record xmlSchema := { schema_doc : option ptr }.

(** xmlStrEqual: pointer-equal strings (two NULLs included) are equal, a
    NULL and a string are not, two strings are compared byte by byte. *)
Definition xmlStrEqual (a b : option string) : bool :=
  match a, b with
  | None, None => true
  | Some x, Some y => bool_decide (x = y)
  | _, _ => false
  end.

(** ** The cache's own structures *)

Record cache_entry := {
  type : SCHEMA_TYPE;
  schema : option ptr;
  doc : ptr;
  ref : Z
}.

(** libxml2's hash table as the comment at the head of schema.c describes
    it: a chained table whose number of buckets is fixed when it is created
    (it neither grows nor shrinks).  A bucket is its chain, in insertion
    order; an item is the key and the payload (here always a
    [cache_entry*]). *)
Abbreviation xmlHashTable := (list (list (string * ptr))).

Record schema_cache := {
  cache : list (list (string * ptr));
  cache_ref : Z
}.

Record cache_index_data (BSTR : Type) := {
  index : Z;
  out : option BSTR
}.
Arguments index {BSTR} _.
Arguments out {BSTR} _.

(** ** Collaborators

    What schema.c calls and this file does not define: the string
    conversions of msxml_private.h, the value libxml2 hashes a key to (the
    bucket is that value modulo the table's size), the schema compiler, and
    the constructor of a DOM document over an xmlDoc. *)
Class External := {
  BSTR : Type;
  xmlChar_from_wchar : BSTR → string;
  bstr_from_xmlChar : string → BSTR;
  xmlHashValue : string → nat;
  (** does xmlSchemaNewParserCtxt(url) return a context? *)
  xmlSchemaNewParserCtxt : string → bool;
  (** xmlSchemaParse on a URL context: the document of the compiled schema,
      or no schema. *)
  xmlSchemaParse_url : string → option xmlDoc;
  (** xmlSchemaParse on a document context: does the document compile? *)
  xmlSchemaParse_doc : xmlDoc → bool;
  IXMLDOMNode : Type;
  DOMDocument_create_from_xmldoc : ptr → HRESULT * option IXMLDOMNode
}.

(** The calls whose effect lives outside this file, in program order. *)
Inductive event :=
  | Call_xmldoc_init (d : ptr) (clsid : CLSID)
  | Call_xmldoc_add_ref (d : ptr)
  | Call_xmldoc_release (d : ptr)
  (** xmlSchemaFree(s); [attached] is s->doc at the time of the call, which
      libxml2 frees together with the schema *)
  | Call_xmlSchemaFree (s : ptr) (attached : option ptr)
  | Call_xmlFreeDoc (d : ptr)
  | Call_heap_free (e : ptr).

(** ** The store

    [docs] holds the documents that libxml2 has built and that schema.c has
    not itself freed with xmlFreeDoc.  The counting of the references to a
    document (xmldoc_init, xmldoc_add_ref, xmldoc_release) is done by the
    DOM implementation in node.c and domdoc.c: schema.c only makes the
    calls, which the trace records, and what xmldoc_release does with a
    document when it takes the last reference, freeing it, is the DOM
    implementation's business and not written to [docs]. *)

Record world := {
  entries : gmap ptr cache_entry;
  schemas : gmap ptr xmlSchema;
  docs : gmap ptr xmlDoc;
  caches : gmap ptr schema_cache;
  trace : list event
}.

Definition set_entries (f : gmap ptr cache_entry → gmap ptr cache_entry) (w : world) : world :=
  {| entries := f (entries w); schemas := schemas w; docs := docs w;
     caches := caches w; trace := trace w |}.

Definition set_schemas (f : gmap ptr xmlSchema → gmap ptr xmlSchema) (w : world) : world :=
  {| entries := entries w; schemas := f (schemas w); docs := docs w;
     caches := caches w; trace := trace w |}.

Definition set_docs (f : gmap ptr xmlDoc → gmap ptr xmlDoc) (w : world) : world :=
  {| entries := entries w; schemas := schemas w; docs := f (docs w);
     caches := caches w; trace := trace w |}.

Definition set_caches (f : gmap ptr schema_cache → gmap ptr schema_cache) (w : world) : world :=
  {| entries := entries w; schemas := schemas w; docs := docs w;
     caches := f (caches w); trace := trace w |}.

Definition log (ev : event) (w : world) : world :=
  {| entries := entries w; schemas := schemas w; docs := docs w;
     caches := caches w; trace := trace w ++ [ev] |}.

(** ** The monad of the embedding: state, and [None] for a memory fault *)

Definition M (A : Type) : Type := world → option (A * world).

Global Instance M_ret : MRet M := λ A (x : A) w, Some (x, w).

Global Instance M_bind : MBind M := λ A B (f : A → M B) (m : M A) w,
  match m w with
  | Some (x, w') => f x w'
  | None => None
  end.

Definition fault {A} : M A := λ _, None.

Definition gets {A} (f : world → A) : M A := λ w, Some (f w, w).

Definition modify (f : world → world) : M unit := λ w, Some (tt, f w).

(** Reading through a pointer: a fault unless the address is allocated. *)
Definition deref {A} (heap : world → gmap ptr A) (p : ptr) : M A := λ w,
  match heap w !! p with
  | Some x => Some (x, w)
  | None => None
  end.

Definition call (ev : event) : M unit := modify (log ev).

Ltac munfold :=
  unfold mbind, M_bind, mret, M_ret, deref, modify, gets, call, fault in *.

(** ** A concrete set of collaborators, for running the model *)

Definition demo_xsd_doc : xmlDoc :=
  {| xmlDocGetRootElement :=
       Some (XmlNode (Some "schema")
               (Some {| href := Some "http://www.w3.org/2001/XMLSchema"; prefix := Some "xs" |})
               [("targetNamespace", "urn:a")] []);
     URL := Some "file:///a.xsd" |}.

Definition demo_xdr_doc : xmlDoc :=
  {| xmlDocGetRootElement :=
       Some (XmlNode (Some "Schema")
               (Some {| href := Some "urn:schemas-microsoft-com:xml-data"; prefix := None |})
               [("name", "legacy")] []);
     URL := None |}.

Definition demo_other_doc : xmlDoc :=
  {| xmlDocGetRootElement := Some (XmlNode (Some "html") None [] []); URL := None |}.

(** Keys hash to their length; every non-empty URL gets a parser context,
    and only file:///a.xsd compiles; documents compile unless they carry a
    URL; a DOM document is named by the xmlDoc it wraps. *)
Definition demo_ext : External :=
  {| BSTR := string;
     xmlChar_from_wchar := id;
     bstr_from_xmlChar := id;
     xmlHashValue := String.length;
     xmlSchemaNewParserCtxt := λ url, negb (bool_decide (url = ""));
     xmlSchemaParse_url := λ url,
       if bool_decide (url = "file:///a.xsd") then Some demo_xsd_doc else None;
     xmlSchemaParse_doc := λ d, bool_decide (URL d = None);
     IXMLDOMNode := ptr;
     DOMDocument_create_from_xmldoc := λ d, (S_OK, Some d) |}.

(** A store with two empty collections, at addresses 1 and 2, and three
    documents. *)
Definition demo_world : world :=
  {| entries := ∅;
     schemas := ∅;
     docs := {[ 1%positive := demo_xsd_doc; 2%positive := demo_xdr_doc;
                3%positive := demo_other_doc ]};
     caches := {[ 1%positive := {| cache := replicate 31 []; cache_ref := 1 |};
                  2%positive := {| cache := replicate 31 []; cache_ref := 1 |} ]};
     trace := [] |}.

(** ** libxml2's hash table *)

Section Cache.
Context {ext : External}.

Definition xmlHashComputeKey (t : xmlHashTable) (name : string) : nat :=
  xmlHashValue name mod length t.

Definition xmlHashCreate (size : nat) : xmlHashTable := replicate size [].

Definition chain_of (t : xmlHashTable) (k : nat) : list (string * ptr) :=
  default [] (t !! k).

Fixpoint chain_lookup (c : list (string * ptr)) (name : string) : option ptr :=
  match c with
  | [] => None
  | (n, p) :: c' => if decide (n = name) then Some p else chain_lookup c' name
  end.

(** Unlinks the first item of the chain that carries [name]. *)
Fixpoint chain_remove (c : list (string * ptr)) (name : string) : list (string * ptr) :=
  match c with
  | [] => []
  | (n, p) :: c' => if decide (n = name) then c' else (n, p) :: chain_remove c' name
  end.

Definition xmlHashLookup (t : xmlHashTable) (name : string) : option ptr :=
  chain_lookup (chain_of t (xmlHashComputeKey t name)) name.

(** The items in the order xmlHashScan visits them: bucket by bucket, each
    chain from its head. *)
Definition xmlHashItems (t : xmlHashTable) : list (string * ptr) := mjoin t.

Definition xmlHashSize (t : xmlHashTable) : Z := Z.of_nat (length (xmlHashItems t)).

(** The table after a new item is linked at the end of its chain.  (When a
    chain gets long libxml2 also moves the items to a table of more
    buckets; that changes the order in which a scan meets the items and
    nothing that a lookup or the size shows, and is left out: the number of
    buckets stays what xmlHashCreate was given.) *)
Definition table_add (t : xmlHashTable) (name : string) (userdata : ptr) : xmlHashTable :=
  let k := xmlHashComputeKey t name in
  <[k := chain_of t k ++ [(name, userdata)]]> t.

(** The table after the item of [name] is unlinked. *)
Definition table_remove (t : xmlHashTable) (name : string) : xmlHashTable :=
  let k := xmlHashComputeKey t name in
  <[k := chain_remove (chain_of t k) name]> t.

(** [This->cache], read and written through the collection's address. *)
Definition table_of (This : ptr) : M xmlHashTable :=
  c ← deref caches This; mret (cache c).

Definition with_table (This : ptr) (f : xmlHashTable → xmlHashTable) (w : world) : world :=
  set_caches (alter (λ c, {| cache := f (cache c); cache_ref := cache_ref c |}) This) w.

Definition update_table (This : ptr) (f : xmlHashTable → xmlHashTable) : M unit :=
  modify (with_table This f).

(** xmlHashAddEntry: -1 and no change when the key is already there. *)
Definition xmlHashAddEntry (This : ptr) (name : string) (userdata : ptr) : M Z :=
  t ← table_of This;
  match xmlHashLookup t name with
  | Some _ => mret (-1)%Z
  | None => update_table This (λ t, table_add t name userdata);; mret 0%Z
  end.

(** xmlHashRemoveEntry: the deallocator runs on the payload, then the item
    is unlinked; -1 when the key is not there. *)
Definition xmlHashRemoveEntry (This : ptr) (name : string)
    (f : ptr → string → M unit) : M Z :=
  t ← table_of This;
  match xmlHashLookup t name with
  | Some payload =>
      f payload name;;
      update_table This (λ t, table_remove t name);;
      mret 0%Z
  | None => mret (-1)%Z
  end.

Fixpoint scan_chain {D} (f : ptr → D → string → M D)
    (c : list (string * ptr)) (data : D) : M D :=
  match c with
  | [] => mret data
  | (n, p) :: c' => data' ← f p data n; scan_chain f c' data'
  end.

Fixpoint scan_buckets {D} (f : ptr → D → string → M D)
    (t : xmlHashTable) (data : D) : M D :=
  match t with
  | [] => mret data
  | c :: t' => data' ← scan_chain f c data; scan_buckets f t' data'
  end.

(** xmlHashScan over the items the table holds when the scan starts (no
    callback of schema.c changes the table it is scanning).  [data] is the
    object the callback's second argument points to. *)
Definition xmlHashScan {D} (This : ptr) (f : ptr → D → string → M D) (data : D) : M D :=
  t ← table_of This; scan_buckets f t data.

(** xmlHashFree: the deallocator runs on every payload, then the table goes. *)
Definition xmlHashFree (This : ptr) (f : ptr → string → M unit) : M unit :=
  xmlHashScan This (λ p (_ : unit) n, f p n) tt;;
  update_table This (λ _, []).

(** ** Cache entries *)

Definition with_ref (e : cache_entry) (r : Z) : cache_entry :=
  {| type := type e; schema := schema e; doc := doc e; ref := r |}.

(** heap_alloc(sizeof(cache_entry)): an address no live entry has.  (The
    construction paths write through the result without testing it;
    heap_alloc is taken to find room for an entry.) *)
Definition heap_alloc_entry : M ptr := gets (λ w, fresh (dom (entries w))).

Definition heap_free (entry : ptr) : M unit :=
  call (Call_heap_free entry);;
  modify (set_entries (delete entry)).

Definition new_doc (d : xmlDoc) : M ptr :=
  p ← gets (λ w, fresh (dom (docs w)));
  modify (set_docs (<[p := d]>));;
  mret p.

Definition new_schema (s : xmlSchema) : M ptr :=
  p ← gets (λ w, fresh (dom (schemas w)));
  modify (set_schemas (<[p := s]>));;
  mret p.

(** xmlCopyDoc(doc, 1): a deep copy at a new address. *)
Definition xmlCopyDoc (d : ptr) : M ptr :=
  content ← deref docs d; new_doc content.

Definition xmlFreeDoc (d : ptr) : M unit :=
  call (Call_xmlFreeDoc d);;
  modify (set_docs (delete d)).

(** xmlSchemaFree: the trace keeps which document the schema still held. *)
Definition xmlSchemaFree (s : ptr) : M unit :=
  sch ← deref schemas s;
  call (Call_xmlSchemaFree s (schema_doc sch));;
  modify (set_schemas (delete s)).

Definition cache_entry_add_ref (entry : ptr) : M Z :=
  e ← deref entries entry;
  let r := LONG_wrap (ref e + 1) in
  modify (set_entries (<[entry := with_ref e r]>));;
  mret r.

Definition cache_entry_release (entry : ptr) : M Z :=
  e ← deref entries entry;
  let r := LONG_wrap (ref e - 1) in
  modify (set_entries (<[entry := with_ref e r]>));;
  (if decide (r = 0%Z) then
     match type e with
     | SCHEMA_TYPE_XSD =>
         call (Call_xmldoc_release (doc e));;
         (* entry->schema->doc = NULL *)
         s ← from_option mret fault (schema e);
         _ ← deref schemas s;
         modify (set_schemas (<[s := {| schema_doc := None |}]>));;
         xmlSchemaFree s;;
         heap_free entry
     | _ => (* SCHEMA_TYPE_XDR *)
         call (Call_xmldoc_release (doc e));;
         heap_free entry
     end
   else mret tt);;
  mret r.

Definition schema_type_from_xmlDocPtr (d : xmlDoc) : SCHEMA_TYPE :=
  match xmlDocGetRootElement d with
  | Some root =>
      match node_ns root with
      | Some ns =>
          if xmlStrEqual (node_name root) (Some XDR_schema) &&
             xmlStrEqual (href ns) (Some XDR_nsURI)
          then SCHEMA_TYPE_XDR
          else if xmlStrEqual (node_name root) (Some XSD_schema) &&
                  xmlStrEqual (href ns) (Some XSD_nsURI)
          then SCHEMA_TYPE_XSD
          else SCHEMA_TYPE_INVALID
      | None => SCHEMA_TYPE_INVALID
      end
  | None => SCHEMA_TYPE_INVALID
  end.

(** The entry struct is written to the heap once its fields are known;
    [type] and [ref] are the constants the source stores first. *)
Definition cache_entry_from_url (url : string) : M (option ptr) :=
  entry ← heap_alloc_entry;
  if xmlSchemaNewParserCtxt url then
    match xmlSchemaParse_url url with
    | Some content =>
        d ← new_doc content;
        s ← new_schema {| schema_doc := Some d |};
        call (Call_xmldoc_init d CLSID_DOMDocument40);;
        modify (set_entries (<[entry :=
          {| type := SCHEMA_TYPE_XSD; schema := Some s; doc := d; ref := 0 |}]>));;
        call (Call_xmldoc_add_ref d);;
        mret (Some entry)
    | None =>
        heap_free entry;;
        mret None
    end
  else
    heap_free entry;;
    mret None.

Definition cache_entry_from_xsd_doc (d : ptr) : M (option ptr) :=
  entry ← heap_alloc_entry;
  copy ← xmlCopyDoc d;
  content ← deref docs copy;
  if xmlSchemaParse_doc content then
    s ← new_schema {| schema_doc := Some copy |};
    call (Call_xmldoc_init copy CLSID_DOMDocument40);;
    modify (set_entries (<[entry :=
      {| type := SCHEMA_TYPE_XSD; schema := Some s; doc := copy; ref := 0 |}]>));;
    call (Call_xmldoc_add_ref copy);;
    mret (Some entry)
  else
    xmlFreeDoc copy;;
    heap_free entry;;
    mret None.

Definition cache_entry_from_xdr_doc (d : ptr) : M (option ptr) :=
  entry ← heap_alloc_entry;
  copy ← xmlCopyDoc d;
  modify (set_entries (<[entry :=
    {| type := SCHEMA_TYPE_XDR; schema := None; doc := copy; ref := 0 |}]>));;
  call (Call_xmldoc_init copy CLSID_DOMDocument30);;
  call (Call_xmldoc_add_ref copy);;
  mret (Some entry).

(** ** The collection *)

(** Modelled from the spec: IDispatch_QueryInterface, IXMLDOMNode_Release
    and xmlNodePtr_from_domnode (node.c) are not in schema.c.  The object
    behind a dispatch pointer either is no IXMLDOMNode at all, or is a DOM
    node that is not a document, or is a document node, whose xmlNode has
    the document in its [doc] field (or NULL there). *)
Inductive IDispatch :=
  | Dispatch_object
  | Dispatch_node
  | Dispatch_domnode (document : option ptr).

(** IDispatch_QueryInterface(disp, &IID_IXMLDOMNode, &domnode): [domnode]
    afterwards; it stays NULL when the object is no IXMLDOMNode. *)
Definition IDispatch_QueryInterface (disp : IDispatch) : option IDispatch :=
  match disp with
  | Dispatch_object => None
  | _ => Some disp
  end.

(** xmlNodePtr_from_domnode(domnode, XML_DOCUMENT_NODE): the xmlNode of a
    document node, given by its [doc] field, and NULL for a node of
    another type. *)
Definition xmlNodePtr_from_domnode (domnode : IDispatch) : option (option ptr) :=
  match domnode with
  | Dispatch_domnode document => Some document
  | _ => None
  end.

(** IXMLDOMNode_Release(domnode) calls through domnode->lpVtbl: a fault on
    a NULL pointer.  On a node it gives back the reference that
    IDispatch_QueryInterface took and leaves no mark on the store. *)
Definition IXMLDOMNode_Release (domnode : option IDispatch) : M unit :=
  match domnode with
  | Some _ => mret tt
  | None => fault
  end.

(** The document a dispatch pointer references, in the words of the
    specification: the one of a document-bearing node, and none
    otherwise. *)
Definition xmlDocPtr_from_dispatch (disp : IDispatch) : option ptr :=
  match disp with
  | Dispatch_domnode document => document
  | _ => None
  end.

(** A VARIANT by its V_VT tag; schema_cache_add tells VT_NULL, VT_BSTR and
    VT_DISPATCH from all the others. *)
Inductive VARIANT :=
  | VT_EMPTY
  | VT_NULL
  | VT_I4 (lVal : Z)
  | VT_BSTR (bstrVal : BSTR)
  | VT_DISPATCH (pdispVal : IDispatch)
  | VT_BOOL (boolVal : bool)
  | VT_UNKNOWN.

Definition cache_free (data : ptr) (name : string) : M unit :=
  cache_entry_release data;; mret tt.

(** The new count is a LONG; the function returns it as a ULONG. *)
Definition schema_cache_AddRef (This : ptr) : M Z :=
  c ← deref caches This;
  let r := LONG_wrap (cache_ref c + 1) in
  modify (set_caches (<[This := {| cache := cache c; cache_ref := r |}]>));;
  mret (ULONG_of_LONG r).

Definition schema_cache_Release (This : ptr) : M Z :=
  c ← deref caches This;
  let r := LONG_wrap (cache_ref c - 1) in
  modify (set_caches (<[This := {| cache := cache c; cache_ref := r |}]>));;
  (if decide (r = 0%Z) then
     xmlHashFree This cache_free;;
     modify (set_caches (delete This))
   else mret tt);;
  mret (ULONG_of_LONG r).

(** The TRACE calls and the heap_free of the converted strings leave no
    mark on the store and are not written out.  In the VT_DISPATCH branch
    [domnode] is what IDispatch_QueryInterface leaves in it, [doc] is read
    through the pointer that xmlNodePtr_from_domnode returns (a fault when
    that is NULL), and IXMLDOMNode_Release(domnode) runs whether or not
    [domnode] is NULL. *)
Definition schema_cache_add (This : ptr) (uri : BSTR) (var : VARIANT) : M HRESULT :=
  let name := xmlChar_from_wchar uri in
  match var with
  | VT_NULL =>
      xmlHashRemoveEntry This name cache_free;;
      mret S_OK
  | VT_BSTR bstrVal =>
      let url := xmlChar_from_wchar bstrVal in
      entry ← cache_entry_from_url url;
      match entry with
      | Some entry =>
          cache_entry_add_ref entry;;
          xmlHashRemoveEntry This name cache_free;;
          xmlHashAddEntry This name entry;;
          mret S_OK
      | None => mret E_FAIL
      end
  | VT_DISPATCH pdispVal =>
      let domnode := IDispatch_QueryInterface pdispVal in
      doc ←
        match domnode with
        | Some node => from_option mret fault (xmlNodePtr_from_domnode node)
        | None => mret None
        end;
      match doc with
      | None =>
          IXMLDOMNode_Release domnode;;
          mret E_INVALIDARG
      | Some d =>
          content ← deref docs d;
          entry ←
            match schema_type_from_xmlDocPtr content with
            | SCHEMA_TYPE_XSD => cache_entry_from_xsd_doc d
            | SCHEMA_TYPE_XDR => cache_entry_from_xdr_doc d
            | SCHEMA_TYPE_INVALID => mret None
            end;
          IXMLDOMNode_Release domnode;;
          match entry with
          | Some entry =>
              cache_entry_add_ref entry;;
              xmlHashRemoveEntry This name cache_free;;
              xmlHashAddEntry This name entry;;
              mret S_OK
          | None => mret E_FAIL
          end
      end
  | _ => mret E_INVALIDARG
  end.

(** [node] tells whether the caller passed an output slot; the second
    component of the result is what the slot holds on return. *)
Definition schema_cache_get (This : ptr) (uri : BSTR) (node : bool)
    : M (HRESULT * option IXMLDOMNode) :=
  if negb node then mret (E_POINTER, None)
  else
    let name := xmlChar_from_wchar uri in
    t ← table_of This;
    match xmlHashLookup t name with
    | Some entry =>
        e ← deref entries entry;
        mret (DOMDocument_create_from_xmldoc (doc e))
    | None => mret (S_OK, None)
    end.

Definition schema_cache_remove (This : ptr) (uri : BSTR) : M HRESULT :=
  let name := xmlChar_from_wchar uri in
  xmlHashRemoveEntry This name cache_free;;
  mret S_OK.

Definition schema_cache_get_length (This : ptr) (length : bool)
    : M (HRESULT * option Z) :=
  if negb length then mret (E_POINTER, None)
  else
    t ← table_of This;
    mret (S_OK, Some (xmlHashSize t)).

Definition cache_index (data : ptr) (index_data : cache_index_data BSTR)
    (name : string) : M (cache_index_data BSTR) :=
  mret (if decide (index index_data = 0%Z)
        then {| index := LONG_wrap (index index_data - 1);
                out := Some (bstr_from_xmlChar name) |}
        else {| index := LONG_wrap (index index_data - 1);
                out := out index_data |}).

Definition schema_cache_get_namespaceURI (This : ptr) (index : Z) (len : bool)
    : M (HRESULT * option BSTR) :=
  if negb len then mret (E_POINTER, None)
  else
    t ← table_of This;
    if decide (index >= xmlHashSize t)%Z then mret (E_FAIL, None)
    else
      data ← xmlHashScan This cache_index {| index := index; out := None |};
      mret (S_OK, out data).

Definition cache_copy (data : ptr) (dest : ptr) (name : string) : M ptr :=
  t ← table_of dest;
  match xmlHashLookup t name with
  | None =>
      cache_entry_add_ref data;;
      xmlHashAddEntry dest name data;;
      mret dest
  | Some _ => mret dest
  end.

Definition schema_cache_addCollection (This : ptr) (otherCollection : option ptr)
    : M HRESULT :=
  match otherCollection with
  | None => mret E_POINTER
  | Some That =>
      xmlHashScan That cache_copy This;;
      mret S_OK
  end.

Definition schema_cache_get__newEnum (This : ptr) : M HRESULT := mret E_NOTIMPL.

(** [memory] tells whether heap_alloc finds room for the collection; the
    second component of the result is what is written to [*ppObj]. *)
Definition SchemaCache_create (memory : bool) : M (HRESULT * option ptr) :=
  if negb memory then mret (E_OUTOFMEMORY, None)
  else
    schema ← gets (λ w, fresh (dom (caches w)));
    modify (set_caches (<[schema :=
      {| cache := xmlHashCreate DEFAULT_HASHTABLE_SIZE; cache_ref := 1 |}]>));;
    mret (S_OK, Some schema).

(** ** Well-formed stores *)

(** Every item sits in the bucket its key hashes to, and no chain holds a
    key twice: what xmlHashAddEntry and xmlHashRemoveEntry maintain. *)
Definition table_wf (t : xmlHashTable) : Prop :=
  0 < length t ∧
  ∀ k c, t !! k = Some c →
    NoDup c.*1 ∧ ∀ it, it ∈ c → xmlHashComputeKey t it.1 = k.

(** A live entry whose count is a LONG and whose compiled schema, for an
    XSD entry, is allocated. *)
Definition entry_ok (w : world) (p : ptr) : Prop :=
  ∃ e, entries w !! p = Some e ∧ is_LONG (ref e) ∧
       (type e = SCHEMA_TYPE_XSD → ∃ s, schema e = Some s ∧ is_Some (schemas w !! s)).

(** A live collection over a well-formed table of distinct, live entries
    that share no compiled schema. *)
Definition cache_ok (w : world) (This : ptr) : Prop :=
  ∃ c, caches w !! This = Some c ∧
       table_wf (cache c) ∧
       NoDup (xmlHashItems (cache c)).*2 ∧
       (∀ it, it ∈ xmlHashItems (cache c) → entry_ok w it.2) ∧
       (∀ it1 it2 e1 e2, it1 ∈ xmlHashItems (cache c) → it2 ∈ xmlHashItems (cache c) →
          entries w !! it1.2 = Some e1 → entries w !! it2.2 = Some e2 →
          type e1 = SCHEMA_TYPE_XSD → type e2 = SCHEMA_TYPE_XSD →
          schema e1 = schema e2 → it1.2 = it2.2).

(** The document behind a VT_DISPATCH argument, when there is one, is
    allocated. *)
Definition variant_ok (w : world) (var : VARIANT) : Prop :=
  match var with
  | VT_DISPATCH (Dispatch_domnode (Some d)) => is_Some (docs w !! d)
  | _ => True
  end.

(** The object behind a VT_DISPATCH argument is a document node: the
    sources on which the VT_DISPATCH branch of schema_cache_add gets past
    its pointer dereferences. *)
Definition domnode_ok (var : VARIANT) : Prop :=
  match var with
  | VT_DISPATCH (Dispatch_domnode _) => True
  | VT_DISPATCH _ => False
  | _ => True
  end.

(** The payloads bound to [name] that a scan of the table meets. *)
Definition entries_at (t : xmlHashTable) (name : string) : list ptr :=
  (filter (λ it, it.1 = name) (xmlHashItems t)).*2.

(** ** The stores the operations leave behind *)

(** What the teardown of entry [p] adds to the trace. *)
Definition teardown_trace (p : ptr) (e : cache_entry) : list event :=
  match type e, schema e with
  | SCHEMA_TYPE_XSD, Some s =>
      [Call_xmldoc_release (doc e); Call_xmlSchemaFree s None; Call_heap_free p]
  | _, _ => [Call_xmldoc_release (doc e); Call_heap_free p]
  end.

(** The store after [cache_entry_release p], where [e] is the entry at [p]:
    the count goes down by one, and at zero the entry and its compiled
    schema are gone. *)
Definition released (p : ptr) (e : cache_entry) (w : world) : world :=
  if decide (LONG_wrap (ref e - 1) = 0%Z) then
    {| entries := delete p (entries w);
       schemas := match type e, schema e with
                  | SCHEMA_TYPE_XSD, Some s => delete s (schemas w)
                  | _, _ => schemas w
                  end;
       docs := docs w;
       caches := caches w;
       trace := trace w ++ teardown_trace p e |}
  else set_entries (<[p := with_ref e (LONG_wrap (ref e - 1))]>) w.

(** The table and the entry heap after the scan of addCollection has
    visited the items [l] of the other collection. *)
Fixpoint copy_items (l : list (string * ptr)) (t : xmlHashTable)
    (h : gmap ptr cache_entry) : xmlHashTable * gmap ptr cache_entry :=
  match l with
  | [] => (t, h)
  | (n, p) :: l' =>
      match xmlHashLookup t n with
      | None =>
          copy_items l' (table_add t n p)
            (alter (λ e, with_ref e (LONG_wrap (ref e + 1))) p h)
      | Some _ => copy_items l' t h
      end
  end.

(** The index data after cache_index has visited the keys [l]. *)
Fixpoint index_items (l : list (string * ptr)) (d : cache_index_data BSTR)
    : cache_index_data BSTR :=
  match l with
  | [] => d
  | (n, _) :: l' =>
      index_items l'
        (if decide (index d = 0%Z)
         then {| index := LONG_wrap (index d - 1); out := Some (bstr_from_xmlChar n) |}
         else {| index := LONG_wrap (index d - 1); out := out d |})
  end.

(** The detector in the words of the specification: a root that carries a
    namespace is compared against the two signatures, (schema, XSD
    namespace) first. *)
Definition dialect_of_signature (local_name ns_uri : option string) : SCHEMA_TYPE :=
  if decide (local_name = Some XSD_schema ∧ ns_uri = Some XSD_nsURI)
  then SCHEMA_TYPE_XSD
  else if decide (local_name = Some XDR_schema ∧ ns_uri = Some XDR_nsURI)
  then SCHEMA_TYPE_XDR
  else SCHEMA_TYPE_INVALID.

(** [k] calls of cache_entry_add_ref on an entry. *)
Definition cache_entry_add_refs (k : nat) (e : cache_entry) : cache_entry :=
  Nat.iter k (λ e, with_ref e (LONG_wrap (ref e + 1))) e.

(** The keys of [other] that are missing from [self] and bound to [p]:
    the references to [p] that addCollection hands to [self]. *)
Definition copies_of (p : ptr) (self other : xmlHashTable) : nat :=
  length (filter (λ it, it.2 = p ∧ xmlHashLookup self it.1 = None) (xmlHashItems other)).

(** The store after the scan of addCollection has visited the items [l],
    where [c] is the receiving collection. *)
Definition copied (This : ptr) (l : list (string * ptr)) (c : schema_cache)
    (w : world) : world :=
  {| entries := (copy_items l (cache c) (entries w)).2;
     schemas := schemas w;
     docs := docs w;
     caches := <[This := {| cache := (copy_items l (cache c) (entries w)).1;
                            cache_ref := cache_ref c |}]> (caches w);
     trace := trace w |}.

(** [w1] is [w] with one more entry [e] at the free address [entry], not
    yet counted, whose document has been handed to the document reference
    counting, and whose compiled schema, for an XSD entry, sits at an
    address that was free. *)
Definition constructed (w : world) (entry : ptr) (e : cache_entry) (w1 : world) : Prop :=
  entries w !! entry = None ∧
  entries w1 = <[entry := e]> (entries w) ∧
  ref e = 0%Z ∧
  caches w1 = caches w ∧
  schemas w ⊆ schemas w1 ∧
  docs w ⊆ docs w1 ∧
  docs w !! doc e = None ∧
  is_Some (docs w1 !! doc e) ∧
  (type e = SCHEMA_TYPE_XSD →
     ∃ s, schema e = Some s ∧ schemas w !! s = None ∧
          schemas w1 !! s = Some {| schema_doc := Some (doc e) |}) ∧
  ∃ clsid, trace w1 = trace w ++ [Call_xmldoc_init (doc e) clsid; Call_xmldoc_add_ref (doc e)].

(** [w1] is [w] but for its trace. *)
Definition same_heaps (w w1 : world) : Prop :=
  entries w1 = entries w ∧ schemas w1 = schemas w ∧
  docs w1 = docs w ∧ caches w1 = caches w.

(** The tail that the VT_BSTR and the VT_DISPATCH branch of
    schema_cache_add share, once the new entry exists. *)
Definition store_entry (This : ptr) (name : string) (entry : ptr) : M HRESULT :=
  cache_entry_add_ref entry;;
  xmlHashRemoveEntry This name cache_free;;
  xmlHashAddEntry This name entry;;
  mret S_OK.

(** The entry the collection holds under [name], with its address. *)
Definition old_entry (w : world) (This : ptr) (name : string) : option (ptr * cache_entry) :=
  c ← caches w !! This;
  p ← xmlHashLookup (cache c) name;
  ep ← entries w !! p;
  Some (p, ep).

(** The store after [store_entry]: the new entry [e] at [entry] is counted
    once; then the old entry, if there is one, is released and unlinked;
    then the new entry is linked. *)
Definition stored (This : ptr) (name : string) (entry : ptr) (e : cache_entry)
    (old : option (ptr * cache_entry)) (w1 : world) : world :=
  let w2 := set_entries (<[entry := with_ref e (LONG_wrap (ref e + 1))]>) w1 in
  with_table This (λ t, table_add t name entry)
    match old with
    | Some (p, ep) => with_table This (λ t, table_remove t name) (released p ep w2)
    | None => w2
    end.

(** The failures of add in the words of the specification: the code a
    source fails with, or [None] for a source that add accepts.  A URL
    fails with E_FAIL when no parser context can be made for it or it does
    not compile; a dispatch pointer fails with E_INVALIDARG when it does
    not lead to a document, and with E_FAIL when the document's dialect is
    not detected or, for an XSD document, it does not compile; every shape
    other than Null, Url and Document fails with E_INVALIDARG. *)
Definition add_failure (w : world) (var : VARIANT) : option HRESULT :=
  match var with
  | VT_NULL => None
  | VT_BSTR bstrVal =>
      let url := xmlChar_from_wchar bstrVal in
      if xmlSchemaNewParserCtxt url
      then match xmlSchemaParse_url url with
           | Some _ => None
           | None => Some E_FAIL
           end
      else Some E_FAIL
  | VT_DISPATCH pdispVal =>
      match xmlDocPtr_from_dispatch pdispVal with
      | None => Some E_INVALIDARG
      | Some d =>
          match docs w !! d with
          | Some content =>
              match schema_type_from_xmlDocPtr content with
              | SCHEMA_TYPE_INVALID => Some E_FAIL
              | SCHEMA_TYPE_XSD =>
                  if xmlSchemaParse_doc content then None else Some E_FAIL
              | SCHEMA_TYPE_XDR => None
              end
          | None => None
          end
      end
  | _ => Some E_INVALIDARG
  end.

(** ** Releasing a whole table *)

(** The store after cache_free has run on the payloads of the items [l],
    in their order (xmlHashFree with cache_free as deallocator). *)
Fixpoint released_items (l : list (string * ptr)) (w : world) : world :=
  match l with
  | [] => w
  | (_, p) :: l' =>
      match entries w !! p with
      | Some e => released_items l' (released p e w)
      | None => w
      end
  end.

(** What cache_free on the payloads of the items [l] adds to the trace,
    when the payloads are distinct entries of the heap [h]: the teardown of
    every entry whose count is 1, in the order of the items. *)
Fixpoint teardown_traces (h : gmap ptr cache_entry) (l : list (string * ptr))
    : list event :=
  match l with
  | [] => []
  | (_, p) :: l' =>
      match h !! p with
      | Some e =>
          (if decide (ref e = 1%Z) then teardown_trace p e else []) ++
          teardown_traces h l'
      | None => teardown_traces h l'
      end
  end.

(** The items hold distinct, live entries that share no compiled schema. *)
Definition items_ok (w : world) (l : list (string * ptr)) : Prop :=
  NoDup l.*2 ∧
  (∀ it, it ∈ l → entry_ok w it.2) ∧
  (∀ it1 it2 e1 e2, it1 ∈ l → it2 ∈ l →
     entries w !! it1.2 = Some e1 → entries w !! it2.2 = Some e2 →
     type e1 = SCHEMA_TYPE_XSD → type e2 = SCHEMA_TYPE_XSD →
     schema e1 = schema e2 → it1.2 = it2.2).

(** ** Calls through the interface *)

(** The methods of schema_vtbl that work on the table of the collection,
    each with its arguments; a [bool] tells whether the caller passed the
    output slot. *)
Inductive method : Type :=
  | Vtbl_add (uri : BSTR) (var : VARIANT)
  | Vtbl_get (uri : BSTR) (node : bool)
  | Vtbl_remove (uri : BSTR)
  | Vtbl_get_length (length : bool)
  | Vtbl_get_namespaceURI (index : Z) (len : bool)
  | Vtbl_get__newEnum.

(** One call through the vtable; of the results the HRESULT is kept. *)
Definition schema_vtbl (This : ptr) (m : method) : M HRESULT :=
  match m with
  | Vtbl_add uri var => schema_cache_add This uri var
  | Vtbl_get uri node => r ← schema_cache_get This uri node; mret r.1
  | Vtbl_remove uri => schema_cache_remove This uri
  | Vtbl_get_length length => r ← schema_cache_get_length This length; mret r.1
  | Vtbl_get_namespaceURI index len =>
      r ← schema_cache_get_namespaceURI This index len; mret r.1
  | Vtbl_get__newEnum => schema_cache_get__newEnum This
  end.

(** A caller making the calls [ms] one after the other on one collection. *)
Fixpoint calls (This : ptr) (ms : list method) : M (list HRESULT) :=
  match ms with
  | [] => mret []
  | m :: ms' =>
      hr ← schema_vtbl This m;
      hrs ← calls This ms';
      mret (hr :: hrs)
  end.

(** The source of an add, when it is a dispatch pointer, is a document
    node, and the document behind it, when there is one, is allocated. *)
Definition method_ok (w : world) (m : method) : Prop :=
  match m with
  | Vtbl_add _ var => domnode_ok var ∧ variant_ok w var
  | _ => True
  end.

End Cache.

(** ** Stores reached by running the model *)

(** The store a computation leaves (the store it started from when it
    faults). *)
Definition run {A} (m : M A) (w : world) : world :=
  match m w with
  | Some (_, w') => w'
  | None => w
  end.

(** Collection 1 after add("urn:a", Url("file:///a.xsd")). *)
Definition demo_world_a : world :=
  run (@schema_cache_add demo_ext 1%positive "urn:a"
         (@VT_BSTR demo_ext "file:///a.xsd")) demo_world.

(** ... and after add("urn:bb", Document(2)), the legacy document. *)
Definition demo_world_ab : world :=
  run (@schema_cache_add demo_ext 1%positive "urn:bb"
         (@VT_DISPATCH demo_ext (Dispatch_domnode (Some 2%positive)))) demo_world_a.

(** The collection at an address of a store. *)
Definition demo_cache (w : world) (This : ptr) : schema_cache :=
  default {| cache := []; cache_ref := 0 |} (caches w !! This).

(** * Properties *)

Section Properties.
Context {ext : External}.

(** ** Chains *)

Lemma chain_lookup_None c name :
  chain_lookup c name = None ↔ name ∉ c.*1.
Proof.
  induction c as [|[n p] c IH]; simpl.
  - split; [intros _; apply not_elem_of_nil | done].
  - rewrite not_elem_of_cons. case_decide; subst; [split; [done | tauto] |].
    rewrite IH. intuition congruence.
Qed.

Lemma chain_lookup_Some_elem c name p :
  chain_lookup c name = Some p → (name, p) ∈ c.
Proof.
  induction c as [|[n q] c IH]; simpl; [done |].
  case_decide; subst.
  - intros [= ->]. apply elem_of_cons; auto.
  - intros H'. apply elem_of_cons; auto.
Qed.

Lemma chain_lookup_elem c name p :
  NoDup c.*1 → (name, p) ∈ c → chain_lookup c name = Some p.
Proof.
  induction c as [|[n q] c IH]; simpl.
  - intros _ H'. by apply elem_of_nil in H'.
  - rewrite NoDup_cons. intros [Hn Hnd] [Heq | Hin]%elem_of_cons.
    + injection Heq as -> ->. by rewrite decide_True.
    + case_decide; subst; [| by apply IH].
      exfalso. apply Hn. apply (list_elem_of_fmap_2 fst) in Hin. done.
Qed.

Lemma chain_remove_absent c name :
  chain_lookup c name = None → chain_remove c name = c.
Proof.
  induction c as [|[n p] c IH]; simpl; [done |].
  case_decide; [done |]. intros H'. by rewrite IH.
Qed.

Lemma chain_remove_present c name p :
  chain_lookup c name = Some p → c ≡ₚ (name, p) :: chain_remove c name.
Proof.
  induction c as [|[n q] c IH]; simpl; [done |].
  case_decide; subst.
  - by intros [= ->].
  - intros H'. rewrite (IH H') at 1. apply Permutation_swap.
Qed.

Lemma chain_remove_sublist c name : chain_remove c name `sublist_of` c.
Proof.
  induction c as [|[n p] c IH]; simpl; [done |].
  case_decide; [by apply sublist_cons | by apply sublist_skip].
Qed.

Lemma chain_remove_lookup_ne c name name' :
  name ≠ name' →
  chain_lookup (chain_remove c name) name' = chain_lookup c name'.
Proof.
  intros Hne. induction c as [|[n p] c IH]; simpl; [done |].
  case_decide; subst; simpl.
  - by rewrite decide_False.
  - by rewrite IH.
Qed.

Lemma chain_remove_lookup_eq c name :
  NoDup c.*1 → chain_lookup (chain_remove c name) name = None.
Proof.
  induction c as [|[n p] c IH]; simpl; [done |].
  rewrite NoDup_cons. intros [Hn Hnd].
  case_decide; subst; simpl.
  - by apply chain_lookup_None.
  - rewrite decide_False by done. by apply IH.
Qed.

Lemma chain_lookup_app c name p :
  chain_lookup (c ++ [(name, p)]) name =
  Some (default p (chain_lookup c name)).
Proof.
  induction c as [|[n q] c IH]; simpl.
  - by rewrite decide_True.
  - by case_decide.
Qed.

Lemma chain_lookup_app_ne c name name' p :
  name ≠ name' →
  chain_lookup (c ++ [(name, p)]) name' = chain_lookup c name'.
Proof.
  intros Hne. induction c as [|[n q] c IH]; simpl.
  - by rewrite decide_False.
  - by rewrite IH.
Qed.

(** ** Tables *)

Lemma key_lt t name : 0 < length t → xmlHashComputeKey t name < length t.
Proof. intros Hlen. unfold xmlHashComputeKey. apply Nat.mod_upper_bound. lia. Qed.

Lemma key_insert t k c name :
  xmlHashComputeKey (<[k := c]> t) name = xmlHashComputeKey t name.
Proof. unfold xmlHashComputeKey. by rewrite length_insert. Qed.

Lemma chain_of_lookup t k : k < length t → t !! k = Some (chain_of t k).
Proof.
  intros Hk. unfold chain_of. destruct (t !! k) eqn:E; [done |].
  apply lookup_ge_None in E. lia.
Qed.

Lemma chain_of_insert_eq t k c : k < length t → chain_of (<[k := c]> t) k = c.
Proof. intros Hk. unfold chain_of. by rewrite list_lookup_insert_eq. Qed.

Lemma chain_of_insert_ne t k k' c : k ≠ k' → chain_of (<[k := c]> t) k' = chain_of t k'.
Proof. intros Hk. unfold chain_of. by rewrite list_lookup_insert_ne. Qed.

Lemma items_split t k :
  k < length t →
  xmlHashItems t = mjoin (take k t) ++ chain_of t k ++ mjoin (drop (S k) t).
Proof.
  intros Hk. unfold xmlHashItems.
  rewrite <- (take_drop_middle t k (chain_of t k)) at 1 by by apply chain_of_lookup.
  by rewrite join_app.
Qed.

Lemma items_insert t k c :
  k < length t →
  xmlHashItems (<[k := c]> t) = mjoin (take k t) ++ c ++ mjoin (drop (S k) t).
Proof.
  intros Hk. unfold xmlHashItems. rewrite insert_take_drop by done.
  by rewrite join_app.
Qed.

Lemma items_table_add t name p :
  0 < length t → xmlHashItems (table_add t name p) ≡ₚ (name, p) :: xmlHashItems t.
Proof.
  intros Hlen. unfold table_add.
  pose proof (key_lt t name Hlen) as Hk.
  rewrite items_insert, (items_split t _ Hk) by done.
  rewrite <- (assoc_L (++) (chain_of t _) [(name, p)]). simpl.
  by rewrite <- !Permutation_middle.
Qed.

Lemma items_table_remove t name p :
  0 < length t → xmlHashLookup t name = Some p →
  xmlHashItems t ≡ₚ (name, p) :: xmlHashItems (table_remove t name).
Proof.
  intros Hlen Hl. unfold table_remove.
  pose proof (key_lt t name Hlen) as Hk.
  rewrite items_insert, (items_split t _ Hk) by done.
  rewrite (chain_remove_present _ _ _ Hl) at 1. simpl.
  by rewrite <- Permutation_middle.
Qed.

Lemma items_table_remove_sublist t name :
  xmlHashItems (table_remove t name) `sublist_of` xmlHashItems t.
Proof.
  unfold table_remove.
  destruct (decide (xmlHashComputeKey t name < length t)) as [Hk | Hk].
  - rewrite items_insert, (items_split t _ Hk) by done.
    apply sublist_app; [done |]. apply sublist_app; [| done].
    apply chain_remove_sublist.
  - by rewrite list_insert_ge by lia.
Qed.

Lemma table_remove_absent t name :
  xmlHashLookup t name = None → table_remove t name = t.
Proof.
  intros Hl. unfold table_remove. apply list_insert_id'. intros Hk.
  rewrite chain_remove_absent by done. by apply chain_of_lookup.
Qed.

Lemma lookup_table_add_eq t name p :
  0 < length t →
  xmlHashLookup (table_add t name p) name = Some (default p (xmlHashLookup t name)).
Proof.
  intros Hlen. unfold xmlHashLookup, table_add. rewrite key_insert.
  rewrite chain_of_insert_eq by by apply key_lt.
  apply chain_lookup_app.
Qed.

Lemma lookup_table_add_ne t name name' p :
  name ≠ name' →
  xmlHashLookup (table_add t name p) name' = xmlHashLookup t name'.
Proof.
  intros Hne. unfold xmlHashLookup, table_add. rewrite key_insert.
  destruct (decide (xmlHashComputeKey t name = xmlHashComputeKey t name')) as [<- | Hk].
  - destruct (decide (xmlHashComputeKey t name < length t)).
    + rewrite chain_of_insert_eq by done. by apply chain_lookup_app_ne.
    + by rewrite list_insert_ge by lia.
  - by rewrite chain_of_insert_ne.
Qed.

Lemma lookup_table_remove_ne t name name' :
  name ≠ name' →
  xmlHashLookup (table_remove t name) name' = xmlHashLookup t name'.
Proof.
  intros Hne. unfold xmlHashLookup, table_remove. rewrite key_insert.
  destruct (decide (xmlHashComputeKey t name = xmlHashComputeKey t name')) as [<- | Hk].
  - destruct (decide (xmlHashComputeKey t name < length t)).
    + rewrite chain_of_insert_eq by done. by apply chain_remove_lookup_ne.
    + by rewrite list_insert_ge by lia.
  - by rewrite chain_of_insert_ne.
Qed.

Lemma lookup_table_remove_eq t name :
  table_wf t → xmlHashLookup (table_remove t name) name = None.
Proof.
  intros [Hlen Hwf]. unfold xmlHashLookup, table_remove. rewrite key_insert.
  pose proof (key_lt t name Hlen) as Hk.
  rewrite chain_of_insert_eq by done.
  apply chain_remove_lookup_eq.
  by apply (Hwf _ _ (chain_of_lookup _ _ Hk)).
Qed.

Lemma table_wf_create size : 0 < size → table_wf (xmlHashCreate size).
Proof.
  intros Hs. unfold xmlHashCreate. split; [by rewrite length_replicate |].
  intros k c [-> _]%lookup_replicate. split; [constructor |].
  intros it Hit. by apply elem_of_nil in Hit.
Qed.

Lemma table_wf_add t name p :
  table_wf t → xmlHashLookup t name = None → table_wf (table_add t name p).
Proof.
  intros [Hlen Hwf] Hl. unfold table_add.
  pose proof (key_lt t name Hlen) as Hk.
  split; [by rewrite length_insert |].
  intros k c Hc.
  destruct (decide (xmlHashComputeKey t name = k)) as [<- | Hne].
  - rewrite list_lookup_insert_eq in Hc by done. injection Hc as <-.
    destruct (Hwf _ _ (chain_of_lookup _ _ Hk)) as [Hnd Hkey].
    split.
    + rewrite fmap_app. apply NoDup_app. split; [done |]. split; [| apply NoDup_singleton].
      intros n Hn [= ->]%list_elem_of_singleton.
      by apply chain_lookup_None in Hl.
    + intros it [Hit | ->%list_elem_of_singleton]%elem_of_app; rewrite key_insert; auto.
  - rewrite list_lookup_insert_ne in Hc by done.
    destruct (Hwf _ _ Hc) as [Hnd Hkey]. split; [done |].
    intros it Hit. rewrite key_insert. auto.
Qed.

Lemma table_wf_remove t name : table_wf t → table_wf (table_remove t name).
Proof.
  intros [Hlen Hwf]. unfold table_remove.
  pose proof (key_lt t name Hlen) as Hk.
  split; [by rewrite length_insert |].
  intros k c Hc.
  destruct (decide (xmlHashComputeKey t name = k)) as [<- | Hne].
  - rewrite list_lookup_insert_eq in Hc by done. injection Hc as <-.
    destruct (Hwf _ _ (chain_of_lookup _ _ Hk)) as [Hnd Hkey].
    split.
    + eapply sublist_NoDup; [exact Hnd | apply fmap_sublist, chain_remove_sublist].
    + intros it Hit. rewrite key_insert. apply Hkey.
      eapply elem_of_sublist; [exact Hit | apply chain_remove_sublist].
  - rewrite list_lookup_insert_ne in Hc by done.
    destruct (Hwf _ _ Hc) as [Hnd Hkey]. split; [done |].
    intros it Hit. rewrite key_insert. auto.
Qed.

Lemma items_lookup t it :
  table_wf t → it ∈ xmlHashItems t ↔ xmlHashLookup t it.1 = Some it.2.
Proof.
  intros [Hlen Hwf]. unfold xmlHashItems, xmlHashLookup. destruct it as [n p]; simpl. split.
  - intros (c & Hin & [k Hc]%list_elem_of_lookup_1)%list_elem_of_join.
    destruct (Hwf _ _ Hc) as [Hnd Hkey].
    pose proof (Hkey _ Hin) as Hk. simpl in Hk.
    rewrite Hk. unfold chain_of. rewrite Hc. simpl.
    by apply chain_lookup_elem.
  - intros Hin%chain_lookup_Some_elem. apply list_elem_of_join.
    eexists. split; [exact Hin |].
    eapply list_elem_of_lookup_2, chain_of_lookup, key_lt, Hlen.
Qed.

Lemma NoDup_join_keys (g : string → nat) (t : xmlHashTable) (off : nat) :
  (∀ k c, t !! k = Some c → NoDup c.*1 ∧ ∀ it, it ∈ c → g it.1 = off + k) →
  NoDup (mjoin t).*1.
Proof.
  revert off. induction t as [|c t IH]; intros off Hwf; simpl; [constructor |].
  rewrite fmap_app. apply NoDup_app. split; [| split].
  - apply (Hwf 0 c eq_refl).
  - intros n (it & -> & Hit)%list_elem_of_fmap (it' & Heq & Hit')%list_elem_of_fmap.
    apply list_elem_of_join in Hit' as (c' & Hit' & [k Hc']%list_elem_of_lookup_1).
    pose proof (proj2 (Hwf 0 c eq_refl) _ Hit) as H0.
    pose proof (proj2 (Hwf (S k) c' Hc') _ Hit') as H1.
    rewrite <- Heq in H1. lia.
  - apply (IH (S off)). intros k c' Hc'.
    destruct (Hwf (S k) c' Hc') as [Hnd Hkey]. split; [done |].
    intros it Hit. rewrite (Hkey _ Hit). lia.
Qed.

Lemma items_NoDup_keys t : table_wf t → NoDup (xmlHashItems t).*1.
Proof.
  intros [_ Hwf]. apply (NoDup_join_keys (xmlHashComputeKey t) t 0).
  intros k c Hc. destruct (Hwf _ _ Hc) as [Hnd Hkey]. by split.
Qed.

(** ** The monad and the primitive operations *)

Lemma bind_Some {A B} (m : M A) (f : A → M B) w x w1 :
  m w = Some (x, w1) → (m ≫= f) w = f x w1.
Proof. intros Hm. munfold. by rewrite Hm. Qed.

Lemma fresh_lookup_None {A} (m : gmap ptr A) : m !! fresh (dom m) = None.
Proof. apply not_elem_of_dom, is_fresh. Qed.

Lemma table_of_spec This w c :
  caches w !! This = Some c → table_of This w = Some (cache c, w).
Proof. intros Hc. unfold table_of. munfold. by rewrite Hc. Qed.

Lemma with_table_lookup This f w c :
  caches w !! This = Some c →
  caches (with_table This f w) !! This =
    Some {| cache := f (cache c); cache_ref := cache_ref c |}.
Proof. intros Hc. unfold with_table. simpl. by rewrite lookup_alter_eq, Hc. Qed.

Lemma with_table_lookup_ne This That f w :
  This ≠ That → caches (with_table This f w) !! That = caches w !! That.
Proof. intros Hne. unfold with_table. simpl. by rewrite lookup_alter_ne. Qed.

Lemma cache_entry_add_ref_spec p e w :
  entries w !! p = Some e →
  cache_entry_add_ref p w =
    Some (LONG_wrap (ref e + 1),
          set_entries (<[p := with_ref e (LONG_wrap (ref e + 1))]>) w).
Proof. intros He. unfold cache_entry_add_ref. munfold. by rewrite He. Qed.

Lemma cache_entry_release_spec p e w :
  entries w !! p = Some e →
  (type e = SCHEMA_TYPE_XSD → ∃ s, schema e = Some s ∧ is_Some (schemas w !! s)) →
  cache_entry_release p w = Some (LONG_wrap (ref e - 1), released p e w).
Proof.
  intros He Hs. unfold cache_entry_release, released, teardown_trace.
  unfold xmlSchemaFree, heap_free. munfold. rewrite He. simpl.
  case_decide as Hz; [| done].
  destruct (type e) eqn:Ht; simpl.
  - unfold set_entries, log; simpl.
    by rewrite delete_insert_eq, <- (assoc_L (++)).
  - unfold set_entries, log; simpl.
    by rewrite delete_insert_eq, <- (assoc_L (++)).
  - destruct Hs as (s & -> & [sch Hsch]); [done |]. simpl.
    rewrite Hsch. simpl. rewrite lookup_insert_eq. simpl.
    unfold set_entries, set_schemas, log; simpl.
    rewrite !delete_insert_eq.
    by rewrite <- !(assoc_L (++)).
Qed.

Lemma LONG_wrap_range z : is_LONG (LONG_wrap z).
Proof.
  unfold is_LONG, LONG_wrap.
  pose proof (Z.mod_pos_bound (z + 2 ^ 31) (2 ^ 32)). lia.
Qed.

Lemma LONG_wrap_id z : is_LONG z → LONG_wrap z = z.
Proof.
  unfold is_LONG, LONG_wrap. intros Hz.
  rewrite Z.mod_small by lia. lia.
Qed.

Lemma LONG_wrap_wrap a b : LONG_wrap (LONG_wrap a + b) = LONG_wrap (a + b).
Proof.
  unfold LONG_wrap. f_equal.
  replace ((a + 2 ^ 31) mod 2 ^ 32 - 2 ^ 31 + b + 2 ^ 31)%Z
    with ((a + 2 ^ 31) mod 2 ^ 32 + b)%Z by lia.
  rewrite Zplus_mod_idemp_l. f_equal. lia.
Qed.

Lemma LONG_wrap_wrap_sub a b : LONG_wrap (LONG_wrap a - b) = LONG_wrap (a - b).
Proof. rewrite <- !Z.add_opp_r. apply LONG_wrap_wrap. Qed.

(** A LONG count drops to zero exactly from one. *)
Lemma LONG_wrap_pred_zero z : is_LONG z → LONG_wrap (z - 1) = 0%Z ↔ z = 1%Z.
Proof.
  unfold is_LONG. intros Hz. split; [| by intros ->].
  unfold LONG_wrap. intros H0.
  assert ((z - 1 + 2 ^ 31) mod 2 ^ 32 = 2 ^ 31)%Z as Hm by lia.
  destruct (decide (z = - 2 ^ 31)%Z) as [-> | Hne]; [by vm_compute in Hm |].
  rewrite Z.mod_small in Hm by lia. lia.
Qed.

Lemma released_caches p e w : caches (released p e w) = caches w.
Proof. unfold released. by case_decide. Qed.

Lemma released_docs p e w : docs (released p e w) = docs w.
Proof. unfold released. by case_decide. Qed.

Lemma released_entries_ne p e w q :
  p ≠ q → entries (released p e w) !! q = entries w !! q.
Proof.
  intros Hne. unfold released. case_decide; simpl.
  - by rewrite lookup_delete_ne.
  - by rewrite lookup_insert_ne.
Qed.

Lemma released_schemas p e w s :
  (type e = SCHEMA_TYPE_XSD → schema e ≠ Some s) →
  schemas (released p e w) !! s = schemas w !! s.
Proof.
  intros Hne. unfold released. case_decide; simpl; [| done].
  destruct (type e); [done | done |].
  destruct (schema e) as [s' |]; [| done].
  rewrite lookup_delete_ne; [done |]. intros ->. by apply Hne.
Qed.

Lemma xmlHashRemoveEntry_absent This name w c :
  caches w !! This = Some c → xmlHashLookup (cache c) name = None →
  xmlHashRemoveEntry This name cache_free w = Some ((-1)%Z, w).
Proof.
  intros Hc Hl. unfold xmlHashRemoveEntry. munfold.
  by rewrite (table_of_spec _ _ _ Hc), Hl.
Qed.

Lemma xmlHashRemoveEntry_present This name w c p e :
  caches w !! This = Some c → xmlHashLookup (cache c) name = Some p →
  entries w !! p = Some e →
  (type e = SCHEMA_TYPE_XSD → ∃ s, schema e = Some s ∧ is_Some (schemas w !! s)) →
  xmlHashRemoveEntry This name cache_free w =
    Some (0%Z, with_table This (λ t, table_remove t name) (released p e w)).
Proof.
  intros Hc Hl He Hs. unfold xmlHashRemoveEntry, cache_free, update_table. munfold.
  rewrite (table_of_spec _ _ _ Hc), Hl.
  by rewrite (cache_entry_release_spec _ _ _ He Hs).
Qed.

Lemma xmlHashAddEntry_absent This name p w c :
  caches w !! This = Some c → xmlHashLookup (cache c) name = None →
  xmlHashAddEntry This name p w =
    Some (0%Z, with_table This (λ t, table_add t name p) w).
Proof.
  intros Hc Hl. unfold xmlHashAddEntry, update_table. munfold.
  by rewrite (table_of_spec _ _ _ Hc), Hl.
Qed.

Lemma xmlHashAddEntry_present This name p q w c :
  caches w !! This = Some c → xmlHashLookup (cache c) name = Some q →
  xmlHashAddEntry This name p w = Some ((-1)%Z, w).
Proof.
  intros Hc Hl. unfold xmlHashAddEntry. munfold.
  by rewrite (table_of_spec _ _ _ Hc), Hl.
Qed.

(** ** Well-formedness is kept *)

Lemma cache_ok_lookup w This c name p :
  caches w !! This = Some c → cache_ok w This →
  xmlHashLookup (cache c) name = Some p → entry_ok w p.
Proof.
  intros Hc (c' & Hc' & Hwf & _ & Hlive & _) Hl.
  assert (c' = c) as -> by congruence.
  apply (Hlive (name, p)). by apply items_lookup.
Qed.

Lemma cache_ok_removed w This c name p e :
  cache_ok w This → caches w !! This = Some c →
  xmlHashLookup (cache c) name = Some p → entries w !! p = Some e →
  cache_ok (with_table This (λ t, table_remove t name) (released p e w)) This.
Proof.
  intros (c' & Hc' & Hwf & Hnd & Hlive & Hinj) Hc Hl He.
  assert (c' = c) as -> by congruence. clear Hc'.
  pose proof (items_table_remove (cache c) name p (proj1 Hwf) Hl) as Hperm.
  assert (∀ it, it ∈ xmlHashItems (table_remove (cache c) name) →
            it ∈ xmlHashItems (cache c) ∧ it.2 ≠ p) as Hsub.
  { intros it Hit. split.
    - rewrite Hperm. apply elem_of_cons. by right.
    - rewrite Hperm in Hnd. simpl in Hnd. apply NoDup_cons in Hnd as [Hp _].
      intros <-. apply Hp. by apply (list_elem_of_fmap_2 snd) in Hit. }
  eexists. split; [apply with_table_lookup; by rewrite released_caches |].
  simpl. split; [by apply table_wf_remove |].
  split.
  { eapply sublist_NoDup; [exact Hnd |].
    apply fmap_sublist, items_table_remove_sublist. }
  assert (∀ it, it ∈ xmlHashItems (table_remove (cache c) name) →
            entries (with_table This (λ t, table_remove t name) (released p e w)) !! it.2
              = entries w !! it.2) as Hent.
  { intros it [Hit Hne]%Hsub. simpl. by apply released_entries_ne. }
  split.
  - intros it Hit. destruct (Hsub _ Hit) as [Hit' Hne].
    destruct (Hlive _ Hit') as (e' & He' & Hrange & Hsch).
    exists e'. split; [by rewrite Hent |]. split; [done |].
    intros Ht. destruct (Hsch Ht) as (s & Hs & Hlv). exists s. split; [done |].
    simpl. rewrite released_schemas; [done |].
    intros Hte Hs'. apply Hne.
    symmetry. apply (Hinj (name, p) it e e'); simpl; try done.
    + by apply items_lookup.
    + congruence.
  - intros it1 it2 e1 e2 Hit1 Hit2. rewrite !Hent by done.
    destruct (Hsub _ Hit1) as [Hit1' _]. destruct (Hsub _ Hit2) as [Hit2' _].
    by apply Hinj.
Qed.

Lemma cache_ok_create w This c size :
  caches w !! This = Some c → cache c = xmlHashCreate size → 0 < size →
  cache_ok w This.
Proof.
  intros Hc Ht Hs. exists c. split; [done |]. rewrite Ht.
  assert (xmlHashItems (xmlHashCreate size) = []) as ->.
  { unfold xmlHashItems, xmlHashCreate. clear. induction size; simpl; auto. }
  split; [by apply table_wf_create |]. split; [constructor |].
  split; intros it; [| intros ? ? ?]; intros Hit; by apply elem_of_nil in Hit.
Qed.

(** SchemaCache_create: when heap_alloc finds room it returns S_OK and,
    at an address that was free, a collection with an empty table of 31
    buckets and count 1 (the store is otherwise as before), which is
    well-formed and of length 0; when heap_alloc fails it returns
    E_OUTOFMEMORY, writes no object and leaves the store as it is. *)
Lemma SchemaCache_create_ok w :
  (∃ This w',
     SchemaCache_create true w = Some ((S_OK, Some This), w') ∧
     caches w !! This = None ∧
     w' = set_caches (<[This := {| cache := replicate 31 []; cache_ref := 1 |}]>) w ∧
     cache_ok w' This ∧
     schema_cache_get_length This true w' = Some ((S_OK, Some 0%Z), w')) ∧
  SchemaCache_create false w = Some ((E_OUTOFMEMORY, None), w).
Proof.
  split; [| reflexivity].
  eexists _, _. split; [reflexivity |]. simpl.
  split; [apply fresh_lookup_None |].
  split; [reflexivity |].
  split.
  - eapply (cache_ok_create _ _ _ DEFAULT_HASHTABLE_SIZE);
      [simpl; apply lookup_insert_eq | done | unfold DEFAULT_HASHTABLE_SIZE; lia].
  - unfold schema_cache_get_length. munfold. simpl.
    erewrite table_of_spec by (simpl; apply lookup_insert_eq). done.
Qed.

(** ** remove *)

Lemma schema_cache_remove_spec This uri w :
  cache_ok w This →
  ∃ c, caches w !! This = Some c ∧
    match xmlHashLookup (cache c) (xmlChar_from_wchar uri) with
    | None => schema_cache_remove This uri w = Some (S_OK, w)
    | Some p =>
        ∃ e, entries w !! p = Some e ∧
          cache_entry_release p w = Some (LONG_wrap (ref e - 1), released p e w) ∧
          schema_cache_remove This uri w =
            Some (S_OK, with_table This (λ t, table_remove t (xmlChar_from_wchar uri))
                          (released p e w))
    end.
Proof.
  intros Hok. pose proof Hok as (c & Hc & _). exists c. split; [done |].
  destruct (xmlHashLookup (cache c) (xmlChar_from_wchar uri)) as [p |] eqn:Hl.
  - destruct (cache_ok_lookup _ _ _ _ _ Hc Hok Hl) as (e & He & _ & Hs).
    exists e. split; [done |].
    split; [by apply cache_entry_release_spec |].
    unfold schema_cache_remove. munfold.
    by rewrite (xmlHashRemoveEntry_present _ _ _ _ _ _ Hc Hl He Hs).
  - unfold schema_cache_remove. munfold.
    by rewrite (xmlHashRemoveEntry_absent _ _ _ _ Hc Hl).
Qed.

(** After a remove the key is gone and the collection is still
    well-formed. *)
Lemma schema_cache_remove_ok This uri w :
  cache_ok w This →
  ∃ w1 c1, schema_cache_remove This uri w = Some (S_OK, w1) ∧
    cache_ok w1 This ∧ caches w1 !! This = Some c1 ∧
    xmlHashLookup (cache c1) (xmlChar_from_wchar uri) = None.
Proof.
  intros Hok. destruct (schema_cache_remove_spec This uri w Hok) as (c & Hc & Hspec).
  destruct (xmlHashLookup (cache c) (xmlChar_from_wchar uri)) as [p |] eqn:Hl.
  - destruct Hspec as (e & He & _ & ->).
    eexists _, _. split; [done |].
    split; [by eapply cache_ok_removed |].
    split; [apply with_table_lookup; by rewrite released_caches |].
    simpl. apply lookup_table_remove_eq. by destruct Hok as (c' & ? & ? & _); simplify_eq.
  - by exists w, c.
Qed.

(** C9: remove(uri) always succeeds on a well-formed collection; on an
    absent key it leaves the store as it was; on a present key it gives up
    the collection's reference to the entry and unlinks it: the store is
    the one after cache_entry_release on the entry, with the item gone, so
    an entry whose count was 1 is torn down and freed, and an entry with
    another count stays, with one reference less and no teardown; and a
    second remove(uri) succeeds again and changes nothing, so length()
    reads the same before and after it. *)
Theorem remove_idempotent This uri w :
  cache_ok w This →
  ∃ w1 c n,
    schema_cache_remove This uri w = Some (S_OK, w1) ∧
    schema_cache_remove This uri w1 = Some (S_OK, w1) ∧
    schema_cache_get_length This true w1 = Some ((S_OK, Some n), w1) ∧
    (schema_cache_remove This uri;; schema_cache_get_length This true) w1 =
      Some ((S_OK, Some n), w1) ∧
    caches w !! This = Some c ∧
    match xmlHashLookup (cache c) (xmlChar_from_wchar uri) with
    | None => w1 = w
    | Some p =>
        ∃ e, entries w !! p = Some e ∧
          cache_entry_release p w = Some (LONG_wrap (ref e - 1), released p e w) ∧
          w1 = with_table This (λ t, table_remove t (xmlChar_from_wchar uri))
                 (released p e w) ∧
          (ref e = 1%Z →
             entries w1 !! p = None ∧
             trace w1 = trace w ++ teardown_trace p e) ∧
          (ref e ≠ 1%Z →
             entries w1 !! p = Some (with_ref e (LONG_wrap (ref e - 1))) ∧
             LONG_wrap (ref e - 1) ≠ 0%Z ∧
             trace w1 = trace w)
    end.
Proof.
  intros Hok.
  destruct (schema_cache_remove_ok This uri w Hok) as (w1 & c1 & Hrm & Hok1 & Hc1 & Hl1).
  destruct (schema_cache_remove_spec This uri w1 Hok1) as (c1' & Hc1' & Hspec1).
  assert (c1' = c1) as -> by congruence. rewrite Hl1 in Hspec1.
  destruct (schema_cache_remove_spec This uri w Hok) as (c & Hc & Hspec).
  assert (schema_cache_get_length This true w1 =
            Some ((S_OK, Some (xmlHashSize (cache c1))), w1)) as Hlen.
  { unfold schema_cache_get_length. munfold. simpl.
    by rewrite (table_of_spec _ _ _ Hc1). }
  exists w1, c, (xmlHashSize (cache c1)). split; [done |]. split; [done |].
  split; [done |].
  split; [by rewrite (bind_Some _ _ _ _ _ Hspec1) |].
  split; [done |].
  destruct (xmlHashLookup (cache c) (xmlChar_from_wchar uri)) as [p |] eqn:Hl.
  - destruct Hspec as (e & He & Hrel & Hrm').
    destruct (cache_ok_lookup _ _ _ _ _ Hc Hok Hl) as (e' & He' & Hlong & _).
    assert (e' = e) as -> by congruence.
    assert (w1 = with_table This (λ t, table_remove t (xmlChar_from_wchar uri))
                   (released p e w)) as -> by congruence.
    exists e. split; [done |]. split; [done |]. split; [done |].
    split.
    + intros Hone. unfold released. rewrite Hone. simpl.
      split; [apply lookup_delete_eq | done].
    + intros Hne.
      assert (LONG_wrap (ref e - 1) ≠ 0%Z) as Hnz by (by rewrite LONG_wrap_pred_zero).
      unfold released. rewrite decide_False by done. simpl.
      split; [apply lookup_insert_eq | done].
  - congruence.
Qed.

(** C8: on a well-formed collection add(uri, Null) returns S_OK, whether
    or not uri is bound: the table loses the item of uri (and is left as it
    was when there is none), and a get(uri) that follows returns S_OK with
    a NULL result. *)
Theorem add_null_then_get This uri w :
  cache_ok w This →
  ∃ w1 c c1,
    schema_cache_add This uri VT_NULL w = Some (S_OK, w1) ∧
    schema_cache_get This uri true w1 = Some ((S_OK, None), w1) ∧
    caches w !! This = Some c ∧ caches w1 !! This = Some c1 ∧
    cache c1 = table_remove (cache c) (xmlChar_from_wchar uri) ∧
    xmlHashLookup (cache c1) (xmlChar_from_wchar uri) = None ∧
    (xmlHashLookup (cache c) (xmlChar_from_wchar uri) = None → w1 = w).
Proof.
  intros Hok.
  destruct (schema_cache_remove_ok This uri w Hok) as (w1 & c1 & Hrm & Hok1 & Hc1 & Hl1).
  destruct (schema_cache_remove_spec This uri w Hok) as (c & Hc & Hspec).
  exists w1, c, c1. split; [exact Hrm |].
  split.
  { unfold schema_cache_get. munfold. simpl.
    by rewrite (table_of_spec _ _ _ Hc1), Hl1. }
  split; [done |]. split; [done |].
  destruct (xmlHashLookup (cache c) (xmlChar_from_wchar uri)) as [p |] eqn:Hl.
  - destruct Hspec as (e & He & _ & Hrm').
    assert (w1 = with_table This (λ t, table_remove t (xmlChar_from_wchar uri))
                   (released p e w)) as -> by congruence.
    erewrite with_table_lookup in Hc1 by by rewrite released_caches.
    injection Hc1 as <-. done.
  - assert (w1 = w) as -> by congruence.
    assert (c1 = c) as -> by congruence.
    by rewrite table_remove_absent.
Qed.

Lemma schema_cache_remove_S_OK This uri w hr w' :
  schema_cache_remove This uri w = Some (hr, w') → hr = S_OK.
Proof.
  unfold schema_cache_remove. munfold.
  destruct (xmlHashRemoveEntry This (xmlChar_from_wchar uri) cache_free w) as [[r w1] |];
    [| done].
  by intros [= <- _].
Qed.

(** C10: add(uri, Null) and remove(uri) are the same state transformer:
    from every store they fault together or return the same code and the
    same store, and the code is S_OK. *)
Theorem add_null_is_remove This uri w :
  schema_cache_add This uri VT_NULL w = schema_cache_remove This uri w ∧
  ∀ hr w', schema_cache_remove This uri w = Some (hr, w') → hr = S_OK.
Proof.
  split; [reflexivity |]. intros hr w'. apply schema_cache_remove_S_OK.
Qed.

(** ** get *)

Lemma schema_cache_get_spec This uri w c :
  caches w !! This = Some c →
  match xmlHashLookup (cache c) (xmlChar_from_wchar uri) with
  | None => schema_cache_get This uri true w = Some ((S_OK, None), w)
  | Some p =>
      ∀ e, entries w !! p = Some e →
        schema_cache_get This uri true w =
          Some (DOMDocument_create_from_xmldoc (doc e), w)
  end.
Proof.
  intros Hc. unfold schema_cache_get. munfold. simpl.
  rewrite (table_of_spec _ _ _ Hc).
  destruct (xmlHashLookup (cache c) (xmlChar_from_wchar uri)) as [p |]; [| done].
  intros e He. by rewrite He.
Qed.

(** C6: without an output slot get returns E_POINTER; with one, an absent
    key gives S_OK and a NULL result, and a present key gives what
    DOMDocument_create_from_xmldoc makes of the entry's document.  In each
    case the store is returned as it was: the entry keeps its count and
    stays in the table. *)
Theorem get_outcomes This uri w :
  schema_cache_get This uri false w = Some ((E_POINTER, None), w) ∧
  ∀ c, caches w !! This = Some c →
    match xmlHashLookup (cache c) (xmlChar_from_wchar uri) with
    | None => schema_cache_get This uri true w = Some ((S_OK, None), w)
    | Some p =>
        ∀ e, entries w !! p = Some e →
          schema_cache_get This uri true w =
            Some (DOMDocument_create_from_xmldoc (doc e), w)
    end.
Proof.
  split; [reflexivity |]. intros c Hc. by apply schema_cache_get_spec.
Qed.

(** ** The dialect detector *)

Lemma xmlStrEqual_Some a s : xmlStrEqual a (Some s) = bool_decide (a = Some s).
Proof.
  destruct a as [x |]; simpl.
  - apply bool_decide_ext. split; congruence.
  - reflexivity.
Qed.

(** C5: the detector is a function of the root element's name and
    namespace URI alone: a root with a namespace is classified by its
    signature, (schema, XSD namespace) as XSD and (Schema, XDR namespace)
    as XDR, and nothing else is; a document without a root, or whose root
    has no namespace, is invalid; and two documents whose roots agree on
    name and namespace are classified alike whatever else they hold. *)
Theorem schema_type_by_root_signature :
  (∀ d, schema_type_from_xmlDocPtr d =
     match xmlDocGetRootElement d with
     | Some (XmlNode local_name (Some ns) _ _) =>
         dialect_of_signature local_name (href ns)
     | _ => SCHEMA_TYPE_INVALID
     end) ∧
  (∀ d,
     (schema_type_from_xmlDocPtr d = SCHEMA_TYPE_XSD ↔
        ∃ root ns, xmlDocGetRootElement d = Some root ∧ node_ns root = Some ns ∧
          node_name root = Some "schema" ∧
          href ns = Some "http://www.w3.org/2001/XMLSchema") ∧
     (schema_type_from_xmlDocPtr d = SCHEMA_TYPE_XDR ↔
        ∃ root ns, xmlDocGetRootElement d = Some root ∧ node_ns root = Some ns ∧
          node_name root = Some "Schema" ∧
          href ns = Some "urn:schemas-microsoft-com:xml-data")) ∧
  (∀ name uri pfx pfx' props props' kids kids' url url',
     schema_type_from_xmlDocPtr
       {| xmlDocGetRootElement :=
            Some (XmlNode name (Some {| href := uri; prefix := pfx |}) props kids);
          URL := url |} =
     schema_type_from_xmlDocPtr
       {| xmlDocGetRootElement :=
            Some (XmlNode name (Some {| href := uri; prefix := pfx' |}) props' kids');
          URL := url' |}).
Proof.
  split; [| split; [| reflexivity]].
  - intros [[[nm [ns |] props kids] |] url]; simpl; try reflexivity.
    unfold schema_type_from_xmlDocPtr, dialect_of_signature. simpl.
    rewrite !xmlStrEqual_Some.
    repeat case_decide; repeat case_bool_decide; simpl; try reflexivity;
      try tauto; destruct_and?; simplify_eq.
  - intros d. unfold schema_type_from_xmlDocPtr.
    destruct (xmlDocGetRootElement d) as [root |];
      [| split; (split; [done | intros (r & n & Hr & _); discriminate])].
    destruct (node_ns root) as [ns |] eqn:Hns;
      [| split; (split; [done | intros (r & n & Hr & Hn & _); congruence])].
    rewrite !xmlStrEqual_Some.
    unfold XDR_schema, XDR_nsURI, XSD_schema, XSD_nsURI.
    split; (split;
      [ repeat case_bool_decide; simpl; try done; intros _; by exists root, ns
      | intros (r & n & Hr & Hn & Hname & Hhref);
        assert (r = root) as -> by congruence;
        assert (n = ns) as -> by congruence;
        rewrite Hname, Hhref; reflexivity ]).
Qed.

(** ** Scans *)

Lemma scan_chain_app {D} (f : ptr → D → string → M D) l1 l2 data w :
  scan_chain f (l1 ++ l2) data w =
  (data' ← scan_chain f l1 data; scan_chain f l2 data') w.
Proof.
  revert data w. induction l1 as [|[n p] l1 IH]; intros data w; simpl; [done |].
  munfold. destruct (f p data n w) as [[d' w'] |]; [| done].
  apply IH.
Qed.

Lemma scan_buckets_items {D} (f : ptr → D → string → M D) t data w :
  scan_buckets f t data w = scan_chain f (xmlHashItems t) data w.
Proof.
  unfold xmlHashItems. revert data w.
  induction t as [|c t IH]; intros data w; simpl; [done |].
  rewrite scan_chain_app. munfold.
  destruct (scan_chain f c data w) as [[d' w'] |]; [| done].
  apply IH.
Qed.

Lemma scan_chain_cache_index l d w :
  scan_chain cache_index l d w = Some (index_items l d, w).
Proof.
  revert d. induction l as [|[n p] l IH]; intros d; simpl; [done |].
  unfold cache_index at 1. munfold. apply IH.
Qed.

(** ** namespaceURI *)

Lemma LONG_wrap_zero v :
  (- 2 ^ 32 < v < 2 ^ 31)%Z → LONG_wrap v = 0%Z ↔ v = 0%Z.
Proof.
  intros Hv. split; [| by intros ->].
  unfold LONG_wrap. intros H0.
  destruct (decide (- 2 ^ 31 <= v)%Z).
  - rewrite Z.mod_small in H0 by lia. lia.
  - exfalso.
    replace (v + 2 ^ 31)%Z with ((v + 2 ^ 31 + 2 ^ 32) + (-1) * 2 ^ 32)%Z in H0 by lia.
    rewrite Z.mod_add in H0 by lia.
    rewrite Z.mod_small in H0 by lia. lia.
Qed.

(** The scan counts [v] down, wrapping as a LONG does; the key is stored
    at the visit where the count is zero, which is visit number [v]. *)
Lemma index_items_spec l v o :
  (- 2 ^ 32 < v - Z.of_nat (length l))%Z → (v < 2 ^ 31)%Z →
  index_items l {| index := LONG_wrap v; out := o |} =
    {| index := LONG_wrap (v - Z.of_nat (length l));
       out := if decide (0 ≤ v < Z.of_nat (length l))%Z
              then bstr_from_xmlChar <$> l.*1 !! Z.to_nat v
              else o |}.
Proof.
  revert v o. induction l as [|[n p] l IH]; intros v o Hlo Hhi.
  - simpl. rewrite Z.sub_0_r. by rewrite decide_False by lia.
  - cbn [index_items index out]. cbn [length] in *.
    rewrite LONG_wrap_wrap_sub.
    case_decide as Hz.
    + assert (v = 0%Z) as -> by (apply LONG_wrap_zero; [lia | done]).
      rewrite IH by lia.
      rewrite decide_False by lia. rewrite decide_True by lia.
      simpl. f_equal. f_equal. lia.
    + assert (v ≠ 0%Z) as Hv by (intros ->; by apply Hz).
      rewrite IH by lia. f_equal; [f_equal; lia |].
      destruct (decide (0 ≤ v - 1 < Z.of_nat (length l))%Z) as [Hin | Hout].
      * rewrite decide_True by lia.
        replace (Z.to_nat v) with (S (Z.to_nat (v - 1))) by lia.
        done.
      * by rewrite decide_False by lia.
Qed.

(** What namespaceURI returns through an output slot, for every LONG index
    and every table whose size is an int. *)
Lemma schema_cache_get_namespaceURI_spec This index w c :
  caches w !! This = Some c → is_LONG index →
  (xmlHashSize (cache c) < 2 ^ 31)%Z →
  schema_cache_get_namespaceURI This index true w =
    Some (if decide (xmlHashSize (cache c) ≤ index)%Z then (E_FAIL, None)
          else if decide (0 ≤ index)%Z
               then (S_OK, bstr_from_xmlChar <$>
                             (xmlHashItems (cache c)).*1 !! Z.to_nat index)
               else (S_OK, None),
          w).
Proof.
  intros Hc [Hlo Hhi] Hsize. unfold schema_cache_get_namespaceURI, xmlHashScan.
  munfold. simpl. rewrite (table_of_spec _ _ _ Hc).
  unfold xmlHashSize in *.
  destruct (decide (index >= Z.of_nat (length (xmlHashItems (cache c))))%Z) as [Hge | Hlt].
  - by rewrite decide_True by lia.
  - rewrite decide_False by lia.
    rewrite (table_of_spec _ _ _ Hc).
    rewrite scan_buckets_items, scan_chain_cache_index.
    rewrite <- (LONG_wrap_id index) at 1 by done.
    rewrite index_items_spec by lia. simpl.
    destruct (decide (0 ≤ index)%Z).
    + by rewrite decide_True by lia.
    + by rewrite decide_False by lia.
Qed.

(** C1 (where the code departs from it): a negative index is below the
    only bound the code checks, no visit of the scan meets a zero count,
    and namespaceURI returns S_OK with the output slot left NULL. *)
Theorem get_namespaceURI_negative_index This index w c :
  caches w !! This = Some c → is_LONG index →
  (xmlHashSize (cache c) < 2 ^ 31)%Z → (index < 0)%Z →
  schema_cache_get_namespaceURI This index true w = Some ((S_OK, None), w).
Proof.
  intros Hc Hi Hsize Hneg.
  rewrite (schema_cache_get_namespaceURI_spec _ _ _ _ Hc Hi Hsize).
  unfold xmlHashSize in *.
  rewrite decide_False by lia. by rewrite decide_False by lia.
Qed.

(** For an index inside [0, length) namespaceURI returns S_OK and the key
    the scan visits at that position; from length on it returns E_FAIL. *)
Lemma get_namespaceURI_in_range This index w c :
  caches w !! This = Some c → is_LONG index →
  (xmlHashSize (cache c) < 2 ^ 31)%Z →
  ((0 ≤ index < xmlHashSize (cache c))%Z →
     ∃ name, (xmlHashItems (cache c)).*1 !! Z.to_nat index = Some name ∧
       schema_cache_get_namespaceURI This index true w =
         Some ((S_OK, Some (bstr_from_xmlChar name)), w)) ∧
  ((xmlHashSize (cache c) ≤ index)%Z →
     schema_cache_get_namespaceURI This index true w = Some ((E_FAIL, None), w)).
Proof.
  intros Hc Hi Hsize.
  rewrite (schema_cache_get_namespaceURI_spec _ _ _ _ Hc Hi Hsize).
  unfold xmlHashSize in *. split; intros Hr.
  - rewrite decide_False by lia. rewrite decide_True by lia.
    destruct ((xmlHashItems (cache c)).*1 !! Z.to_nat index) as [name |] eqn:Hn.
    + by exists name.
    + apply lookup_ge_None in Hn. rewrite length_fmap in Hn. lia.
  - by rewrite decide_True by lia.
Qed.

(** ** addCollection *)

Lemma alter_lookup_insert {A} (f : A → A) (m : gmap ptr A) i x :
  m !! i = Some x → alter f i m = <[i := f x]> m.
Proof.
  intros Hx. apply map_eq. intros j. rewrite lookup_alter, lookup_insert.
  case_decide; subst; by rewrite ?Hx.
Qed.

Lemma scan_chain_cons {D} (f : ptr → D → string → M D) n p l data w :
  scan_chain f ((n, p) :: l) data w =
  match f p data n w with
  | Some (data', w') => scan_chain f l data' w'
  | None => None
  end.
Proof. reflexivity. Qed.

Lemma cache_copy_spec p This name w c :
  caches w !! This = Some c →
  cache_copy p This name w =
    match xmlHashLookup (cache c) name with
    | Some _ => Some (This, w)
    | None =>
        match entries w !! p with
        | Some e =>
            Some (This, with_table This (λ t, table_add t name p)
                          (set_entries (<[p := with_ref e (LONG_wrap (ref e + 1))]>) w))
        | None => None
        end
    end.
Proof.
  intros Hc. unfold cache_copy. munfold. rewrite (table_of_spec _ _ _ Hc).
  destruct (xmlHashLookup (cache c) name) as [q |] eqn:Hl; [done |].
  destruct (entries w !! p) as [e |] eqn:He.
  - rewrite (cache_entry_add_ref_spec _ _ _ He).
    by erewrite xmlHashAddEntry_absent.
  - unfold cache_entry_add_ref. munfold. by rewrite He.
Qed.

Lemma scan_chain_cache_copy l This w c :
  caches w !! This = Some c →
  (∀ it, it ∈ l → is_Some (entries w !! it.2)) →
  scan_chain cache_copy l This w = Some (This, copied This l c w).
Proof.
  revert w c. induction l as [|[n p] l IH]; intros w c Hc Hlive.
  - simpl. munfold. unfold copied. simpl. rewrite insert_id; [by destruct w |].
    by destruct c.
  - rewrite scan_chain_cons, (cache_copy_spec _ _ _ _ _ Hc).
    assert (∀ it, it ∈ l → is_Some (entries w !! it.2)) as Hlive'.
    { intros it Hit. apply Hlive. apply elem_of_cons. by right. }
    destruct (xmlHashLookup (cache c) n) as [q |] eqn:Hl.
    + rewrite (IH w c Hc Hlive'). unfold copied. simpl. by rewrite Hl.
    + destruct (Hlive (n, p)) as [e He]; [apply elem_of_cons; by left |].
      simpl in He. rewrite He.
      rewrite (IH _ {| cache := table_add (cache c) n p; cache_ref := cache_ref c |}).
      * f_equal. f_equal. unfold copied. simpl. rewrite Hl.
        rewrite (alter_lookup_insert _ _ _ _ He).
        by rewrite insert_alter_eq.
      * by apply (with_table_lookup This (λ t, table_add t n p)).
      * intros it Hit. simpl. apply lookup_insert_is_Some'. right. by apply Hlive'.
Qed.

Lemma copy_items_length l t h : length (copy_items l t h).1 = length t.
Proof.
  revert t h. induction l as [|[n p] l IH]; intros t h; simpl; [done |].
  destruct (xmlHashLookup t n); rewrite IH; [done |].
  unfold table_add. by rewrite length_insert.
Qed.

Lemma copy_items_wf l t h : table_wf t → table_wf (copy_items l t h).1.
Proof.
  revert t h. induction l as [|[n p] l IH]; intros t h Hwf; simpl; [done |].
  destruct (xmlHashLookup t n) eqn:Hl; apply IH; [done |].
  by apply table_wf_add.
Qed.

(** A key of the receiver keeps its entry; a key the receiver lacks gets
    the first entry the scan meets under it. *)
Lemma copy_items_lookup l t h name :
  0 < length t →
  xmlHashLookup (copy_items l t h).1 name =
    match xmlHashLookup t name with
    | Some p => Some p
    | None => chain_lookup l name
    end.
Proof.
  revert t h. induction l as [|[n p] l IH]; intros t h Hlen; simpl.
  - by destruct (xmlHashLookup t name).
  - destruct (xmlHashLookup t n) as [q |] eqn:Hl.
    + rewrite IH by done. case_decide; subst; [by rewrite Hl | done].
    + rewrite IH by (unfold table_add; by rewrite length_insert).
      case_decide; subst.
      * by rewrite lookup_table_add_eq, Hl.
      * by rewrite lookup_table_add_ne.
Qed.

Lemma filter_iff_elem {A} (P1 P2 : A → Prop)
    `{!∀ x, Decision (P1 x), !∀ x, Decision (P2 x)} (l : list A) :
  (∀ x, x ∈ l → P1 x ↔ P2 x) → filter P1 l = filter P2 l.
Proof.
  induction l as [|a l IH]; intros Hiff; [done |].
  rewrite !filter_cons.
  rewrite IH by (intros x Hx; apply Hiff, elem_of_cons; by right).
  apply decide_ext, Hiff, elem_of_cons. by left.
Qed.

Lemma copy_items_entries l t h p :
  0 < length t → NoDup l.*1 →
  (copy_items l t h).2 !! p =
    cache_entry_add_refs
      (length (filter (λ it, it.2 = p ∧ xmlHashLookup t it.1 = None) l)) <$> h !! p.
Proof.
  revert t h. induction l as [|[n q] l IH]; intros t h Hlen Hnd.
  - simpl. by rewrite option_fmap_id.
  - simpl in Hnd. apply NoDup_cons in Hnd as [Hn Hnd].
    cbn [copy_items]. rewrite filter_cons. cbn [fst snd].
    destruct (xmlHashLookup t n) as [q' |] eqn:Hl.
    + rewrite IH by done. rewrite decide_False by (intros [_ ?]; done). done.
    + rewrite IH by (unfold table_add; rewrite ?length_insert; done).
      assert (filter (λ it, it.2 = p ∧ xmlHashLookup (table_add t n q) it.1 = None) l
              = filter (λ it, it.2 = p ∧ xmlHashLookup t it.1 = None) l) as ->.
      { apply filter_iff_elem. intros it Hit.
        rewrite lookup_table_add_ne; [done |].
        intros ->. apply Hn. by apply list_elem_of_fmap_2. }
      rewrite lookup_alter. case_decide as Hq.
      * subst q. rewrite decide_True by done. cbn [length].
        destruct (h !! p) as [e |]; [| done]. simpl. f_equal.
        unfold cache_entry_add_refs.
        apply (Nat.iter_swap _ _ (λ e, with_ref e (LONG_wrap (ref e + 1)))).
      * by rewrite decide_False by (intros [? _]; congruence).
Qed.

Lemma chain_lookup_items t name :
  table_wf t → chain_lookup (xmlHashItems t) name = xmlHashLookup t name.
Proof.
  intros Hwf. destruct (xmlHashLookup t name) as [p |] eqn:Hl.
  - apply chain_lookup_elem; [by apply items_NoDup_keys |].
    by apply (items_lookup t (name, p)).
  - destruct (chain_lookup (xmlHashItems t) name) as [p |] eqn:Hc; [| done].
    apply chain_lookup_Some_elem in Hc. apply (items_lookup t (name, p)) in Hc; [| done].
    simpl in Hc. congruence.
Qed.

Lemma filter_payload_unique (Q : string * ptr → Prop) `{!∀ it, Decision (Q it)}
    (l : list (string * ptr)) p :
  NoDup l.*2 → length (filter (λ it, it.2 = p ∧ Q it) l) ≤ 1.
Proof.
  induction l as [|it l IH]; intros Hnd; [simpl; lia |].
  simpl in Hnd. apply NoDup_cons in Hnd as [Hit Hnd].
  rewrite filter_cons. case_decide as Hp; [| by apply IH].
  destruct Hp as [<- _]. cbn [length].
  assert (filter (λ it', it'.2 = it.2 ∧ Q it') l = []) as ->; [| simpl; lia].
  destruct (filter (λ it', it'.2 = it.2 ∧ Q it') l) as [|it' l'] eqn:Hf; [done |].
  exfalso. assert (it' ∈ filter (λ it', it'.2 = it.2 ∧ Q it') l) as Hin.
  { rewrite Hf. apply elem_of_cons. by left. }
  apply list_elem_of_filter in Hin as [[Heq _] Hin].
  apply Hit. rewrite <- Heq. by apply list_elem_of_fmap_2.
Qed.

Lemma copies_of_shared p self other name :
  table_wf other → NoDup (xmlHashItems other).*2 →
  xmlHashLookup self name = None → xmlHashLookup other name = Some p →
  copies_of p self other = 1.
Proof.
  intros Hwf Hnd Hs Ho. unfold copies_of.
  pose proof (filter_payload_unique (λ it, xmlHashLookup self it.1 = None)
                (xmlHashItems other) p Hnd) as Hle.
  assert ((name, p) ∈ filter (λ it, it.2 = p ∧ xmlHashLookup self it.1 = None)
            (xmlHashItems other)) as Hin.
  { apply list_elem_of_filter. split; [done |]. by apply items_lookup. }
  destruct (filter _ (xmlHashItems other)) as [|it l]; [by apply elem_of_nil in Hin |].
  simpl in *. lia.
Qed.

Lemma copies_of_none p self other :
  (∀ it, it ∈ xmlHashItems other → it.2 = p → is_Some (xmlHashLookup self it.1)) →
  copies_of p self other = 0.
Proof.
  intros Hp. unfold copies_of.
  destruct (filter _ (xmlHashItems other)) as [|it l] eqn:Hf; [done |].
  assert (it ∈ filter (λ it, it.2 = p ∧ xmlHashLookup self it.1 = None)
            (xmlHashItems other)) as Hin.
  { rewrite Hf. apply elem_of_cons. by left. }
  apply list_elem_of_filter in Hin as [[Heq Hnone] Hin].
  destruct (Hp _ Hin Heq) as [q Hq]. congruence.
Qed.

(** C7: addCollection(other) returns S_OK; afterwards every key of self
    is bound as before, every key of other that self lacked is bound in
    self to other's entry, and every entry has received one
    cache_entry_add_ref per key that was copied to it: exactly one for the
    entry of a copied key when other's entries are distinct, and none for
    an entry that no copied key is bound to. *)
Theorem addCollection_shares This That w self other :
  caches w !! This = Some self → caches w !! That = Some other →
  table_wf (cache self) → table_wf (cache other) →
  (∀ it, it ∈ xmlHashItems (cache other) → is_Some (entries w !! it.2)) →
  ∃ w' self',
    schema_cache_addCollection This (Some That) w = Some (S_OK, w') ∧
    caches w' !! This = Some self' ∧
    table_wf (cache self') ∧
    (∀ name, xmlHashLookup (cache self') name =
       match xmlHashLookup (cache self) name with
       | Some p => Some p
       | None => xmlHashLookup (cache other) name
       end) ∧
    (∀ p, entries w' !! p =
       cache_entry_add_refs (copies_of p (cache self) (cache other)) <$> entries w !! p) ∧
    (NoDup (xmlHashItems (cache other)).*2 →
     ∀ name p, xmlHashLookup (cache self) name = None →
       xmlHashLookup (cache other) name = Some p →
       entries w' !! p =
         (λ e, with_ref e (LONG_wrap (ref e + 1))) <$> entries w !! p) ∧
    (∀ p, (∀ it, it ∈ xmlHashItems (cache other) → it.2 = p →
             is_Some (xmlHashLookup (cache self) it.1)) →
       entries w' !! p = entries w !! p).
Proof.
  intros Hself Hother Hwfs Hwfo Hlive.
  assert (∀ p, entries (copied This (xmlHashItems (cache other)) self w) !! p =
            cache_entry_add_refs (copies_of p (cache self) (cache other)) <$>
              entries w !! p) as Hent.
  { intros p. unfold copied. simpl.
    apply copy_items_entries; [apply Hwfs | by apply items_NoDup_keys]. }
  exists (copied This (xmlHashItems (cache other)) self w). eexists.
  split.
  { unfold schema_cache_addCollection, xmlHashScan. munfold.
    rewrite (table_of_spec _ _ _ Hother), scan_buckets_items.
    by rewrite (scan_chain_cache_copy _ _ _ _ Hself Hlive). }
  split; [unfold copied; simpl; by rewrite lookup_insert_eq |].
  simpl. split; [by apply copy_items_wf |].
  split.
  { intros name. rewrite copy_items_lookup by apply Hwfs.
    by rewrite chain_lookup_items. }
  split; [done |].
  split.
  - intros Hnd name p Hs Ho. rewrite Hent.
    by rewrite (copies_of_shared _ _ _ _ Hwfo Hnd Hs Ho).
  - intros p Hp. rewrite Hent, (copies_of_none _ _ _ Hp).
    apply option_fmap_id.
Qed.

(** ** Construction paths *)

Lemma cache_entry_from_url_spec url w :
  match (if xmlSchemaNewParserCtxt url then xmlSchemaParse_url url else None) with
  | Some content =>
      ∃ entry e w1, cache_entry_from_url url w = Some (Some entry, w1) ∧
        constructed w entry e w1 ∧ type e = SCHEMA_TYPE_XSD ∧
        docs w1 !! doc e = Some content
  | None =>
      ∃ w1, cache_entry_from_url url w = Some (None, w1) ∧ same_heaps w w1
  end.
Proof.
  unfold cache_entry_from_url, heap_alloc_entry, new_doc, new_schema, heap_free.
  munfold.
  destruct (xmlSchemaNewParserCtxt url); [destruct (xmlSchemaParse_url url) as [content |] |].
  - eexists _, {| type := SCHEMA_TYPE_XSD; schema := Some _; doc := _; ref := 0 |}, _.
    split; [reflexivity |]. simpl.
    split; [| split; [done | by rewrite lookup_insert_eq]].
    unfold constructed. simpl.
    split; [apply fresh_lookup_None |]. split; [done |]. split; [done |].
    split; [done |].
    split; [apply insert_subseteq, fresh_lookup_None |].
    split; [apply insert_subseteq, fresh_lookup_None |].
    split; [apply fresh_lookup_None |].
    split; [by rewrite lookup_insert_eq |].
    split.
    + intros _. eexists. split; [done |].
      split; [apply fresh_lookup_None | by rewrite lookup_insert_eq].
    + exists CLSID_DOMDocument40. by rewrite <- (assoc_L (++)).
  - eexists. split; [reflexivity |]. unfold same_heaps. simpl.
    split; [| done]. apply delete_id, fresh_lookup_None.
  - eexists. split; [reflexivity |]. unfold same_heaps. simpl.
    split; [| done]. apply delete_id, fresh_lookup_None.
Qed.

Lemma cache_entry_from_xsd_doc_spec d content w :
  docs w !! d = Some content →
  if xmlSchemaParse_doc content
  then ∃ entry e w1, cache_entry_from_xsd_doc d w = Some (Some entry, w1) ∧
         constructed w entry e w1 ∧ type e = SCHEMA_TYPE_XSD ∧
         docs w1 !! doc e = Some content
  else ∃ w1, cache_entry_from_xsd_doc d w = Some (None, w1) ∧ same_heaps w w1.
Proof.
  intros Hd.
  unfold cache_entry_from_xsd_doc, heap_alloc_entry, xmlCopyDoc, new_doc, new_schema,
    xmlFreeDoc, heap_free.
  munfold. rewrite Hd. simpl. rewrite lookup_insert_eq.
  destruct (xmlSchemaParse_doc content).
  - eexists _, {| type := SCHEMA_TYPE_XSD; schema := Some _; doc := _; ref := 0 |}, _.
    split; [reflexivity |]. simpl.
    split; [| split; [done | by rewrite lookup_insert_eq]].
    unfold constructed. simpl.
    split; [apply fresh_lookup_None |]. split; [done |]. split; [done |].
    split; [done |].
    split; [apply insert_subseteq, fresh_lookup_None |].
    split; [apply insert_subseteq, fresh_lookup_None |].
    split; [apply fresh_lookup_None |].
    split; [by rewrite lookup_insert_eq |].
    split.
    + intros _. eexists. split; [done |].
      split; [apply fresh_lookup_None | by rewrite lookup_insert_eq].
    + exists CLSID_DOMDocument40. by rewrite <- (assoc_L (++)).
  - eexists. split; [reflexivity |]. unfold same_heaps. simpl.
    split; [apply delete_id, fresh_lookup_None |]. split; [done |].
    split; [| done].
    rewrite delete_insert_eq. apply delete_id, fresh_lookup_None.
Qed.

Lemma cache_entry_from_xdr_doc_spec d content w :
  docs w !! d = Some content →
  ∃ entry e w1, cache_entry_from_xdr_doc d w = Some (Some entry, w1) ∧
    constructed w entry e w1 ∧ type e = SCHEMA_TYPE_XDR ∧
    docs w1 !! doc e = Some content.
Proof.
  intros Hd.
  unfold cache_entry_from_xdr_doc, heap_alloc_entry, xmlCopyDoc, new_doc.
  munfold. rewrite Hd. simpl.
  eexists _, {| type := SCHEMA_TYPE_XDR; schema := None; doc := _; ref := 0 |}, _.
  split; [reflexivity |]. simpl.
  split; [| split; [done | by rewrite lookup_insert_eq]].
  unfold constructed. simpl.
  split; [apply fresh_lookup_None |]. split; [done |]. split; [done |].
  split; [done |]. split; [done |].
  split; [apply insert_subseteq, fresh_lookup_None |].
  split; [apply fresh_lookup_None |].
  split; [by rewrite lookup_insert_eq |].
  split; [done |].
  exists CLSID_DOMDocument30. by rewrite <- (assoc_L (++)).
Qed.

Lemma cache_ok_frame w w' This :
  cache_ok w This →
  caches w' !! This = caches w !! This →
  (∀ p e, entries w !! p = Some e → entries w' !! p = Some e) →
  (∀ s, is_Some (schemas w !! s) → is_Some (schemas w' !! s)) →
  cache_ok w' This.
Proof.
  intros (c & Hc & Hwf & Hnd & Hlive & Hinj) Hc' Hent Hsch.
  exists c. split; [congruence |]. split; [done |]. split; [done |].
  split.
  - intros it Hit. destruct (Hlive _ Hit) as (e & He & Hrange & Hs).
    exists e. split; [by apply Hent |]. split; [done |].
    intros Ht. destruct (Hs Ht) as (s & ? & ?). exists s. split; [done |]. by apply Hsch.
  - intros it1 it2 e1 e2 Hit1 Hit2 He1 He2.
    destruct (Hlive _ Hit1) as (e1' & He1' & _).
    destruct (Hlive _ Hit2) as (e2' & He2' & _).
    rewrite (Hent _ _ He1') in He1. rewrite (Hent _ _ He2') in He2.
    simplify_eq. by apply Hinj.
Qed.

Lemma cache_ok_added w This c name entry e :
  cache_ok w This → caches w !! This = Some c →
  xmlHashLookup (cache c) name = None →
  entries w !! entry = Some e → is_LONG (ref e) →
  (type e = SCHEMA_TYPE_XSD → ∃ s, schema e = Some s ∧ is_Some (schemas w !! s)) →
  entry ∉ (xmlHashItems (cache c)).*2 →
  (∀ it e', it ∈ xmlHashItems (cache c) → entries w !! it.2 = Some e' →
     type e' = SCHEMA_TYPE_XSD → type e = SCHEMA_TYPE_XSD → schema e' ≠ schema e) →
  cache_ok (with_table This (λ t, table_add t name entry) w) This.
Proof.
  intros (c' & Hc' & Hwf & Hnd & Hlive & Hinj) Hc Hl He Hrange Hs Hnew Hdisj.
  assert (c' = c) as -> by congruence. clear Hc'.
  pose proof (items_table_add (cache c) name entry (proj1 Hwf)) as Hperm.
  eexists. split; [by apply with_table_lookup |]. simpl.
  split; [by apply table_wf_add |].
  split; [rewrite Hperm; simpl; by apply NoDup_cons |].
  split.
  - intros it Hit. rewrite Hperm in Hit. apply elem_of_cons in Hit as [-> | Hit].
    + by exists e.
    + by apply Hlive.
  - intros it1 it2 e1 e2 Hit1 Hit2 He1 He2 Ht1 Ht2 Hsame.
    rewrite Hperm in Hit1, Hit2.
    apply elem_of_cons in Hit1 as [-> | Hit1]; apply elem_of_cons in Hit2 as [-> | Hit2];
      simpl in *.
    + done.
    + exfalso. assert (e1 = e) as -> by congruence. by eapply Hdisj.
    + exfalso. assert (e2 = e) as -> by congruence. by eapply Hdisj.
    + by eapply Hinj.
Qed.

(** ** add *)

Lemma store_entry_spec This name entry e w w1 :
  cache_ok w This → constructed w entry e w1 →
  store_entry This name entry w1 =
    Some (S_OK, stored This name entry e (old_entry w This name) w1).
Proof.
  intros Hok (Hfresh & Hent1 & Href & Hcaches1 & Hsch1 & _).
  pose proof Hok as (c & Hc & Hwf & _).
  assert (entries w1 !! entry = Some e) as He1 by by rewrite Hent1, lookup_insert_eq.
  unfold store_entry, stored, old_entry. munfold.
  rewrite (cache_entry_add_ref_spec _ _ _ He1).
  set (w2 := set_entries (<[entry := with_ref e (LONG_wrap (ref e + 1))]>) w1).
  assert (caches w2 !! This = Some c) as Hc2 by (simpl; congruence).
  rewrite Hc. simpl.
  destruct (xmlHashLookup (cache c) name) as [p |] eqn:Hl; simpl.
  - destruct (cache_ok_lookup _ _ _ _ _ Hc Hok Hl) as (ep & Hep & _ & Hsp).
    rewrite Hep. simpl.
    assert (p ≠ entry) as Hne by congruence.
    assert (entries w2 !! p = Some ep) as Hep2.
    { simpl. by rewrite lookup_insert_ne, Hent1, lookup_insert_ne. }
    assert (type ep = SCHEMA_TYPE_XSD →
            ∃ s, schema ep = Some s ∧ is_Some (schemas w2 !! s)) as Hsp2.
    { intros Ht. destruct (Hsp Ht) as (s & Hs & [x Hx]). exists s. split; [done |].
      exists x. simpl. by eapply lookup_weaken. }
    rewrite (xmlHashRemoveEntry_present _ _ _ _ _ _ Hc2 Hl Hep2 Hsp2).
    erewrite xmlHashAddEntry_absent; [done | |].
    + apply with_table_lookup. by rewrite released_caches.
    + simpl. by apply lookup_table_remove_eq.
  - rewrite (xmlHashRemoveEntry_absent _ _ _ _ Hc2 Hl).
    by erewrite xmlHashAddEntry_absent.
Qed.

Lemma released_entry_shape p ep w q e' :
  entries w !! p = Some ep → entries (released p ep w) !! q = Some e' →
  ∃ e0, entries w !! q = Some e0 ∧ schema e' = schema e0 ∧ type e' = type e0.
Proof.
  intros Hep. destruct (decide (p = q)) as [<- | Hne].
  - unfold released. case_decide; simpl.
    + by rewrite lookup_delete_eq.
    + rewrite lookup_insert_eq. intros [= <-]. by exists ep.
  - rewrite released_entries_ne by done. intros He'. by exists e'.
Qed.

(** The store that [store_entry] leaves is well-formed again, and the
    collection holds the new entry, counted once, under [name]. *)
Lemma stored_ok This name entry e w w1 :
  cache_ok w This → constructed w entry e w1 →
  cache_ok (stored This name entry e (old_entry w This name) w1) This ∧
  ∃ c c3,
    caches w !! This = Some c ∧
    caches (stored This name entry e (old_entry w This name) w1) !! This = Some c3 ∧
    cache c3 = table_add (table_remove (cache c) name) name entry ∧
    xmlHashLookup (cache c3) name = Some entry ∧
    entries (stored This name entry e (old_entry w This name) w1) !! entry =
      Some (with_ref e 1).
Proof.
  intros Hok (Hfresh & Hent1 & Href & Hcaches1 & Hsch1 & _ & _ & _ & Hse & _).
  pose proof Hok as (c & Hc & Hwf & Hnd & Hlive & Hinj).
  assert (LONG_wrap (ref e + 1) = 1%Z) as Hone by (rewrite Href; reflexivity).
  unfold stored. rewrite Hone.
  set (w2 := set_entries (<[entry := with_ref e 1]>) w1).
  assert (∀ q e0, entries w !! q = Some e0 → entries w2 !! q = Some e0) as Hent2.
  { intros q e0 Hq. simpl. rewrite lookup_insert_ne by congruence.
    rewrite Hent1. rewrite lookup_insert_ne by congruence. done. }
  assert (cache_ok w2 This) as Hok2.
  { apply (cache_ok_frame w); [done | simpl; congruence | done |].
    intros s [x Hx]. exists x. simpl. by eapply lookup_weaken. }
  assert (caches w2 !! This = Some c) as Hc2 by (simpl; congruence).
  set (W := match old_entry w This name with
            | Some (p, ep) => with_table This (λ t, table_remove t name) (released p ep w2)
            | None => w2
            end).
  assert (cache_ok W This ∧
          caches W !! This =
            Some {| cache := table_remove (cache c) name; cache_ref := cache_ref c |} ∧
          (∀ q e', entries W !! q = Some e' →
             ∃ e0, entries w2 !! q = Some e0 ∧ schema e' = schema e0 ∧ type e' = type e0) ∧
          entries W !! entry = Some (with_ref e 1) ∧
          (∀ s, schemas w !! s = None → schemas W !! s = schemas w2 !! s))
    as (HokW & HcW & Hshape & HeW & HsW).
  { subst W. unfold old_entry. rewrite Hc. simpl.
    destruct (xmlHashLookup (cache c) name) as [p |] eqn:Hl; simpl.
    - destruct (cache_ok_lookup _ _ _ _ _ Hc Hok Hl) as (ep & Hep & _ & Hsp).
      rewrite Hep. simpl.
      assert (p ≠ entry) as Hne by congruence.
      split; [eapply cache_ok_removed; eauto |].
      split; [apply (with_table_lookup This (λ t, table_remove t name));
              by rewrite released_caches |].
      split; [intros q e'; apply released_entry_shape; by apply Hent2 |].
      split; [rewrite released_entries_ne by done; simpl; by rewrite lookup_insert_eq |].
      intros s Hs.
      change (schemas (released p ep w2) !! s = schemas w2 !! s).
      apply released_schemas. intros Ht Hs'.
      destruct (Hsp Ht) as (s' & Hs'' & [x Hx]). congruence.
    - split; [done |].
      split; [rewrite table_remove_absent by done; by destruct c |].
      split; [intros q e' Hq; by exists e' |].
      split; [simpl; by rewrite lookup_insert_eq | done]. }
  assert (xmlHashLookup (table_remove (cache c) name) name = None) as HlW
    by by apply lookup_table_remove_eq.
  split.
  - eapply (cache_ok_added W); [done | exact HcW | exact HlW | exact HeW | done | | |].
    + simpl. intros Ht. destruct (Hse Ht) as (s & Hs & Hnew & Hs1).
      exists s. split; [done |]. rewrite (HsW _ Hnew). simpl. by rewrite Hs1.
    + simpl. intros (it & -> & Hit)%list_elem_of_fmap.
      assert (it ∈ xmlHashItems (cache c)) as Hit'
        by (eapply elem_of_sublist; [exact Hit | apply items_table_remove_sublist]).
      destruct (Hlive _ Hit') as (e0 & He0 & _). congruence.
    + simpl. intros it e' Hit He' Ht' Ht Hsame.
      assert (it ∈ xmlHashItems (cache c)) as Hit'
        by (eapply elem_of_sublist; [exact Hit | apply items_table_remove_sublist]).
      destruct (Hlive _ Hit') as (e0 & He0 & _ & Hs0).
      destruct (Hshape _ _ He') as (e0' & He0' & Hsch & Hty).
      rewrite (Hent2 _ _ He0) in He0'. injection He0' as <-.
      destruct (Hs0 ltac:(congruence)) as (s0 & Hs0' & [x Hx]).
      destruct (Hse Ht) as (s & Hs & Hnew & _).
      assert (s0 = s) as -> by congruence. congruence.
  - exists c. eexists. split; [done |].
    split; [by apply (with_table_lookup This (λ t, table_add t name entry)) |].
    simpl. split; [done |].
    split; [| done].
    rewrite lookup_table_add_eq, HlW; [done |].
    unfold table_remove. rewrite length_insert. apply Hwf.
Qed.

(** add on a document node, with the calls on the node, which do nothing
    to the store, left out. *)
Lemma schema_cache_add_domnode This uri document w :
  schema_cache_add This uri (VT_DISPATCH (Dispatch_domnode document)) w =
    match document with
    | None => Some (E_INVALIDARG, w)
    | Some d =>
        (content ← deref docs d;
         entry ← match schema_type_from_xmlDocPtr content with
                 | SCHEMA_TYPE_XSD => cache_entry_from_xsd_doc d
                 | SCHEMA_TYPE_XDR => cache_entry_from_xdr_doc d
                 | SCHEMA_TYPE_INVALID => mret None
                 end;
         match entry with
         | Some entry => store_entry This (xmlChar_from_wchar uri) entry
         | None => mret E_FAIL
         end) w
    end.
Proof. by destruct document. Qed.

(** A dispatch pointer to an object that is no document node: add faults,
    on IXMLDOMNode_Release(NULL) when the object is no node, and on the
    NULL that xmlNodePtr_from_domnode returns when the node is no
    document. *)
Lemma schema_cache_add_fault This uri var w :
  ¬ domnode_ok var → schema_cache_add This uri var w = None.
Proof.
  destruct var as [| | lVal | bstrVal | [| | document] | boolVal |]; simpl;
    intros Hnot; try done; by destruct Hnot.
Qed.

Lemma domnode_ok_dec var : domnode_ok var ∨ ¬ domnode_ok var.
Proof.
  destruct var as [| | lVal | bstrVal | [| | document] | boolVal |]; simpl; auto.
Qed.

Lemma schema_cache_add_domnode_ok This uri var w hr w' :
  schema_cache_add This uri var w = Some (hr, w') → domnode_ok var.
Proof.
  intros Hrun. destruct (domnode_ok_dec var) as [Hok | Hnot]; [done |].
  by rewrite (schema_cache_add_fault This uri var w Hnot) in Hrun.
Qed.

(** A source that fails, other than the pointers add faults on: the code,
    and a store that differs from the old one in its trace only. *)
Lemma schema_cache_add_failure This uri var w hr :
  add_failure w var = Some hr → domnode_ok var →
  ∃ w', schema_cache_add This uri var w = Some (hr, w') ∧ same_heaps w w'.
Proof.
  unfold add_failure, schema_cache_add.
  destruct var as [| | lVal | bstrVal | pdispVal | boolVal |]; try done;
    try (intros [= <-] _; by exists w).
  - intros Hf _.
    pose proof (cache_entry_from_url_spec (xmlChar_from_wchar bstrVal) w) as Hspec.
    destruct (xmlSchemaNewParserCtxt (xmlChar_from_wchar bstrVal));
      [destruct (xmlSchemaParse_url (xmlChar_from_wchar bstrVal)); [done |] |];
      injection Hf as <-; destruct Hspec as (w1 & Hrun & Hsame);
      exists w1; by rewrite (bind_Some _ _ _ _ _ Hrun).
  - fold (schema_cache_add This uri (VT_DISPATCH pdispVal)).
    destruct pdispVal as [| | [d |]]; simpl xmlDocPtr_from_dispatch;
      [done | done | | intros [= <-] _; by exists w].
    intros Hf _. revert Hf. rewrite schema_cache_add_domnode.
    destruct (docs w !! d) as [content |] eqn:Hd; [| done].
    assert (deref docs d w = Some (content, w)) as Hderef
      by (unfold deref; by rewrite Hd).
    rewrite (bind_Some _ _ _ _ _ Hderef).
    destruct (schema_type_from_xmlDocPtr content) eqn:Hty.
    + intros [= <-]. by exists w.
    + done.
    + pose proof (cache_entry_from_xsd_doc_spec d content w Hd) as Hspec.
      destruct (xmlSchemaParse_doc content); [done |].
      intros [= <-]. destruct Hspec as (w1 & Hrun & Hsame).
      exists w1. by rewrite (bind_Some _ _ _ _ _ Hrun).
Qed.

(** A source that add accepts: the entry is built, and [store_entry] puts
    it in the place of what the collection held. *)
Lemma schema_cache_add_success This uri var w :
  cache_ok w This → variant_ok w var → var ≠ VT_NULL →
  add_failure w var = None →
  ∃ entry e w1,
    constructed w entry e w1 ∧
    schema_cache_add This uri var w =
      Some (S_OK, stored This (xmlChar_from_wchar uri) entry e
                    (old_entry w This (xmlChar_from_wchar uri)) w1).
Proof.
  intros Hok Hvar Hnn. unfold add_failure, schema_cache_add.
  destruct var as [| | lVal | bstrVal | pdispVal | boolVal |]; try done.
  - intros Hf.
    pose proof (cache_entry_from_url_spec (xmlChar_from_wchar bstrVal) w) as Hspec.
    destruct (xmlSchemaNewParserCtxt (xmlChar_from_wchar bstrVal)); [| done].
    destruct (xmlSchemaParse_url (xmlChar_from_wchar bstrVal)); [| done].
    destruct Hspec as (entry & e & w1 & Hrun & Hcon & _).
    exists entry, e, w1. split; [done |].
    rewrite (bind_Some _ _ _ _ _ Hrun).
    by apply store_entry_spec.
  - fold (schema_cache_add This uri (VT_DISPATCH pdispVal)).
    destruct pdispVal as [| | [d |]]; simpl xmlDocPtr_from_dispatch; [done | done | | done].
    rewrite schema_cache_add_domnode.
    destruct Hvar as [content Hd]. rewrite Hd.
    assert (deref docs d w = Some (content, w)) as Hderef
      by (unfold deref; by rewrite Hd).
    rewrite (bind_Some _ _ _ _ _ Hderef).
    destruct (schema_type_from_xmlDocPtr content) eqn:Hty; [done | |].
    + intros _.
      destruct (cache_entry_from_xdr_doc_spec d content w Hd)
        as (entry & e & w1 & Hrun & Hcon & _).
      exists entry, e, w1. split; [done |].
      rewrite (bind_Some _ _ _ _ _ Hrun).
      by apply store_entry_spec.
    + pose proof (cache_entry_from_xsd_doc_spec d content w Hd) as Hspec.
      destruct (xmlSchemaParse_doc content); [| done].
      intros _. destruct Hspec as (entry & e & w1 & Hrun & Hcon & _).
      exists entry, e, w1. split; [done |].
      rewrite (bind_Some _ _ _ _ _ Hrun).
      by apply store_entry_spec.
Qed.

Lemma store_entry_S_OK This name entry w hr w' :
  store_entry This name entry w = Some (hr, w') → hr = S_OK.
Proof.
  unfold store_entry. munfold.
  destruct (cache_entry_add_ref entry w) as [[r w1] |]; [| done].
  destruct (xmlHashRemoveEntry This name cache_free w1) as [[r' w2] |]; [| done].
  destruct (xmlHashAddEntry This name entry w2) as [[r'' w3] |]; [| done].
  by intros [= <- _].
Qed.

Lemma same_heaps_cache_ok w w' This : same_heaps w w' → cache_ok w This → cache_ok w' This.
Proof.
  intros (He & Hs & _ & Hc) Hok.
  apply (cache_ok_frame w); [done | by rewrite Hc | by rewrite He | by rewrite Hs].
Qed.

(** Unless its source is a pointer to something that is no document node,
    add does not fault on a well-formed collection, and leaves it
    well-formed. *)
Lemma schema_cache_add_ok This uri var w :
  cache_ok w This → variant_ok w var → domnode_ok var →
  ∃ hr w', schema_cache_add This uri var w = Some (hr, w') ∧ cache_ok w' This.
Proof.
  intros Hok Hvar Hnode.
  assert (var = VT_NULL ∨ var ≠ VT_NULL) as [-> | Hnn]
    by (destruct var; auto; by right).
  - destruct (schema_cache_remove_ok This uri w Hok) as (w1 & c1 & Hrm & Hok1 & _).
    by exists S_OK, w1.
  - destruct (add_failure w var) as [hr |] eqn:Hf.
    + destruct (schema_cache_add_failure This uri var w hr Hf Hnode)
        as (w' & Hrun & Hsame).
      exists hr, w'. split; [done |]. by eapply same_heaps_cache_ok.
    + destruct (schema_cache_add_success This uri var w Hok Hvar Hnn Hf)
        as (entry & e & w1 & Hcon & Hrun).
      eexists _, _. split; [exact Hrun |].
      by apply stored_ok.
Qed.

(** C4 (where the code departs from it, and what holds): a Document
    source whose handle is no IXMLDOMNode, or is a node that is no
    document, is InvalidArgument in the taxonomy, but schema_cache_add
    does not return on it: it faults, on IXMLDOMNode_Release(NULL) and on
    the NULL of xmlNodePtr_from_domnode.  Every other source that the
    taxonomy fails is answered with the taxonomy's code, which is not S_OK,
    and with a store whose heaps, the collection's table among them, are
    the ones before the call; and whenever add returns a code other than
    S_OK, it is the code the taxonomy gives the source, and the heaps are
    unchanged.  Case by case: a URL without parser context or that does not
    compile gives E_FAIL, a document node without document gives
    E_INVALIDARG, a document of no detected dialect, or an XSD document
    that does not compile, gives E_FAIL, and a source that is neither Null,
    Url nor Document gives E_INVALIDARG. *)
Theorem add_failure_taxonomy This uri var w :
  (∀ pdispVal, pdispVal = Dispatch_object ∨ pdispVal = Dispatch_node →
     add_failure w (VT_DISPATCH pdispVal) = Some E_INVALIDARG ∧
     schema_cache_add This uri (VT_DISPATCH pdispVal) w = None) ∧
  (∀ hr, add_failure w var = Some hr → domnode_ok var →
     hr ≠ S_OK ∧
     ∃ w', schema_cache_add This uri var w = Some (hr, w') ∧ same_heaps w w') ∧
  (∀ hr w', schema_cache_add This uri var w = Some (hr, w') → hr ≠ S_OK →
     add_failure w var = Some hr ∧ same_heaps w w') ∧
  (∀ bstrVal,
     xmlSchemaNewParserCtxt (xmlChar_from_wchar bstrVal) = false ∨
     xmlSchemaParse_url (xmlChar_from_wchar bstrVal) = None →
     ∃ w', schema_cache_add This uri (VT_BSTR bstrVal) w = Some (E_FAIL, w') ∧
           same_heaps w w') ∧
  schema_cache_add This uri (VT_DISPATCH (Dispatch_domnode None)) w =
    Some (E_INVALIDARG, w) ∧
  (∀ d content,
     docs w !! d = Some content →
     schema_type_from_xmlDocPtr content = SCHEMA_TYPE_INVALID ∨
     (schema_type_from_xmlDocPtr content = SCHEMA_TYPE_XSD ∧
      xmlSchemaParse_doc content = false) →
     ∃ w', schema_cache_add This uri (VT_DISPATCH (Dispatch_domnode (Some d))) w =
             Some (E_FAIL, w') ∧
           same_heaps w w') ∧
  (match var with
   | VT_NULL | VT_BSTR _ | VT_DISPATCH _ => True
   | _ => schema_cache_add This uri var w = Some (E_INVALIDARG, w)
   end).
Proof.
  split; [| split; [| split; [| split; [| split; [| split]]]]].
  - by intros pdispVal [-> | ->].
  - intros hr Hf Hnode. split; [| by apply schema_cache_add_failure].
    unfold add_failure in Hf. intros ->.
    repeat (case_match; simplify_eq).
  - intros hr w' Hrun Hne.
    pose proof (schema_cache_add_domnode_ok _ _ _ _ _ _ Hrun) as Hnode.
    destruct (add_failure w var) as [hr0 |] eqn:Hf.
    + destruct (schema_cache_add_failure This uri var w hr0 Hf Hnode)
        as (w0 & Hrun0 & Hsame).
      by simplify_eq.
    + exfalso. apply Hne. revert Hrun. clear Hne.
      unfold add_failure in Hf.
      destruct var as [| | lVal | bstrVal | pdispVal | boolVal |]; try done.
      * apply schema_cache_remove_S_OK.
      * unfold schema_cache_add.
        pose proof (cache_entry_from_url_spec (xmlChar_from_wchar bstrVal) w) as Hspec.
        destruct (xmlSchemaNewParserCtxt (xmlChar_from_wchar bstrVal)); [| done].
        destruct (xmlSchemaParse_url (xmlChar_from_wchar bstrVal)); [| done].
        destruct Hspec as (entry & e & w1 & Hrun & _).
        rewrite (bind_Some _ _ _ _ _ Hrun). apply store_entry_S_OK.
      * destruct pdispVal as [| | [d |]]; [done | done | | done].
        rewrite schema_cache_add_domnode. simpl in Hf.
        destruct (docs w !! d) as [content |] eqn:Hd.
        -- assert (deref docs d w = Some (content, w)) as Hderef
             by (unfold deref; by rewrite Hd).
           rewrite (bind_Some _ _ _ _ _ Hderef).
           destruct (schema_type_from_xmlDocPtr content) eqn:Hty; [done | |].
           ++ destruct (cache_entry_from_xdr_doc_spec d content w Hd)
                as (entry & e & w1 & Hrun & _).
              rewrite (bind_Some _ _ _ _ _ Hrun). apply store_entry_S_OK.
           ++ pose proof (cache_entry_from_xsd_doc_spec d content w Hd) as Hspec.
              destruct (xmlSchemaParse_doc content); [| done].
              destruct Hspec as (entry & e & w1 & Hrun & _).
              rewrite (bind_Some _ _ _ _ _ Hrun). apply store_entry_S_OK.
        -- munfold. by rewrite Hd.
  - intros bstrVal Hfail. apply schema_cache_add_failure; [| done]. unfold add_failure.
    destruct Hfail as [-> | Hp]; [done |]. rewrite Hp. by case_match.
  - done.
  - intros d content Hc Hfail. apply schema_cache_add_failure; [| done].
    unfold add_failure. simpl. rewrite Hc.
    destruct Hfail as [-> | [-> ->]]; done.
  - by destruct var.
Qed.

(** ** One entry per key *)

Lemma filter_key_unique (l : list (string * ptr)) name :
  NoDup l.*1 → length (filter (λ it, it.1 = name) l) ≤ 1.
Proof.
  induction l as [|it l IH]; intros Hnd; [simpl; lia |].
  simpl in Hnd. apply NoDup_cons in Hnd as [Hit Hnd].
  rewrite filter_cons. case_decide as Hk; [| by apply IH].
  cbn [length].
  assert (filter (λ it', it'.1 = name) l = []) as ->; [| simpl; lia].
  destruct (filter (λ it', it'.1 = name) l) as [|it' l'] eqn:Hf; [done |].
  exfalso. assert (it' ∈ filter (λ it', it'.1 = name) l) as Hin.
  { rewrite Hf. apply elem_of_cons. by left. }
  apply list_elem_of_filter in Hin as [Heq Hin].
  apply Hit. rewrite Hk, <- Heq. by apply list_elem_of_fmap_2.
Qed.

Lemma entries_at_le t name : table_wf t → length (entries_at t name) ≤ 1.
Proof.
  intros Hwf. unfold entries_at. rewrite length_fmap.
  by apply filter_key_unique, items_NoDup_keys.
Qed.

Lemma entries_at_lookup t name p :
  table_wf t → xmlHashLookup t name = Some p → entries_at t name = [p].
Proof.
  intros Hwf Hl. pose proof (entries_at_le t name Hwf) as Hle.
  unfold entries_at in *.
  assert ((name, p) ∈ filter (λ it, it.1 = name) (xmlHashItems t)) as Hin.
  { apply list_elem_of_filter. split; [done |]. by apply items_lookup. }
  destruct (filter (λ it, it.1 = name) (xmlHashItems t)) as [|it [|it' l]].
  - by apply elem_of_nil in Hin.
  - apply list_elem_of_singleton in Hin as <-. done.
  - simpl in Hle. lia.
Qed.

(** A successful add of a source stores a new entry, counted once. *)
Lemma schema_cache_add_stores This uri var w w' :
  cache_ok w This → variant_ok w var → var ≠ VT_NULL →
  schema_cache_add This uri var w = Some (S_OK, w') →
  ∃ entry e w1,
    constructed w entry e w1 ∧
    w' = stored This (xmlChar_from_wchar uri) entry e
           (old_entry w This (xmlChar_from_wchar uri)) w1.
Proof.
  intros Hok Hvar Hnn Hrun.
  pose proof (schema_cache_add_domnode_ok _ _ _ _ _ _ Hrun) as Hnode.
  destruct (add_failure w var) as [hr |] eqn:Hf.
  - destruct (schema_cache_add_failure This uri var w hr Hf Hnode) as (w0 & Hrun0 & _).
    exfalso. assert (hr = S_OK) as -> by congruence.
    unfold add_failure in Hf. repeat (case_match; simplify_eq).
  - destruct (schema_cache_add_success This uri var w Hok Hvar Hnn Hf)
      as (entry & e & w1 & Hcon & Hrun').
    exists entry, e, w1. split; [done | congruence].
Qed.

Lemma old_entry_Some w This name c p ep :
  caches w !! This = Some c → xmlHashLookup (cache c) name = Some p →
  entries w !! p = Some ep → old_entry w This name = Some (p, ep).
Proof.
  intros Hc Hl Hep. unfold old_entry. rewrite Hc. simpl. rewrite Hl. simpl.
  by rewrite Hep.
Qed.

(** C2: after any call of add on a well-formed collection, whatever it
    returns, the collection is well-formed and holds at most one entry
    under each key; and the call does return unless its source is a
    pointer to something that is no document node.  When add(uri, A) has
    stored an entry, a successful add(uri, B) counts B's new entry once,
    then releases A's entry, whose count of one drops to zero so that it is
    torn down, unlinks it, and only then links B's entry: afterwards B's
    entry is the only one under uri and get(uri) is made from B's
    document. *)
Theorem add_one_entry_per_key This uri var w :
  cache_ok w This → variant_ok w var →
  (domnode_ok var → ∃ hr w', schema_cache_add This uri var w = Some (hr, w')) ∧
  ∀ hr w', schema_cache_add This uri var w = Some (hr, w') →
    ∃ c',
      cache_ok w' This ∧ caches w' !! This = Some c' ∧
      (∀ name, length (entries_at (cache c') name) ≤ 1) ∧
      (hr = S_OK → var ≠ VT_NULL →
       ∀ B wB, B ≠ VT_NULL → variant_ok w' B →
         schema_cache_add This uri B w' = Some (S_OK, wB) →
         ∃ a ea b eb w1 cB,
           old_entry w' This (xmlChar_from_wchar uri) = Some (a, ea) ∧
           ref ea = 1%Z ∧
           constructed w' b eb w1 ∧ a ≠ b ∧
           wB = stored This (xmlChar_from_wchar uri) b eb (Some (a, ea)) w1 ∧
           entries wB !! a = None ∧
           caches wB !! This = Some cB ∧
           entries_at (cache cB) (xmlChar_from_wchar uri) = [b] ∧
           entries wB !! b = Some (with_ref eb 1) ∧
           schema_cache_get This uri true wB =
             Some (DOMDocument_create_from_xmldoc (doc eb), wB)).
Proof.
  intros Hok Hvar. split.
  { intros Hnode.
    destruct (schema_cache_add_ok This uri var w Hok Hvar Hnode) as (hr & w' & Hrun & _).
    by exists hr, w'. }
  intros hr w' Hrun.
  pose proof (schema_cache_add_domnode_ok _ _ _ _ _ _ Hrun) as Hnode.
  destruct (schema_cache_add_ok This uri var w Hok Hvar Hnode) as (hr0 & w0 & Hrun0 & Hok').
  assert (hr0 = hr ∧ w0 = w') as [-> ->] by (split; congruence).
  pose proof Hok' as (c' & Hc' & Hwf' & _).
  exists c'. split; [done |]. split; [done |].
  split; [intros name; by apply entries_at_le |].
  intros -> Hnn B wB HnnB HvarB HrunB.
  destruct (schema_cache_add_stores _ _ _ _ _ Hok Hvar Hnn Hrun)
    as (a & ea & w1a & Hcona & ->).
  destruct (stored_ok This (xmlChar_from_wchar uri) a ea w w1a Hok Hcona)
    as (_ & c & c3 & Hc & Hc3 & Htab & Hl3 & Hea).
  destruct (schema_cache_add_stores _ _ _ _ _ Hok' HvarB HnnB HrunB)
    as (b & eb & w1 & Hconb & ->).
  assert (old_entry
            (stored This (xmlChar_from_wchar uri) a ea
               (old_entry w This (xmlChar_from_wchar uri)) w1a)
            This (xmlChar_from_wchar uri) = Some (a, with_ref ea 1)) as Hold.
  { by eapply old_entry_Some. }
  destruct (stored_ok This (xmlChar_from_wchar uri) b eb _ w1 Hok' Hconb)
    as (HokB & cw & cB & _ & HcB & _ & HlB & HebB).
  rewrite Hold in *.
  exists a, (with_ref ea 1), b, eb, w1, cB.
  split; [done |]. split; [done |]. split; [done |].
  split; [destruct Hconb as (Hfresh & _); congruence |].
  split; [done |].
  split.
  { unfold stored, released. simpl. apply lookup_delete_eq. }
  split; [done |].
  split; [apply entries_at_lookup; [by destruct HokB as (? & ? & ? & _); simplify_eq | done] |].
  split; [done |].
  pose proof (schema_cache_get_spec This uri _ cB HcB) as Hget.
  rewrite HlB in Hget. by rewrite (Hget _ HebB).
Qed.

(** ** The life of an entry *)

Lemma constructor_result w entry w1 :
  (∃ url, cache_entry_from_url url w = Some (Some entry, w1)) ∨
  (∃ d, cache_entry_from_xsd_doc d w = Some (Some entry, w1)) ∨
  (∃ d, cache_entry_from_xdr_doc d w = Some (Some entry, w1)) →
  ∃ e, constructed w entry e w1.
Proof.
  intros [[url Hrun] | [[d Hrun] | [d Hrun]]].
  - pose proof (cache_entry_from_url_spec url w) as Hspec.
    destruct (if xmlSchemaNewParserCtxt url then xmlSchemaParse_url url else None).
    + destruct Hspec as (entry' & e & w1' & Hrun' & Hcon & _).
      exists e. by simplify_eq.
    + destruct Hspec as (w1' & Hrun' & _). congruence.
  - destruct (docs w !! d) as [content |] eqn:Hd.
    + pose proof (cache_entry_from_xsd_doc_spec d content w Hd) as Hspec.
      destruct (xmlSchemaParse_doc content).
      * destruct Hspec as (entry' & e & w1' & Hrun' & Hcon & _).
        exists e. by simplify_eq.
      * destruct Hspec as (w1' & Hrun' & _). congruence.
    + exfalso. revert Hrun. unfold cache_entry_from_xsd_doc, heap_alloc_entry, xmlCopyDoc.
      munfold. by rewrite Hd.
  - destruct (docs w !! d) as [content |] eqn:Hd.
    + destruct (cache_entry_from_xdr_doc_spec d content w Hd)
        as (entry' & e & w1' & Hrun' & Hcon & _).
      exists e. by simplify_eq.
    + exfalso. revert Hrun. unfold cache_entry_from_xdr_doc, heap_alloc_entry, xmlCopyDoc.
      munfold. by rewrite Hd.
Qed.

Lemma released_last p e w :
  ref e = 1%Z →
  entries (released p e w) !! p = None ∧
  trace (released p e w) = trace w ++ teardown_trace p e ∧
  cache_entry_release p (released p e w) = None.
Proof.
  intros Href. unfold released. rewrite Href. simpl.
  split; [apply lookup_delete_eq |]. split; [done |].
  unfold cache_entry_release. munfold. simpl. by rewrite lookup_delete_eq.
Qed.

Lemma released_shared p e w :
  is_LONG (ref e) → ref e ≠ 1%Z →
  LONG_wrap (ref e - 1) ≠ 0%Z ∧
  released p e w = set_entries (<[p := with_ref e (LONG_wrap (ref e - 1))]>) w.
Proof.
  intros Hrange Hne.
  assert (LONG_wrap (ref e - 1) ≠ 0%Z) as Hnz
    by (intros Hz; by apply LONG_wrap_pred_zero in Hz).
  split; [done |]. unfold released. by rewrite decide_False.
Qed.

(** C3: the three construction paths deliver the entry at a fresh
    address with count 0; a successful add of a source has given it
    exactly one cache_entry_add_ref when it is stored, so the stored entry
    counts 1; a release that brings the count to 0 tears the entry down
    once, in this order: xmldoc_release on the document, then, for an XSD
    entry, xmlSchemaFree on the schema with its document pointer already
    cleared, then heap_free on the entry, after which the entry is gone
    (a further release is a use after free); and a release that leaves
    the count above 0 only stores the new count. *)
Theorem entry_lifecycle :
  (∀ w entry w1,
     (∃ url, cache_entry_from_url url w = Some (Some entry, w1)) ∨
     (∃ d, cache_entry_from_xsd_doc d w = Some (Some entry, w1)) ∨
     (∃ d, cache_entry_from_xdr_doc d w = Some (Some entry, w1)) →
     entries w !! entry = None ∧
     ∃ e, entries w1 !! entry = Some e ∧ ref e = 0%Z) ∧
  (∀ This uri var w w',
     cache_ok w This → variant_ok w var → var ≠ VT_NULL →
     schema_cache_add This uri var w = Some (S_OK, w') →
     ∃ c' entry e,
       caches w' !! This = Some c' ∧
       xmlHashLookup (cache c') (xmlChar_from_wchar uri) = Some entry ∧
       entries w !! entry = None ∧
       entries w' !! entry = Some e ∧ ref e = 1%Z) ∧
  (∀ p e w,
     entries w !! p = Some e → is_LONG (ref e) →
     (type e = SCHEMA_TYPE_XSD → ∃ s, schema e = Some s ∧ is_Some (schemas w !! s)) →
     cache_entry_release p w = Some (LONG_wrap (ref e - 1), released p e w) ∧
     (ref e = 1%Z →
        LONG_wrap (ref e - 1) = 0%Z ∧
        entries (released p e w) !! p = None ∧
        cache_entry_release p (released p e w) = None ∧
        (∀ s, type e = SCHEMA_TYPE_XSD → schema e = Some s →
           trace (released p e w) =
             trace w ++ [Call_xmldoc_release (doc e); Call_xmlSchemaFree s None;
                         Call_heap_free p] ∧
           schemas (released p e w) !! s = None) ∧
        (type e ≠ SCHEMA_TYPE_XSD →
           trace (released p e w) =
             trace w ++ [Call_xmldoc_release (doc e); Call_heap_free p] ∧
           schemas (released p e w) = schemas w)) ∧
     (ref e ≠ 1%Z →
        LONG_wrap (ref e - 1) ≠ 0%Z ∧
        released p e w = set_entries (<[p := with_ref e (LONG_wrap (ref e - 1))]>) w)).
Proof.
  split; [| split].
  - intros w entry w1 Hrun.
    destruct (constructor_result w entry w1 Hrun) as (e & Hfresh & Hent & Href & _).
    split; [done |]. exists e. split; [| done]. by rewrite Hent, lookup_insert_eq.
  - intros This uri var w w' Hok Hvar Hnn Hrun.
    destruct (schema_cache_add_stores _ _ _ _ _ Hok Hvar Hnn Hrun)
      as (entry & e & w1 & Hcon & ->).
    destruct (stored_ok This (xmlChar_from_wchar uri) entry e w w1 Hok Hcon)
      as (_ & c & c3 & Hc & Hc3 & _ & Hl3 & He).
    exists c3, entry, (with_ref e 1). split; [done |]. split; [done |].
    split; [by destruct Hcon | done].
  - intros p e w He Hrange Hs.
    split; [by apply cache_entry_release_spec |].
    split.
    + intros Href. destruct (released_last p e w Href) as (Hgone & Htrace & Hagain).
      split; [by rewrite Href |]. split; [done |]. split; [done |].
      split.
      * intros s Ht Hsch. rewrite Htrace. unfold teardown_trace. rewrite Ht, Hsch.
        split; [done |]. unfold released. rewrite Href, Ht, Hsch. simpl.
        apply lookup_delete_eq.
      * intros Ht. rewrite Htrace. unfold teardown_trace, released. rewrite Href. simpl.
        by destruct (type e).
    + by apply released_shared.
Qed.

Lemma schema_cache_add_preserves This uri var w hr w' :
  cache_ok w This → variant_ok w var →
  schema_cache_add This uri var w = Some (hr, w') → cache_ok w' This.
Proof.
  intros Hok Hvar Hrun.
  pose proof (schema_cache_add_domnode_ok _ _ _ _ _ _ Hrun) as Hnode.
  destruct (schema_cache_add_ok This uri var w Hok Hvar Hnode)
    as (hr0 & w0 & Hrun0 & Hok0).
  congruence.
Qed.

Lemma cache_ok_table_wf w This c :
  cache_ok w This → caches w !! This = Some c → table_wf (cache c).
Proof. intros (c' & Hc' & Hwf & _) Hc. congruence. Qed.

Lemma cache_ok_live w This c it :
  cache_ok w This → caches w !! This = Some c →
  it ∈ xmlHashItems (cache c) → is_Some (entries w !! it.2).
Proof.
  intros (c' & Hc' & _ & _ & Hlive & _) Hc Hit.
  assert (c' = c) as -> by congruence.
  destruct (Hlive _ Hit) as (e & He & _). by exists e.
Qed.

End Properties.

(** * The model at work *)

Lemma demo_world_ok :
  @cache_ok demo_ext demo_world 1%positive ∧ @cache_ok demo_ext demo_world 2%positive.
Proof.
  split; eapply (@cache_ok_create demo_ext _ _ _ 31); try reflexivity; lia.
Qed.

Lemma demo_world_a_ok :
  @cache_ok demo_ext demo_world_a 1%positive ∧ @cache_ok demo_ext demo_world_a 2%positive.
Proof.
  split.
  - eapply (@schema_cache_add_preserves demo_ext 1%positive "urn:a"
              (@VT_BSTR demo_ext "file:///a.xsd") demo_world S_OK);
      [apply demo_world_ok | exact I | vm_compute; reflexivity].
  - eapply (@cache_ok_create demo_ext _ _ _ 31);
      [vm_compute; reflexivity | reflexivity | lia].
Qed.

Lemma demo_world_ab_ok :
  @cache_ok demo_ext demo_world_ab 1%positive ∧ @cache_ok demo_ext demo_world_ab 2%positive.
Proof.
  split.
  - eapply (@schema_cache_add_preserves demo_ext 1%positive "urn:bb"
              (@VT_DISPATCH demo_ext (Dispatch_domnode (Some 2%positive))) demo_world_a S_OK);
      [apply demo_world_a_ok | vm_compute; eauto | vm_compute; reflexivity].
  - eapply (@cache_ok_create demo_ext _ _ _ 31);
      [vm_compute; reflexivity | reflexivity | lia].
Qed.

(** namespaceURI(-1) on the collection that holds urn:a and urn:bb. *)
Lemma get_namespaceURI_negative_index_witness :
  caches demo_world_ab !! 1%positive = Some (demo_cache demo_world_ab 1%positive) ∧
  is_LONG (-1) ∧
  (xmlHashSize (cache (demo_cache demo_world_ab 1%positive)) < 2 ^ 31)%Z ∧
  (-1 < 0)%Z ∧
  @schema_cache_get_namespaceURI demo_ext 1%positive (-1) true demo_world_ab =
    Some ((S_OK, None), demo_world_ab).
Proof.
  assert (caches demo_world_ab !! 1%positive = Some (demo_cache demo_world_ab 1%positive))
    as H1 by (vm_compute; reflexivity).
  assert (is_LONG (-1)) as H2 by (unfold is_LONG; lia).
  assert (xmlHashSize (cache (demo_cache demo_world_ab 1%positive)) < 2 ^ 31)%Z
    as H3 by (vm_compute; reflexivity).
  assert (-1 < 0)%Z as H4 by lia.
  split; [exact H1 |]. split; [exact H2 |]. split; [exact H3 |]. split; [exact H4 |].
  exact (@get_namespaceURI_negative_index demo_ext 1%positive (-1) demo_world_ab
           (demo_cache demo_world_ab 1%positive) H1 H2 H3 H4).
Defined.

(** remove("urn:a"), twice, on the collection that holds urn:a and urn:bb. *)
Lemma remove_idempotent_witness :
  @cache_ok demo_ext demo_world_ab 1%positive ∧
  ∃ w1 c n,
    @schema_cache_remove demo_ext 1%positive "urn:a" demo_world_ab = Some (S_OK, w1) ∧
    @schema_cache_remove demo_ext 1%positive "urn:a" w1 = Some (S_OK, w1) ∧
    schema_cache_get_length 1%positive true w1 = Some ((S_OK, Some n), w1) ∧
    (@schema_cache_remove demo_ext 1%positive "urn:a";;
     schema_cache_get_length 1%positive true) w1 = Some ((S_OK, Some n), w1) ∧
    caches demo_world_ab !! 1%positive = Some c ∧
    match @xmlHashLookup demo_ext (cache c) "urn:a" with
    | None => w1 = demo_world_ab
    | Some p =>
        ∃ e, entries demo_world_ab !! p = Some e ∧
          cache_entry_release p demo_world_ab =
            Some (LONG_wrap (ref e - 1), released p e demo_world_ab) ∧
          w1 = with_table 1%positive (λ t, @table_remove demo_ext t "urn:a")
                 (released p e demo_world_ab) ∧
          (ref e = 1%Z →
             entries w1 !! p = None ∧
             trace w1 = trace demo_world_ab ++ teardown_trace p e) ∧
          (ref e ≠ 1%Z →
             entries w1 !! p = Some (with_ref e (LONG_wrap (ref e - 1))) ∧
             LONG_wrap (ref e - 1) ≠ 0%Z ∧
             trace w1 = trace demo_world_ab)
    end.
Proof.
  split; [apply demo_world_ab_ok |].
  exact (@remove_idempotent demo_ext 1%positive "urn:a" demo_world_ab
           (proj1 demo_world_ab_ok)).
Defined.

(** add("urn:a", Null), then get("urn:a"), on the same collection. *)
Lemma add_null_then_get_witness :
  @cache_ok demo_ext demo_world_ab 1%positive ∧
  ∃ w1 c c1,
    @schema_cache_add demo_ext 1%positive "urn:a" (@VT_NULL demo_ext) demo_world_ab =
      Some (S_OK, w1) ∧
    @schema_cache_get demo_ext 1%positive "urn:a" true w1 = Some ((S_OK, None), w1) ∧
    caches demo_world_ab !! 1%positive = Some c ∧ caches w1 !! 1%positive = Some c1 ∧
    cache c1 = @table_remove demo_ext (cache c) "urn:a" ∧
    @xmlHashLookup demo_ext (cache c1) "urn:a" = None ∧
    (@xmlHashLookup demo_ext (cache c) "urn:a" = None → w1 = demo_world_ab).
Proof.
  split; [apply demo_world_ab_ok |].
  exact (@add_null_then_get demo_ext 1%positive "urn:a" demo_world_ab
           (proj1 demo_world_ab_ok)).
Defined.

(** add("urn:a", Url("file:///a.xsd")) on the empty collection 1. *)
Lemma add_one_entry_per_key_witness :
  @cache_ok demo_ext demo_world 1%positive ∧
  @variant_ok demo_ext demo_world (@VT_BSTR demo_ext "file:///a.xsd") ∧
  (@domnode_ok demo_ext (@VT_BSTR demo_ext "file:///a.xsd") →
   ∃ hr w',
     @schema_cache_add demo_ext 1%positive "urn:a" (@VT_BSTR demo_ext "file:///a.xsd")
       demo_world = Some (hr, w')) ∧
  ∀ hr w',
    @schema_cache_add demo_ext 1%positive "urn:a" (@VT_BSTR demo_ext "file:///a.xsd")
      demo_world = Some (hr, w') →
    ∃ c',
      @cache_ok demo_ext w' 1%positive ∧ caches w' !! 1%positive = Some c' ∧
      (∀ name, length (entries_at (cache c') name) ≤ 1) ∧
      (hr = S_OK → @VT_BSTR demo_ext "file:///a.xsd" ≠ VT_NULL →
       ∀ B wB, B ≠ VT_NULL → @variant_ok demo_ext w' B →
         @schema_cache_add demo_ext 1%positive "urn:a" B w' = Some (S_OK, wB) →
         ∃ a ea b eb w1 cB,
           @old_entry demo_ext w' 1%positive "urn:a" = Some (a, ea) ∧
           ref ea = 1%Z ∧
           constructed w' b eb w1 ∧ a ≠ b ∧
           wB = @stored demo_ext 1%positive "urn:a" b eb (Some (a, ea)) w1 ∧
           entries wB !! a = None ∧
           caches wB !! 1%positive = Some cB ∧
           entries_at (cache cB) "urn:a" = [b] ∧
           entries wB !! b = Some (with_ref eb 1) ∧
           @schema_cache_get demo_ext 1%positive "urn:a" true wB =
             Some (@DOMDocument_create_from_xmldoc demo_ext (doc eb), wB)).
Proof.
  split; [apply demo_world_ok |]. split; [exact I |].
  exact (@add_one_entry_per_key demo_ext 1%positive "urn:a"
           (@VT_BSTR demo_ext "file:///a.xsd") demo_world (proj1 demo_world_ok) I).
Defined.

(** addCollection of collection 1, which holds urn:a and urn:bb, into the
    empty collection 2. *)
Lemma addCollection_shares_witness :
  caches demo_world_ab !! 2%positive = Some (demo_cache demo_world_ab 2%positive) ∧
  caches demo_world_ab !! 1%positive = Some (demo_cache demo_world_ab 1%positive) ∧
  @table_wf demo_ext (cache (demo_cache demo_world_ab 2%positive)) ∧
  @table_wf demo_ext (cache (demo_cache demo_world_ab 1%positive)) ∧
  (∀ it, it ∈ xmlHashItems (cache (demo_cache demo_world_ab 1%positive)) →
     is_Some (entries demo_world_ab !! it.2)) ∧
  ∃ w' self',
    @schema_cache_addCollection demo_ext 2%positive (Some 1%positive) demo_world_ab =
      Some (S_OK, w') ∧
    caches w' !! 2%positive = Some self' ∧
    @table_wf demo_ext (cache self') ∧
    (∀ name, @xmlHashLookup demo_ext (cache self') name =
       match @xmlHashLookup demo_ext (cache (demo_cache demo_world_ab 2%positive)) name with
       | Some p => Some p
       | None => @xmlHashLookup demo_ext (cache (demo_cache demo_world_ab 1%positive)) name
       end) ∧
    (∀ p, entries w' !! p =
       cache_entry_add_refs
         (@copies_of demo_ext p (cache (demo_cache demo_world_ab 2%positive))
            (cache (demo_cache demo_world_ab 1%positive))) <$>
         entries demo_world_ab !! p) ∧
    (NoDup (xmlHashItems (cache (demo_cache demo_world_ab 1%positive))).*2 →
     ∀ name p,
       @xmlHashLookup demo_ext (cache (demo_cache demo_world_ab 2%positive)) name = None →
       @xmlHashLookup demo_ext (cache (demo_cache demo_world_ab 1%positive)) name = Some p →
       entries w' !! p =
         (λ e, with_ref e (LONG_wrap (ref e + 1))) <$> entries demo_world_ab !! p) ∧
    (∀ p, (∀ it, it ∈ xmlHashItems (cache (demo_cache demo_world_ab 1%positive)) →
             it.2 = p →
             is_Some (@xmlHashLookup demo_ext
                        (cache (demo_cache demo_world_ab 2%positive)) it.1)) →
       entries w' !! p = entries demo_world_ab !! p).
Proof.
  assert (caches demo_world_ab !! 2%positive = Some (demo_cache demo_world_ab 2%positive))
    as H2 by (vm_compute; reflexivity).
  assert (caches demo_world_ab !! 1%positive = Some (demo_cache demo_world_ab 1%positive))
    as H1 by (vm_compute; reflexivity).
  pose proof (@cache_ok_table_wf demo_ext _ _ _ (proj2 demo_world_ab_ok) H2) as Hwf2.
  pose proof (@cache_ok_table_wf demo_ext _ _ _ (proj1 demo_world_ab_ok) H1) as Hwf1.
  pose proof (λ it, @cache_ok_live demo_ext _ _ _ it (proj1 demo_world_ab_ok) H1) as Hlive.
  split; [exact H2 |]. split; [exact H1 |]. split; [exact Hwf2 |]. split; [exact Hwf1 |].
  split; [exact Hlive |].
  exact (@addCollection_shares demo_ext 2%positive 1%positive demo_world_ab
           (demo_cache demo_world_ab 2%positive) (demo_cache demo_world_ab 1%positive)
           H2 H1 Hwf2 Hwf1 Hlive).
Defined.

(** namespaceURI(1) on the collection that holds urn:a and urn:bb. *)
Lemma get_namespaceURI_in_range_witness :
  caches demo_world_ab !! 1%positive = Some (demo_cache demo_world_ab 1%positive) ∧
  is_LONG 1 ∧
  (xmlHashSize (cache (demo_cache demo_world_ab 1%positive)) < 2 ^ 31)%Z ∧
  (0 ≤ 1 < xmlHashSize (cache (demo_cache demo_world_ab 1%positive)))%Z ∧
  ∃ name,
    (xmlHashItems (cache (demo_cache demo_world_ab 1%positive))).*1 !! Z.to_nat 1 = Some name ∧
    @schema_cache_get_namespaceURI demo_ext 1%positive 1 true demo_world_ab =
      Some ((S_OK, Some (@bstr_from_xmlChar demo_ext name)), demo_world_ab).
Proof.
  assert (caches demo_world_ab !! 1%positive = Some (demo_cache demo_world_ab 1%positive))
    as H1 by (vm_compute; reflexivity).
  assert (is_LONG 1) as H2 by (unfold is_LONG; lia).
  assert (xmlHashSize (cache (demo_cache demo_world_ab 1%positive)) < 2 ^ 31)%Z
    as H3 by (vm_compute; reflexivity).
  assert (0 ≤ 1 < xmlHashSize (cache (demo_cache demo_world_ab 1%positive)))%Z
    as H4 by (vm_compute; split; [discriminate | reflexivity]).
  split; [exact H1 |]. split; [exact H2 |]. split; [exact H3 |]. split; [exact H4 |].
  exact (proj1 (@get_namespaceURI_in_range demo_ext 1%positive 1 demo_world_ab
                  (demo_cache demo_world_ab 1%positive) H1 H2 H3) H4).
Defined.

(** ** Runs of the model *)

(** The scan of collection 1 meets urn:a, then urn:bb: the indices 0 and 1
    name them, 2 is refused, and -1 is answered with S_OK and no name. *)
Example namespaceURI_run :
  @schema_cache_get_namespaceURI demo_ext 1%positive 0 true demo_world_ab =
    Some ((S_OK, Some "urn:a"), demo_world_ab) ∧
  @schema_cache_get_namespaceURI demo_ext 1%positive 1 true demo_world_ab =
    Some ((S_OK, Some "urn:bb"), demo_world_ab) ∧
  @schema_cache_get_namespaceURI demo_ext 1%positive 2 true demo_world_ab =
    Some ((E_FAIL, None), demo_world_ab) ∧
  @schema_cache_get_namespaceURI demo_ext 1%positive (-1) true demo_world_ab =
    Some ((S_OK, None), demo_world_ab) ∧
  @schema_cache_get_namespaceURI demo_ext 1%positive 0 false demo_world_ab =
    Some ((E_POINTER, None), demo_world_ab).
Proof. repeat split; vm_compute; reflexivity. Qed.

(** The codes of add on the sources of the demo store; on a pointer to
    something that is no document node add faults. *)
Example add_run :
  fst <$> @schema_cache_add demo_ext 1%positive "urn:c"
            (@VT_BSTR demo_ext "file:///missing.xsd") demo_world_ab = Some E_FAIL ∧
  fst <$> @schema_cache_add demo_ext 1%positive "urn:c"
            (@VT_BSTR demo_ext "") demo_world_ab = Some E_FAIL ∧
  @schema_cache_add demo_ext 1%positive "urn:c"
    (@VT_DISPATCH demo_ext Dispatch_object) demo_world_ab = None ∧
  @schema_cache_add demo_ext 1%positive "urn:c"
    (@VT_DISPATCH demo_ext Dispatch_node) demo_world_ab = None ∧
  fst <$> @schema_cache_add demo_ext 1%positive "urn:c"
            (@VT_DISPATCH demo_ext (Dispatch_domnode None)) demo_world_ab =
    Some E_INVALIDARG ∧
  fst <$> @schema_cache_add demo_ext 1%positive "urn:c"
            (@VT_DISPATCH demo_ext (Dispatch_domnode (Some 3%positive))) demo_world_ab =
    Some E_FAIL ∧
  fst <$> @schema_cache_add demo_ext 1%positive "urn:c"
            (@VT_DISPATCH demo_ext (Dispatch_domnode (Some 1%positive))) demo_world_ab =
    Some E_FAIL ∧
  fst <$> @schema_cache_add demo_ext 1%positive "urn:c"
            (@VT_I4 demo_ext 7) demo_world_ab = Some E_INVALIDARG ∧
  fst <$> @schema_cache_add demo_ext 1%positive "urn:c"
            (@VT_DISPATCH demo_ext (Dispatch_domnode (Some 2%positive))) demo_world_ab =
    Some S_OK.
Proof. repeat split; vm_compute; reflexivity. Qed.

(** The three documents of the demo store, as the detector sees them. *)
Example detector_run :
  schema_type_from_xmlDocPtr demo_xsd_doc = SCHEMA_TYPE_XSD ∧
  schema_type_from_xmlDocPtr demo_xdr_doc = SCHEMA_TYPE_XDR ∧
  schema_type_from_xmlDocPtr demo_other_doc = SCHEMA_TYPE_INVALID ∧
  schema_type_from_xmlDocPtr
    {| xmlDocGetRootElement :=
         Some (XmlNode (Some "Schema")
                 (Some {| href := Some XSD_nsURI; prefix := None |}) [] []);
       URL := None |} = SCHEMA_TYPE_INVALID.
Proof. repeat split; reflexivity. Qed.

(** remove("urn:a") drops the last reference to the XSD entry: the trace
    grows by its teardown, in order. *)
Example teardown_run :
  trace (run (@schema_cache_remove demo_ext 1%positive "urn:a") demo_world_ab) =
    trace demo_world_ab ++
      [Call_xmldoc_release 4; Call_xmlSchemaFree 1 None; Call_heap_free 1].
Proof. vm_compute. reflexivity. Qed.

(** get on collection 1: no slot, an absent key, and the two keys it holds
    (the documents of their entries are at 4 and 5). *)
Example get_run :
  @schema_cache_get demo_ext 1%positive "urn:a" false demo_world_ab =
    Some ((E_POINTER, None), demo_world_ab) ∧
  @schema_cache_get demo_ext 1%positive "urn:zz" true demo_world_ab =
    Some ((S_OK, None), demo_world_ab) ∧
  @schema_cache_get demo_ext 1%positive "urn:a" true demo_world_ab =
    Some ((S_OK, Some 4%positive), demo_world_ab) ∧
  @schema_cache_get demo_ext 1%positive "urn:bb" true demo_world_ab =
    Some ((S_OK, Some 5%positive), demo_world_ab).
Proof. repeat split; vm_compute; reflexivity. Qed.

(** addCollection of collection 1 into collection 2 shares both entries:
    each counts 2, collection 2 finds them under the same keys, and a
    remove in collection 1 then only drops the count back to 1, with no
    teardown. *)
Example addCollection_run :
  let w := run (@schema_cache_addCollection demo_ext 2%positive (Some 1%positive))
             demo_world_ab in
  let w' := run (@schema_cache_remove demo_ext 1%positive "urn:a") w in
  ref <$> entries demo_world_ab !! 1%positive = Some 1%Z ∧
  ref <$> entries w !! 1%positive = Some 2%Z ∧
  ref <$> entries w !! 2%positive = Some 2%Z ∧
  @xmlHashLookup demo_ext (cache (demo_cache w 2%positive)) "urn:a" = Some 1%positive ∧
  @xmlHashLookup demo_ext (cache (demo_cache w 2%positive)) "urn:bb" = Some 2%positive ∧
  ref <$> entries w' !! 1%positive = Some 1%Z ∧
  @xmlHashLookup demo_ext (cache (demo_cache w' 1%positive)) "urn:a" = None ∧
  @xmlHashLookup demo_ext (cache (demo_cache w' 2%positive)) "urn:a" = Some 1%positive ∧
  trace w' = trace demo_world_ab.
Proof. repeat split; vm_compute; reflexivity. Qed.

(** add("urn:a", B) over add("urn:a", A): A's entry (at 1, schema 1,
    document 4) is torn down after B's document (at 6) has been handed
    over, and B's entry is the one the table holds. *)
Example replace_run :
  let w := run (@schema_cache_add demo_ext 1%positive "urn:a"
                  (@VT_DISPATCH demo_ext (Dispatch_domnode (Some 2%positive))))
             demo_world_ab in
  trace w =
    trace demo_world_ab ++
      [Call_xmldoc_init 6 CLSID_DOMDocument30; Call_xmldoc_add_ref 6;
       Call_xmldoc_release 4; Call_xmlSchemaFree 1 None; Call_heap_free 1] ∧
  entries w !! 1%positive = None ∧
  @xmlHashLookup demo_ext (cache (demo_cache w 1%positive)) "urn:a" = Some 3%positive ∧
  entries_at (cache (demo_cache w 1%positive)) "urn:a" = [3%positive] ∧
  ref <$> entries w !! 3%positive = Some 1%Z.
Proof. repeat split; vm_compute; reflexivity. Qed.

(** * More of schema.c: length, enumeration, merging, counts *)

Section Coverage.
Context {ext : External}.

(** ** length *)

Lemma length_items_table_add t name p :
  0 < length t →
  length (xmlHashItems (table_add t name p)) = S (length (xmlHashItems t)).
Proof. intros Hlen. by rewrite (items_table_add t name p Hlen). Qed.

Lemma length_items_table_remove t name p :
  0 < length t → xmlHashLookup t name = Some p →
  length (xmlHashItems t) = S (length (xmlHashItems (table_remove t name))).
Proof. intros Hlen Hl. by rewrite (items_table_remove t name p Hlen Hl) at 1. Qed.

Lemma schema_cache_get_length_spec This w c :
  caches w !! This = Some c →
  schema_cache_get_length This true w = Some ((S_OK, Some (xmlHashSize (cache c))), w).
Proof.
  intros Hc. unfold schema_cache_get_length. munfold. simpl.
  by rewrite (table_of_spec _ _ _ Hc).
Qed.

(** length() follows the keys: remove takes one off when the key is
    bound and none otherwise; a successful add of a source puts one on
    when the key is new and none when it replaces an entry. *)
Theorem length_tracks_keys This uri var w c :
  cache_ok w This → variant_ok w var → caches w !! This = Some c →
  (∃ w1,
     schema_cache_remove This uri w = Some (S_OK, w1) ∧
     schema_cache_get_length This true w1 =
       Some ((S_OK, Some (match xmlHashLookup (cache c) (xmlChar_from_wchar uri) with
                          | Some _ => xmlHashSize (cache c) - 1
                          | None => xmlHashSize (cache c)
                          end)%Z), w1)) ∧
  (∀ w', var ≠ VT_NULL → schema_cache_add This uri var w = Some (S_OK, w') →
     schema_cache_get_length This true w' =
       Some ((S_OK, Some (match xmlHashLookup (cache c) (xmlChar_from_wchar uri) with
                          | Some _ => xmlHashSize (cache c)
                          | None => xmlHashSize (cache c) + 1
                          end)%Z), w')).
Proof.
  intros Hok Hvar Hc.
  pose proof (cache_ok_table_wf _ _ _ Hok Hc) as Hwf.
  split.
  - destruct (schema_cache_remove_spec This uri w Hok) as (c' & Hc' & Hspec).
    assert (c' = c) as -> by congruence.
    destruct (xmlHashLookup (cache c) (xmlChar_from_wchar uri)) as [p |] eqn:Hl.
    + destruct Hspec as (e & He & _ & Hrm). eexists. split; [exact Hrm |].
      erewrite schema_cache_get_length_spec
        by (apply with_table_lookup; by rewrite released_caches).
      simpl. unfold xmlHashSize.
      rewrite (length_items_table_remove _ _ _ (proj1 Hwf) Hl).
      do 4 f_equal. lia.
    + exists w. split; [done |]. by apply schema_cache_get_length_spec.
  - intros w' Hnn Hrun.
    destruct (schema_cache_add_stores _ _ _ _ _ Hok Hvar Hnn Hrun)
      as (entry & e & w1 & Hcon & ->).
    destruct (stored_ok This (xmlChar_from_wchar uri) entry e w w1 Hok Hcon)
      as (_ & c0 & c3 & Hc0 & Hc3 & Htab & _).
    assert (c0 = c) as -> by congruence.
    rewrite (schema_cache_get_length_spec _ _ _ Hc3). rewrite Htab.
    unfold xmlHashSize.
    rewrite length_items_table_add
      by (unfold table_remove; rewrite length_insert; apply Hwf).
    destruct (xmlHashLookup (cache c) (xmlChar_from_wchar uri)) as [p |] eqn:Hl.
    + rewrite (length_items_table_remove _ _ _ (proj1 Hwf) Hl). done.
    + rewrite table_remove_absent by done. do 4 f_equal. lia.
Qed.

(** ** Other keys *)

Lemma NoDup_snd_inj (l : list (string * ptr)) x y :
  NoDup l.*2 → x ∈ l → y ∈ l → x.2 = y.2 → x = y.
Proof.
  induction l as [|it l IH]; intros Hnd Hx Hy Heq; [by apply elem_of_nil in Hx |].
  simpl in Hnd. apply NoDup_cons in Hnd as [Hit Hnd].
  apply elem_of_cons in Hx as [-> | Hx]; apply elem_of_cons in Hy as [-> | Hy].
  - done.
  - exfalso. apply Hit. rewrite Heq. by apply list_elem_of_fmap_2.
  - exfalso. apply Hit. rewrite <- Heq. by apply list_elem_of_fmap_2.
  - by apply IH.
Qed.

Lemma cache_ok_distinct_entries w This c name name' p p' :
  cache_ok w This → caches w !! This = Some c → name ≠ name' →
  xmlHashLookup (cache c) name = Some p → xmlHashLookup (cache c) name' = Some p' →
  p ≠ p'.
Proof.
  intros (c' & Hc' & Hwf & Hnd & _) Hc Hne Hl Hl' <-.
  assert (c' = c) as -> by congruence.
  apply Hne.
  assert ((name, p) = (name', p)) as Heq; [| congruence].
  apply (NoDup_snd_inj (xmlHashItems (cache c))); [done | | | done].
  - by apply items_lookup.
  - by apply items_lookup.
Qed.

Lemma schema_cache_get_same This uri w w' c c' :
  caches w !! This = Some c → caches w' !! This = Some c' →
  xmlHashLookup (cache c') (xmlChar_from_wchar uri) =
    xmlHashLookup (cache c) (xmlChar_from_wchar uri) →
  (∀ p, xmlHashLookup (cache c) (xmlChar_from_wchar uri) = Some p →
     entries w' !! p = entries w !! p) →
  fst <$> schema_cache_get This uri true w' = fst <$> schema_cache_get This uri true w.
Proof.
  intros Hc Hc' Hl He. unfold schema_cache_get. munfold. simpl.
  rewrite (table_of_spec _ _ _ Hc), (table_of_spec _ _ _ Hc'), Hl.
  destruct (xmlHashLookup (cache c) (xmlChar_from_wchar uri)) as [p |]; [| done].
  rewrite (He p eq_refl). by destruct (entries w !! p).
Qed.

Lemma stored_entries_ne This name entry e old w1 q :
  q ≠ entry → (∀ p ep, old = Some (p, ep) → q ≠ p) →
  entries (stored This name entry e old w1) !! q = entries w1 !! q.
Proof.
  intros Hne Hold. unfold stored. destruct old as [[p ep] |]; simpl.
  - rewrite released_entries_ne by (intros ->; by eapply Hold).
    simpl. by rewrite lookup_insert_ne.
  - by rewrite lookup_insert_ne.
Qed.

(** Whatever add(uri, source) does, with Null (a remove) or a source,
    failing or not, a key that differs from uri stays bound to the same
    entry, the entry keeps its fields and its count, and get on that key
    answers as before. *)
Theorem add_leaves_other_keys This uri uri' var w hr w' :
  cache_ok w This → variant_ok w var →
  xmlChar_from_wchar uri ≠ xmlChar_from_wchar uri' →
  schema_cache_add This uri var w = Some (hr, w') →
  ∃ c c',
    caches w !! This = Some c ∧ caches w' !! This = Some c' ∧
    xmlHashLookup (cache c') (xmlChar_from_wchar uri') =
      xmlHashLookup (cache c) (xmlChar_from_wchar uri') ∧
    (∀ p, xmlHashLookup (cache c) (xmlChar_from_wchar uri') = Some p →
       entries w' !! p = entries w !! p) ∧
    fst <$> schema_cache_get This uri' true w' =
      fst <$> schema_cache_get This uri' true w.
Proof.
  intros Hok Hvar Hne Hrun.
  pose proof Hok as (c & Hc & Hwf & _).
  assert (∃ c', caches w' !! This = Some c' ∧
            xmlHashLookup (cache c') (xmlChar_from_wchar uri') =
              xmlHashLookup (cache c) (xmlChar_from_wchar uri') ∧
            (∀ p, xmlHashLookup (cache c) (xmlChar_from_wchar uri') = Some p →
               entries w' !! p = entries w !! p)) as (c' & Hc' & Hl & He).
  { assert (var = VT_NULL ∨ var ≠ VT_NULL) as [-> | Hnn]
      by (destruct var; auto; by right).
    - change (schema_cache_remove This uri w = Some (hr, w')) in Hrun.
      destruct (schema_cache_remove_spec This uri w Hok) as (c0 & Hc0 & Hspec).
      assert (c0 = c) as -> by congruence.
      destruct (xmlHashLookup (cache c) (xmlChar_from_wchar uri)) as [p |] eqn:Hp.
      + destruct Hspec as (e & Hep & _ & Hrm).
        assert (w' = with_table This (λ t, table_remove t (xmlChar_from_wchar uri))
                       (released p e w)) as -> by congruence.
        eexists. split; [apply with_table_lookup; by rewrite released_caches |].
        simpl. split; [by apply lookup_table_remove_ne |].
        intros p' Hp'. apply released_entries_ne.
        by eapply cache_ok_distinct_entries.
      + assert (w' = w) as -> by congruence. by exists c.
    - destruct (add_failure w var) as [hr0 |] eqn:Hf.
      + destruct (schema_cache_add_failure This uri var w hr0 Hf
                    (schema_cache_add_domnode_ok _ _ _ _ _ _ Hrun))
          as (w0 & Hrun0 & (Hents & _ & _ & Hcaches)).
        assert (w0 = w') as -> by congruence.
        exists c. split; [congruence |]. split; [done |]. intros p _. by rewrite Hents.
      + destruct (schema_cache_add_success This uri var w Hok Hvar Hnn Hf)
          as (entry & e & w1 & Hcon & Hrun').
        destruct (stored_ok This (xmlChar_from_wchar uri) entry e w w1 Hok Hcon)
          as (_ & c0 & c3 & Hc0 & Hc3 & Htab & _).
        assert (c0 = c) as -> by congruence.
        assert (w' = stored This (xmlChar_from_wchar uri) entry e
                       (old_entry w This (xmlChar_from_wchar uri)) w1) as -> by congruence.
        exists c3. split; [done |].
        split; [rewrite Htab; by rewrite lookup_table_add_ne, lookup_table_remove_ne |].
        intros p' Hp'.
        destruct (cache_ok_lookup _ _ _ _ _ Hc Hok Hp') as (e' & He' & _).
        destruct Hcon as (Hfresh & Hent1 & _).
        rewrite stored_entries_ne.
        * rewrite Hent1. apply lookup_insert_ne. congruence.
        * congruence.
        * intros p ep Hold. unfold old_entry in Hold. rewrite Hc in Hold. simpl in Hold.
          destruct (xmlHashLookup (cache c) (xmlChar_from_wchar uri)) as [p0 |] eqn:Hp0;
            [| done].
          simpl in Hold. destruct (entries w !! p0); [| done]. simpl in Hold.
          injection Hold as <- _. intros ->.
          by eapply (cache_ok_distinct_entries w This c _ _ p0 p0 Hok Hc Hne). }
  exists c, c'. split; [done |]. split; [done |]. split; [done |]. split; [done |].
  by eapply schema_cache_get_same.
Qed.

(** ** The entry add builds *)

Lemma stored_docs This name entry e old w1 :
  docs (stored This name entry e old w1) = docs w1.
Proof.
  unfold stored. destruct old as [[p ep] |]; simpl; [| done].
  by rewrite released_docs.
Qed.

Lemma stored_serves This uri entry e w w1 :
  cache_ok w This → constructed w entry e w1 →
  ∃ c',
    caches (stored This (xmlChar_from_wchar uri) entry e
              (old_entry w This (xmlChar_from_wchar uri)) w1) !! This = Some c' ∧
    xmlHashLookup (cache c') (xmlChar_from_wchar uri) = Some entry ∧
    entries (stored This (xmlChar_from_wchar uri) entry e
               (old_entry w This (xmlChar_from_wchar uri)) w1) !! entry =
      Some (with_ref e 1) ∧
    schema_cache_get This uri true
      (stored This (xmlChar_from_wchar uri) entry e
         (old_entry w This (xmlChar_from_wchar uri)) w1) =
      Some (DOMDocument_create_from_xmldoc (doc e),
            stored This (xmlChar_from_wchar uri) entry e
              (old_entry w This (xmlChar_from_wchar uri)) w1).
Proof.
  intros Hok Hcon.
  destruct (stored_ok This (xmlChar_from_wchar uri) entry e w w1 Hok Hcon)
    as (_ & c & c3 & _ & Hc3 & _ & Hl3 & He3).
  exists c3. split; [done |]. split; [done |]. split; [done |].
  pose proof (schema_cache_get_spec This uri _ c3 Hc3) as Hget.
  rewrite Hl3 in Hget. by rewrite (Hget _ He3).
Qed.

(** A successful add of a document stores an entry of the document's
    dialect over a copy: the copy sits at an address that was free, holds
    what the caller's document holds, and the caller's document is still
    there, unchanged; get(uri) is then made from the copy.  A successful
    add of a URL stores an XSD entry over the document the compiler parsed
    from the URL, at an address that was free. *)
Theorem add_owns_its_document This uri w :
  cache_ok w This →
  (∀ d content w',
     docs w !! d = Some content →
     schema_cache_add This uri (VT_DISPATCH (Dispatch_domnode (Some d))) w =
       Some (S_OK, w') →
     ∃ c' entry e,
       caches w' !! This = Some c' ∧
       xmlHashLookup (cache c') (xmlChar_from_wchar uri) = Some entry ∧
       entries w' !! entry = Some e ∧
       type e = schema_type_from_xmlDocPtr content ∧
       type e ≠ SCHEMA_TYPE_INVALID ∧
       doc e ≠ d ∧ docs w !! doc e = None ∧
       docs w' !! doc e = Some content ∧ docs w' !! d = Some content ∧
       schema_cache_get This uri true w' =
         Some (DOMDocument_create_from_xmldoc (doc e), w')) ∧
  (∀ bstrVal w',
     schema_cache_add This uri (VT_BSTR bstrVal) w = Some (S_OK, w') →
     ∃ c' entry e content,
       xmlSchemaParse_url (xmlChar_from_wchar bstrVal) = Some content ∧
       caches w' !! This = Some c' ∧
       xmlHashLookup (cache c') (xmlChar_from_wchar uri) = Some entry ∧
       entries w' !! entry = Some e ∧
       type e = SCHEMA_TYPE_XSD ∧
       docs w !! doc e = None ∧ docs w' !! doc e = Some content ∧
       schema_cache_get This uri true w' =
         Some (DOMDocument_create_from_xmldoc (doc e), w')).
Proof.
  intros Hok. split.
  - intros d content w' Hd Hrun.
    assert (∃ entry e w1,
              constructed w entry e w1 ∧
              type e = schema_type_from_xmlDocPtr content ∧
              type e ≠ SCHEMA_TYPE_INVALID ∧
              docs w1 !! doc e = Some content ∧
              w' = stored This (xmlChar_from_wchar uri) entry e
                     (old_entry w This (xmlChar_from_wchar uri)) w1)
      as (entry & e & w1 & Hcon & Hty & Hval & Hcopy & ->).
    { revert Hrun. rewrite schema_cache_add_domnode.
      assert (deref docs d w = Some (content, w)) as Hderef
        by (unfold deref; by rewrite Hd).
      rewrite (bind_Some _ _ _ _ _ Hderef).
      destruct (schema_type_from_xmlDocPtr content) eqn:Hdetect.
      - munfold. done.
      - destruct (cache_entry_from_xdr_doc_spec d content w Hd)
          as (entry & e & w1 & Hrun & Hcon & Hty & Hcopy).
        rewrite (bind_Some _ _ _ _ _ Hrun).
        intros Hst.
        pose proof (eq_trans (eq_sym Hst)
                      (store_entry_spec This (xmlChar_from_wchar uri) entry e w w1 Hok Hcon))
          as [= ->].
        exists entry, e, w1. rewrite Hty. done.
      - pose proof (cache_entry_from_xsd_doc_spec d content w Hd) as Hspec.
        destruct (xmlSchemaParse_doc content).
        + destruct Hspec as (entry & e & w1 & Hrun & Hcon & Hty & Hcopy).
          rewrite (bind_Some _ _ _ _ _ Hrun).
          intros Hst.
          pose proof (eq_trans (eq_sym Hst)
                        (store_entry_spec This (xmlChar_from_wchar uri) entry e w w1 Hok Hcon))
            as [= ->].
          exists entry, e, w1. rewrite Hty. done.
        + destruct Hspec as (w1 & Hrun & _).
          rewrite (bind_Some _ _ _ _ _ Hrun). munfold. done. }
    destruct (stored_serves This uri entry e w w1 Hok Hcon) as (c' & Hc' & Hl & He & Hget).
    pose proof Hcon as (_ & _ & _ & _ & _ & Hdocs & Hnew & _).
    exists c', entry, (with_ref e 1). split; [done |]. split; [done |]. split; [done |].
    split; [exact Hty |]. split; [exact Hval |].
    split; [change (doc e ≠ d); congruence |]. split; [exact Hnew |].
    rewrite stored_docs. split; [exact Hcopy |].
    split; [by eapply lookup_weaken | exact Hget].
  - intros bstrVal w' Hrun.
    pose proof (cache_entry_from_url_spec (xmlChar_from_wchar bstrVal) w) as Hspec.
    revert Hrun. unfold schema_cache_add.
    destruct (xmlSchemaParse_url (xmlChar_from_wchar bstrVal)) as [content |] eqn:Hparse.
    + destruct (xmlSchemaNewParserCtxt (xmlChar_from_wchar bstrVal)).
      * destruct Hspec as (entry & e & w1 & Hrun & Hcon & Hty & Hcopy).
        rewrite (bind_Some _ _ _ _ _ Hrun).
        intros Hst.
        pose proof (eq_trans (eq_sym Hst)
                      (store_entry_spec This (xmlChar_from_wchar uri) entry e w w1 Hok Hcon))
          as [= ->].
        destruct (stored_serves This uri entry e w w1 Hok Hcon)
          as (c' & Hc' & Hl & He & Hget).
        pose proof Hcon as (_ & _ & _ & _ & _ & Hdocs & Hnew & _).
        exists c', entry, (with_ref e 1), content.
        split; [done |]. split; [done |]. split; [done |]. split; [done |].
        split; [exact Hty |]. split; [exact Hnew |].
        rewrite stored_docs. split; [exact Hcopy | exact Hget].
      * destruct Hspec as (w1 & Hrun & _).
        rewrite (bind_Some _ _ _ _ _ Hrun). munfold. done.
    + destruct (xmlSchemaNewParserCtxt (xmlChar_from_wchar bstrVal));
        destruct Hspec as (w1 & Hrun & _);
        rewrite (bind_Some _ _ _ _ _ Hrun); munfold; done.
Qed.

(** ** Enumeration *)

(** namespaceURI enumerates the bound keys: there is a list of keys
    without repetition, as long as length() says, holding exactly the keys
    that get finds, and for every index in [0, length()) namespaceURI
    returns S_OK and the key at that index, leaving the store as it is. *)
Theorem namespaceURI_enumerates This w c :
  cache_ok w This → caches w !! This = Some c →
  (xmlHashSize (cache c) < 2 ^ 31)%Z →
  ∃ keys : list string,
    NoDup keys ∧
    schema_cache_get_length This true w = Some ((S_OK, Some (Z.of_nat (length keys))), w) ∧
    (∀ name, name ∈ keys ↔ is_Some (xmlHashLookup (cache c) name)) ∧
    ∀ i, i < length keys →
      ∃ name, keys !! i = Some name ∧
        schema_cache_get_namespaceURI This (Z.of_nat i) true w =
          Some ((S_OK, Some (bstr_from_xmlChar name)), w).
Proof.
  intros Hok Hc Hsize.
  pose proof (cache_ok_table_wf _ _ _ Hok Hc) as Hwf.
  exists (xmlHashItems (cache c)).*1.
  split; [by apply items_NoDup_keys |].
  split.
  { rewrite (schema_cache_get_length_spec _ _ _ Hc). unfold xmlHashSize.
    by rewrite length_fmap. }
  split.
  { intros name. rewrite list_elem_of_fmap. split.
    - intros (it & -> & Hin). apply (items_lookup _ _ Hwf) in Hin. by eexists.
    - intros [p Hl]. exists (name, p). split; [done |]. by apply (items_lookup _ (name, p)). }
  intros i Hi. rewrite length_fmap in Hi.
  destruct (lookup_lt_is_Some_2 (xmlHashItems (cache c)).*1 i) as [name Hname];
    [by rewrite length_fmap |].
  exists name. split; [done |].
  assert (is_LONG (Z.of_nat i)) as Hlong.
  { unfold is_LONG, xmlHashSize in *. lia. }
  rewrite (schema_cache_get_namespaceURI_spec _ _ _ _ Hc Hlong Hsize).
  unfold xmlHashSize. rewrite decide_False by lia. rewrite decide_True by lia.
  by rewrite Nat2Z.id, Hname.
Qed.

(** ** Merging *)

Lemma schema_cache_addCollection_spec This That w self other :
  caches w !! This = Some self → caches w !! That = Some other →
  (∀ it, it ∈ xmlHashItems (cache other) → is_Some (entries w !! it.2)) →
  schema_cache_addCollection This (Some That) w =
    Some (S_OK, copied This (xmlHashItems (cache other)) self w).
Proof.
  intros Hself Hother Hlive.
  unfold schema_cache_addCollection, xmlHashScan. munfold.
  rewrite (table_of_spec _ _ _ Hother), scan_buckets_items.
  by rewrite (scan_chain_cache_copy _ _ _ _ Hself Hlive).
Qed.

Lemma copy_items_size l t h :
  0 < length t → NoDup l.*1 →
  length (xmlHashItems (copy_items l t h).1) =
    length (xmlHashItems t) + length (filter (λ it, xmlHashLookup t it.1 = None) l).
Proof.
  revert t h. induction l as [|[n p] l IH]; intros t h Hlen Hnd.
  - simpl. lia.
  - simpl in Hnd. apply NoDup_cons in Hnd as [Hn Hnd].
    cbn [copy_items]. rewrite filter_cons. cbn [fst].
    destruct (xmlHashLookup t n) as [q |] eqn:Hl.
    + rewrite IH by done. by rewrite decide_False by done.
    + rewrite IH by (unfold table_add; rewrite ?length_insert; done).
      rewrite decide_True by done. rewrite length_items_table_add by done.
      rewrite (filter_iff_elem (λ it, xmlHashLookup (table_add t n p) it.1 = None)
                 (λ it, xmlHashLookup t it.1 = None)).
      * simpl. lia.
      * intros it Hit. rewrite lookup_table_add_ne; [done |].
        intros ->. apply Hn, list_elem_of_fmap. by exists it.
Qed.

(** addCollection adds to length() the number of keys of the other
    collection that the receiver lacked, and nothing else: the receiver
    grows by exactly the keys it did not have, and a collection other than
    the receiver keeps its table. *)
Theorem addCollection_length This That w self other :
  caches w !! This = Some self → caches w !! That = Some other →
  table_wf (cache self) → table_wf (cache other) →
  (∀ it, it ∈ xmlHashItems (cache other) → is_Some (entries w !! it.2)) →
  ∃ w',
    schema_cache_addCollection This (Some That) w = Some (S_OK, w') ∧
    schema_cache_get_length This true w' =
      Some ((S_OK,
             Some (xmlHashSize (cache self) +
                   Z.of_nat (length (filter (λ it, xmlHashLookup (cache self) it.1 = None)
                                       (xmlHashItems (cache other)))))%Z), w') ∧
    (∀ Other, Other ≠ This → caches w' !! Other = caches w !! Other) ∧
    docs w' = docs w ∧ schemas w' = schemas w ∧ trace w' = trace w.
Proof.
  intros Hself Hother Hwfs Hwfo Hlive.
  exists (copied This (xmlHashItems (cache other)) self w).
  split; [by apply schema_cache_addCollection_spec |].
  split.
  { erewrite schema_cache_get_length_spec
      by (unfold copied; simpl; by rewrite lookup_insert_eq).
    simpl. unfold xmlHashSize.
    rewrite copy_items_size; [| apply Hwfs | by apply items_NoDup_keys].
    by rewrite Nat2Z.inj_add. }
  split; [| done].
  intros Other Hne. unfold copied. simpl. by rewrite lookup_insert_ne.
Qed.

(** addCollection changes nothing when the receiver already has every key
    of the other collection: it returns S_OK and the same store, no count
    is touched.  So merging a collection into itself changes nothing, and
    after addCollection(other) a second addCollection(other) changes
    nothing. *)
Theorem addCollection_idempotent This That w self other :
  caches w !! This = Some self → caches w !! That = Some other →
  table_wf (cache self) → table_wf (cache other) →
  (∀ it, it ∈ xmlHashItems (cache other) → is_Some (entries w !! it.2)) →
  ((∀ it, it ∈ xmlHashItems (cache other) → is_Some (xmlHashLookup (cache self) it.1)) →
     schema_cache_addCollection This (Some That) w = Some (S_OK, w)) ∧
  schema_cache_addCollection This (Some This) w = Some (S_OK, w) ∧
  ∃ w',
    schema_cache_addCollection This (Some That) w = Some (S_OK, w') ∧
    schema_cache_addCollection This (Some That) w' = Some (S_OK, w').
Proof.
  intros Hself Hother Hwfs Hwfo Hlive.
  assert (∀ (B : ptr) (v : world) (a b : schema_cache),
            caches v !! This = Some a → caches v !! B = Some b →
            (∀ it, it ∈ xmlHashItems (cache b) → is_Some (xmlHashLookup (cache a) it.1)) →
            schema_cache_addCollection This (Some B) v = Some (S_OK, v)) as Hsame.
  { intros B v a b Ha Hb Hin.
    unfold schema_cache_addCollection, xmlHashScan. munfold.
    rewrite (table_of_spec _ _ _ Hb), scan_buckets_items.
    assert (scan_chain cache_copy (xmlHashItems (cache b)) This v = Some (This, v)) as ->;
      [| done].
    induction (xmlHashItems (cache b)) as [|[n p] l IH]; [done |].
    rewrite scan_chain_cons, (cache_copy_spec _ _ _ _ _ Ha).
    destruct (Hin (n, p)) as [q Hq]; [apply elem_of_cons; by left |].
    simpl in Hq. rewrite Hq. apply IH.
    intros it Hit. apply Hin, elem_of_cons. by right. }
  split; [by apply (Hsame That w self other) |].
  split.
  { apply (Hsame This w self self); [done | done |].
    intros [n p] Hit. apply (items_lookup _ _ Hwfs) in Hit. by eexists. }
  exists (copied This (xmlHashItems (cache other)) self w).
  split; [by apply schema_cache_addCollection_spec |].
  set (self' := {| cache := (copy_items (xmlHashItems (cache other)) (cache self)
                               (entries w)).1;
                   cache_ref := cache_ref self |}).
  assert (caches (copied This (xmlHashItems (cache other)) self w) !! This = Some self')
    as Hself' by (unfold copied; simpl; by rewrite lookup_insert_eq).
  assert (table_wf (cache self')) as Hwf' by by apply copy_items_wf.
  destruct (decide (This = That)) as [<- | Hne].
  - apply (Hsame This _ self' self'); [done | done |].
    intros [n p] Hit. apply (items_lookup _ _ Hwf') in Hit. by eexists.
  - apply (Hsame That _ self' other); [done | |].
    + unfold copied. simpl. by rewrite lookup_insert_ne.
    + intros [n p] Hit. apply (items_lookup _ _ Hwfo) in Hit. simpl in *.
      rewrite copy_items_lookup by apply Hwfs.
      destruct (xmlHashLookup (cache self) n); [by eexists |].
      rewrite chain_lookup_items by done. by eexists.
Qed.

(** ** Reference counts *)

Lemma with_ref_twice e r : with_ref (with_ref e r) (ref e) = e.
Proof. by destruct e. Qed.

Lemma LONG_wrap_succ_pred z : is_LONG z → LONG_wrap (LONG_wrap (z + 1) - 1) = z.
Proof.
  intros Hz. rewrite LONG_wrap_wrap_sub.
  replace (z + 1 - 1)%Z with z by lia. by apply LONG_wrap_id.
Qed.

Lemma LONG_wrap_pred_succ z : is_LONG z → LONG_wrap (LONG_wrap (z - 1) + 1) = z.
Proof.
  intros Hz. rewrite LONG_wrap_wrap.
  replace (z - 1 + 1)%Z with z by lia. by apply LONG_wrap_id.
Qed.

(** cache_entry_add_ref followed by cache_entry_release gives the count
    back and the store as it was, also across the wrap at the largest
    LONG, whenever the count is not 0; so does cache_entry_release
    followed by cache_entry_add_ref whenever the count is not 1.  On a
    count of 0, which is what the construction paths deliver, the pair
    add_ref, release tears the entry down. *)
Theorem entry_ref_round_trip p e w :
  entries w !! p = Some e → is_LONG (ref e) →
  (ref e ≠ 0%Z →
     (cache_entry_add_ref p;; cache_entry_release p) w = Some (ref e, w)) ∧
  (ref e ≠ 1%Z →
     (cache_entry_release p;; cache_entry_add_ref p) w = Some (ref e, w)) ∧
  (ref e = 0%Z →
     (type e = SCHEMA_TYPE_XSD → ∃ s, schema e = Some s ∧ is_Some (schemas w !! s)) →
     ∃ w', (cache_entry_add_ref p;; cache_entry_release p) w = Some (0%Z, w') ∧
       entries w' !! p = None ∧
       trace w' = trace w ++ teardown_trace p e).
Proof.
  intros He Hlong.
  assert (∀ e', set_entries (<[p := e]>) (set_entries (<[p := e']>) w) = w) as Hback.
  { intros e'. unfold set_entries. simpl. rewrite insert_insert_eq, insert_id by done.
    by destruct w. }
  split; [| split].
  - intros Hnz.
    rewrite (bind_Some _ _ _ _ _ (cache_entry_add_ref_spec _ _ _ He)).
    unfold cache_entry_release. munfold. simpl. rewrite lookup_insert_eq. simpl.
    rewrite LONG_wrap_succ_pred by done.
    rewrite decide_False by done.
    by rewrite with_ref_twice, Hback.
  - intros Hno.
    unfold cache_entry_release, cache_entry_add_ref. munfold. rewrite He. simpl.
    rewrite decide_False by (by rewrite LONG_wrap_pred_zero).
    simpl. rewrite lookup_insert_eq. simpl.
    rewrite LONG_wrap_pred_succ by done.
    by rewrite with_ref_twice, Hback.
  - intros Hz Hs.
    rewrite (bind_Some _ _ _ _ _ (cache_entry_add_ref_spec _ _ _ He)).
    set (e1 := with_ref e (LONG_wrap (ref e + 1))).
    set (w1 := set_entries (<[p := e1]>) w).
    assert (ref e1 = 1%Z) as Hone by (simpl; by rewrite Hz).
    assert (entries w1 !! p = Some e1) as He1 by (simpl; by rewrite lookup_insert_eq).
    rewrite (cache_entry_release_spec p e1 w1 He1 Hs).
    rewrite Hone. exists (released p e1 w1). split; [done |].
    destruct (released_last p e1 w1 Hone) as (Hgone & Htrace & _).
    split; [done |]. exact Htrace.
Qed.

(** schema_cache_AddRef followed by schema_cache_Release leaves the store
    as it was whenever the count is not 0, and so does schema_cache_Release
    followed by schema_cache_AddRef whenever the count is not 1: no entry
    is touched while a reference to the collection is left.  What the pair
    returns is the count as a ULONG: the count itself when it is not
    negative, and the count plus 2^32 when it is. *)
Theorem collection_ref_round_trip This c w :
  caches w !! This = Some c → is_LONG (cache_ref c) →
  (cache_ref c ≠ 0%Z →
     (schema_cache_AddRef This;; schema_cache_Release This) w =
       Some (ULONG_of_LONG (cache_ref c), w)) ∧
  (cache_ref c ≠ 1%Z →
     (schema_cache_Release This;; schema_cache_AddRef This) w =
       Some (ULONG_of_LONG (cache_ref c), w)) ∧
  ((0 ≤ cache_ref c)%Z → ULONG_of_LONG (cache_ref c) = cache_ref c) ∧
  ((cache_ref c < 0)%Z → ULONG_of_LONG (cache_ref c) = (cache_ref c + 2 ^ 32)%Z).
Proof.
  intros Hc Hlong.
  assert (∀ c', set_caches (<[This := {| cache := cache c; cache_ref := cache_ref c |}]>)
                  (set_caches (<[This := c']>) w) = w) as Hback.
  { intros c'. unfold set_caches. simpl. rewrite insert_insert_eq, insert_id.
    - by destruct w.
    - by destruct c. }
  split; [| split; [| split]].
  - intros Hnz. unfold schema_cache_AddRef, schema_cache_Release. munfold.
    rewrite Hc. simpl. rewrite lookup_insert_eq. simpl.
    rewrite LONG_wrap_succ_pred by done.
    rewrite decide_False by done.
    by rewrite Hback.
  - intros Hno. unfold schema_cache_AddRef, schema_cache_Release. munfold.
    rewrite Hc. simpl.
    rewrite decide_False by (by rewrite LONG_wrap_pred_zero).
    simpl. rewrite lookup_insert_eq. simpl.
    rewrite LONG_wrap_pred_succ by done.
    by rewrite Hback.
  - intros Hpos. unfold ULONG_of_LONG, is_LONG in *. apply Z.mod_small. lia.
  - intros Hneg. unfold ULONG_of_LONG, is_LONG in *.
    rewrite <- (Z.mod_add _ 1) by lia. apply Z.mod_small. lia.
Qed.

(** ** The last reference to a collection *)

Lemma released_set_caches f p e w :
  released p e (set_caches f w) = set_caches f (released p e w).
Proof. unfold released. by case_decide. Qed.

Lemma released_items_set_caches f l w :
  released_items l (set_caches f w) = set_caches f (released_items l w).
Proof.
  revert w. induction l as [|[n p] l IH]; intros w; [done |].
  cbn [released_items]. change (entries (set_caches f w)) with (entries w).
  destruct (entries w !! p) as [e |]; [| done].
  by rewrite released_set_caches, IH.
Qed.

Lemma released_items_caches l w : caches (released_items l w) = caches w.
Proof.
  revert w. induction l as [|[n p] l IH]; intros w; [done |].
  cbn [released_items]. destruct (entries w !! p) as [e |]; [| done].
  by rewrite IH, released_caches.
Qed.

Lemma released_items_entries_ne l w q :
  q ∉ l.*2 → entries (released_items l w) !! q = entries w !! q.
Proof.
  revert w. induction l as [|[n p] l IH]; intros w Hq; [done |].
  cbn [released_items]. destruct (entries w !! p) as [e |] eqn:He; [| done].
  rewrite IH by (intros Hin; apply Hq; simpl; apply elem_of_cons; by right).
  apply released_entries_ne. intros ->. apply Hq. simpl. apply elem_of_cons. by left.
Qed.

Lemma items_ok_released n p e l w :
  items_ok w ((n, p) :: l) → entries w !! p = Some e → items_ok (released p e w) l.
Proof.
  intros (Hnd & Hlive & Hinj) He.
  simpl in Hnd. apply NoDup_cons in Hnd as [Hp Hnd].
  assert (∀ it, it ∈ l → it.2 ≠ p) as Hne.
  { intros it Hit Heq. apply Hp, list_elem_of_fmap. by exists it. }
  assert (∀ it, it ∈ l → entries (released p e w) !! it.2 = entries w !! it.2) as Hsame.
  { intros it Hit. apply released_entries_ne. intros Heq. by apply (Hne it). }
  split; [done |]. split.
  - intros it Hit.
    destruct (Hlive it) as (eit & Heit & Hlong & Hs); [apply elem_of_cons; by right |].
    exists eit. split; [by rewrite Hsame |]. split; [done |].
    intros Hty. destruct (Hs Hty) as (s & Hsch & Halive).
    exists s. split; [done |].
    rewrite released_schemas; [done |].
    intros Htye Hsche. apply (Hne it Hit).
    apply (Hinj it (n, p) eit e);
      [apply elem_of_cons; by right | apply elem_of_cons; by left | done | done
      | done | done | congruence].
  - intros it1 it2 e1 e2 Hit1 Hit2. rewrite !Hsame by done.
    apply Hinj; apply elem_of_cons; by right.
Qed.

Lemma scan_chain_cache_free l w :
  items_ok w l →
  scan_chain (λ p (_ : unit) n, cache_free p n) l tt w = Some (tt, released_items l w).
Proof.
  revert w. induction l as [|[n p] l IH]; intros w Hok; [done |].
  destruct Hok as (Hnd & Hlive & Hinj).
  destruct (Hlive (n, p)) as (e & He & Hlong & Hs); [apply elem_of_cons; by left |].
  simpl in He, Hs.
  rewrite scan_chain_cons. unfold cache_free at 1. munfold.
  rewrite (cache_entry_release_spec _ _ _ He Hs).
  cbn [released_items]. rewrite He. apply IH.
  by apply (items_ok_released n).
Qed.

Lemma released_items_entries l w it e :
  items_ok w l → it ∈ l → entries w !! it.2 = Some e →
  entries (released_items l w) !! it.2 =
    if decide (ref e = 1%Z) then None
    else Some (with_ref e (LONG_wrap (ref e - 1))).
Proof.
  revert w. induction l as [|[n p] l IH]; intros w Hok Hit He;
    [by apply elem_of_nil in Hit |].
  pose proof Hok as (Hnd & Hlive & _).
  simpl in Hnd. apply NoDup_cons in Hnd as [Hp Hnd].
  destruct (Hlive (n, p)) as (ep & Hep & Hlong & _); [apply elem_of_cons; by left |].
  simpl in Hep. cbn [released_items]. rewrite Hep.
  apply elem_of_cons in Hit as [-> | Hit].
  - simpl in *. assert (ep = e) as -> by congruence.
    rewrite released_items_entries_ne by done.
    unfold released.
    destruct (decide (ref e = 1%Z)) as [Hone | Hone].
    + rewrite decide_True by (by apply LONG_wrap_pred_zero). simpl.
      by rewrite lookup_delete_eq.
    + rewrite decide_False by (by rewrite LONG_wrap_pred_zero). simpl.
      by rewrite lookup_insert_eq.
  - apply IH; [by apply (items_ok_released n) | done |].
    rewrite released_entries_ne; [done |].
    intros Heq. apply Hp, list_elem_of_fmap. by exists it.
Qed.

Lemma cache_ok_items_ok w This c :
  cache_ok w This → caches w !! This = Some c → items_ok w (xmlHashItems (cache c)).
Proof.
  intros (c' & Hc' & _ & Hnd & Hlive & Hinj) Hc.
  assert (c' = c) as -> by congruence. done.
Qed.

Lemma teardown_traces_ext h h' l :
  (∀ it, it ∈ l → h !! it.2 = h' !! it.2) → teardown_traces h l = teardown_traces h' l.
Proof.
  induction l as [|[n p] l IH]; intros Hext; [done |].
  cbn [teardown_traces].
  assert (h !! p = h' !! p) as -> by (apply (Hext (n, p)), elem_of_cons; by left).
  rewrite IH by (intros it Hit; apply Hext, elem_of_cons; by right). done.
Qed.

Lemma released_items_trace l w :
  items_ok w l →
  trace (released_items l w) = trace w ++ teardown_traces (entries w) l.
Proof.
  revert w. induction l as [|[n p] l IH]; intros w Hok.
  - simpl. by rewrite app_nil_r.
  - pose proof Hok as (Hnd & Hlive & _).
    simpl in Hnd. apply NoDup_cons in Hnd as [Hp Hnd].
    destruct (Hlive (n, p)) as (e & He & Hlong & _); [apply elem_of_cons; by left |].
    simpl in He. cbn [released_items teardown_traces]. rewrite He.
    rewrite IH by (by apply (items_ok_released n)).
    rewrite (teardown_traces_ext (entries (released p e w)) (entries w)).
    + rewrite (assoc_L (++)). f_equal. unfold released.
      destruct (decide (ref e = 1%Z)) as [Hone | Hone].
      * by rewrite decide_True by (by apply LONG_wrap_pred_zero).
      * rewrite decide_False by (by rewrite LONG_wrap_pred_zero). simpl.
        by rewrite app_nil_r.
    + intros it Hit. apply released_entries_ne.
      intros Heq. apply Hp, list_elem_of_fmap. by exists it.
Qed.

(** schema_cache_Release on the last reference returns 0, releases every
    entry of the collection once, in the order of the scan, and frees the
    collection: an entry the collection alone held is torn down (its
    document handed to xmldoc_release, its compiled schema freed, the
    entry freed, as the trace shows) and is gone from the heap, an entry
    that is shared loses one reference, an entry that is not in the
    collection is as it was, and so are the other collections. *)
Theorem Release_last_reference This c w :
  cache_ok w This → caches w !! This = Some c → cache_ref c = 1%Z →
  ∃ w',
    schema_cache_Release This w = Some (0%Z, w') ∧
    caches w' = delete This (caches w) ∧
    trace w' = trace w ++ teardown_traces (entries w) (xmlHashItems (cache c)) ∧
    (∀ it e, it ∈ xmlHashItems (cache c) → entries w !! it.2 = Some e →
       entries w' !! it.2 =
         if decide (ref e = 1%Z) then None
         else Some (with_ref e (LONG_wrap (ref e - 1)))) ∧
    (∀ p, p ∉ (xmlHashItems (cache c)).*2 → entries w' !! p = entries w !! p).
Proof.
  intros Hok Hc Hone.
  pose proof (cache_ok_items_ok _ _ _ Hok Hc) as Hitems.
  exists (set_caches (delete This) (released_items (xmlHashItems (cache c)) w)).
  split.
  - unfold schema_cache_Release. munfold. rewrite Hc. simpl.
    rewrite Hone. change (LONG_wrap (1 - 1)) with 0%Z. simpl.
    set (w0 := set_caches (<[This := {| cache := cache c; cache_ref := 0 |}]>) w).
    assert (caches w0 !! This = Some {| cache := cache c; cache_ref := 0 |}) as Hc0
      by (simpl; by rewrite lookup_insert_eq).
    unfold xmlHashFree, xmlHashScan, update_table. munfold.
    rewrite (table_of_spec _ _ _ Hc0). simpl. rewrite scan_buckets_items.
    assert (items_ok w0 (xmlHashItems (cache c))) as Hitems0 by exact Hitems.
    rewrite (scan_chain_cache_free _ _ Hitems0).
    unfold w0. rewrite released_items_set_caches.
    do 2 f_equal. unfold with_table, set_caches. simpl. f_equal.
    apply map_eq. intros i. destruct (decide (i = This)) as [-> | Hne].
    + by rewrite !lookup_delete_eq.
    + by rewrite !lookup_delete_ne, lookup_alter_ne, lookup_insert_ne.
  - split; [simpl; by rewrite released_items_caches |].
    split; [simpl; by apply released_items_trace |].
    split.
    + intros it e Hit He. simpl. by apply released_items_entries.
    + intros p Hp. simpl. by apply released_items_entries_ne.
Qed.

(** ** An entry from add to remove *)

(** A successful add of a source followed by remove of the same key frees
    what add built: the entry that add stored, counted once, at an address
    that was free, is torn down by remove (its document released, its
    compiled schema freed, the entry freed) and is gone from the heap; the
    key is unbound, and every other key is bound as before the add. *)
Theorem add_then_remove This uri var w w1 :
  cache_ok w This → variant_ok w var → var ≠ VT_NULL →
  schema_cache_add This uri var w = Some (S_OK, w1) →
  ∃ entry e w2 c c2,
    entries w !! entry = None ∧
    entries w1 !! entry = Some e ∧ ref e = 1%Z ∧
    schema_cache_remove This uri w1 = Some (S_OK, w2) ∧
    entries w2 !! entry = None ∧
    trace w2 = trace w1 ++ teardown_trace entry e ∧
    caches w !! This = Some c ∧ caches w2 !! This = Some c2 ∧
    xmlHashLookup (cache c2) (xmlChar_from_wchar uri) = None ∧
    ∀ name, name ≠ xmlChar_from_wchar uri →
      xmlHashLookup (cache c2) name = xmlHashLookup (cache c) name.
Proof.
  intros Hok Hvar Hnn Hrun.
  destruct (schema_cache_add_stores _ _ _ _ _ Hok Hvar Hnn Hrun)
    as (entry & e0 & w0 & Hcon & ->).
  destruct (stored_ok This (xmlChar_from_wchar uri) entry e0 w w0 Hok Hcon)
    as (Hok1 & c & c3 & Hc & Hc3 & Htab & Hl3 & He3).
  set (w1 := stored This (xmlChar_from_wchar uri) entry e0
               (old_entry w This (xmlChar_from_wchar uri)) w0) in *.
  destruct (schema_cache_remove_spec This uri w1 Hok1) as (c' & Hc' & Hrem).
  assert (c' = c3) as -> by congruence.
  rewrite Hl3 in Hrem. destruct Hrem as (e & He & _ & Hrem).
  assert (e = with_ref e0 1) as -> by congruence.
  destruct (released_last entry (with_ref e0 1) w1 eq_refl) as (Hgone & Htrace & _).
  pose proof (cache_ok_table_wf _ _ _ Hok Hc) as Hwf.
  pose proof (cache_ok_table_wf _ _ _ Hok1 Hc3) as Hwf3.
  exists entry, (with_ref e0 1). eexists. exists c. eexists.
  split; [apply Hcon |]. split; [done |]. split; [done |].
  split; [exact Hrem |].
  split; [done |]. split; [done |]. split; [done |].
  split.
  { apply with_table_lookup. by rewrite released_caches. }
  simpl. split; [by apply lookup_table_remove_eq |].
  intros name Hne. rewrite lookup_table_remove_ne by done.
  rewrite Htab, lookup_table_add_ne by done.
  by apply lookup_table_remove_ne.
Qed.

(** ** Sequences of calls *)

Lemma schema_cache_add_step This uri var w :
  cache_ok w This → variant_ok w var → domnode_ok var →
  ∃ hr w', schema_cache_add This uri var w = Some (hr, w') ∧
    cache_ok w' This ∧ docs w ⊆ docs w'.
Proof.
  intros Hok Hvar Hnode.
  assert (var = VT_NULL ∨ var ≠ VT_NULL) as [-> | Hnn]
    by (destruct var; auto; by right).
  - destruct (schema_cache_remove_ok This uri w Hok) as (w1 & c1 & Hrm & Hok1 & _).
    exists S_OK, w1. split; [done |]. split; [done |].
    destruct (schema_cache_remove_spec This uri w Hok) as (c & Hc & Hspec).
    destruct (xmlHashLookup (cache c) (xmlChar_from_wchar uri)) as [p |].
    + destruct Hspec as (e & _ & _ & Hrun).
      assert (w1 = with_table This (λ t, table_remove t (xmlChar_from_wchar uri))
                     (released p e w)) as -> by congruence.
      simpl. by rewrite released_docs.
    + by assert (w1 = w) as -> by congruence.
  - destruct (add_failure w var) as [hr |] eqn:Hf.
    + destruct (schema_cache_add_failure This uri var w hr Hf Hnode)
        as (w' & Hrun & Hsame).
      exists hr, w'. split; [done |].
      split; [by eapply same_heaps_cache_ok |].
      destruct Hsame as (_ & _ & -> & _). done.
    + destruct (schema_cache_add_success This uri var w Hok Hvar Hnn Hf)
        as (entry & e & w1 & Hcon & Hrun).
      eexists _, _. split; [exact Hrun |].
      split; [by apply stored_ok |].
      rewrite stored_docs. apply Hcon.
Qed.

Lemma schema_cache_get_step This uri node w :
  cache_ok w This → ∃ r, schema_cache_get This uri node w = Some (r, w).
Proof.
  intros Hok. pose proof Hok as (c & Hc & _).
  destruct node; [| by eexists].
  pose proof (schema_cache_get_spec This uri w c Hc) as Hget.
  destruct (xmlHashLookup (cache c) (xmlChar_from_wchar uri)) as [p |] eqn:Hl;
    [| by eexists].
  destruct (cache_ok_lookup _ _ _ _ _ Hc Hok Hl) as (e & He & _).
  eexists. by apply Hget.
Qed.

Lemma schema_cache_get_length_step This length w :
  cache_ok w This → ∃ r, schema_cache_get_length This length w = Some (r, w).
Proof.
  intros (c & Hc & _). destruct length; [| by eexists].
  eexists. by apply schema_cache_get_length_spec.
Qed.

Lemma schema_cache_get_namespaceURI_step This index len w :
  cache_ok w This → ∃ r, schema_cache_get_namespaceURI This index len w = Some (r, w).
Proof.
  intros (c & Hc & _). destruct len; [| by eexists].
  unfold schema_cache_get_namespaceURI, xmlHashScan. munfold. simpl.
  rewrite (table_of_spec _ _ _ Hc).
  destruct (decide (index >= xmlHashSize (cache c))%Z); [by eexists |].
  rewrite (table_of_spec _ _ _ Hc).
  rewrite scan_buckets_items, scan_chain_cache_index. by eexists.
Qed.

Lemma schema_vtbl_step This m w :
  cache_ok w This → method_ok w m →
  ∃ hr w', schema_vtbl This m w = Some (hr, w') ∧ cache_ok w' This ∧ docs w ⊆ docs w'.
Proof.
  intros Hok Hm. destruct m as [uri var | uri node | uri | length | index len |]; simpl.
  - destruct Hm as [Hnode Hvar]. by apply schema_cache_add_step.
  - destruct (schema_cache_get_step This uri node w Hok) as [r Hr].
    exists r.1, w. by rewrite (bind_Some _ _ _ _ _ Hr).
  - destruct (schema_cache_add_step This uri VT_NULL w Hok I I)
      as (hr & w' & Hrun & Hrest).
    by exists hr, w'.
  - destruct (schema_cache_get_length_step This length w Hok) as [r Hr].
    exists r.1, w. by rewrite (bind_Some _ _ _ _ _ Hr).
  - destruct (schema_cache_get_namespaceURI_step This index len w Hok) as [r Hr].
    exists r.1, w. by rewrite (bind_Some _ _ _ _ _ Hr).
  - by exists E_NOTIMPL, w.
Qed.

Lemma method_ok_mono w w' m : docs w ⊆ docs w' → method_ok w m → method_ok w' m.
Proof.
  intros Hsub. destruct m as [uri var | | | | |]; try done.
  intros [Hnode Hvar]. split; [done |].
  destruct var as [| | | | [| | [d |]] | |]; try done.
  destruct Hvar as [content Hd]. exists content. by eapply lookup_weaken.
Qed.

Lemma calls_run This ms w :
  cache_ok w This → Forall (method_ok w) ms →
  ∃ hrs w',
    calls This ms w = Some (hrs, w') ∧
    length hrs = length ms ∧
    cache_ok w' This ∧
    docs w ⊆ docs w'.
Proof.
  revert w. induction ms as [|m ms IH]; intros w Hok Hms.
  - by exists [], w.
  - apply Forall_cons in Hms as [Hm Hms].
    destruct (schema_vtbl_step This m w Hok Hm) as (hr & w1 & Hrun & Hok1 & Hsub).
    destruct (IH w1 Hok1) as (hrs & w' & Hruns & Hlen & Hok' & Hsub').
    { eapply Forall_impl; [exact Hms |]. intros m'. by apply method_ok_mono. }
    exists (hr :: hrs), w'. split.
    + cbn [calls]. rewrite (bind_Some _ _ _ _ _ Hrun), (bind_Some _ _ _ _ _ Hruns). done.
    + split; [simpl; by rewrite Hlen |]. split; [done |]. by etrans.
Qed.

Lemma calls_fault This ms w uri var :
  Vtbl_add uri var ∈ ms → ¬ domnode_ok var → calls This ms w = None.
Proof.
  intros Hin Hnot. revert w. induction ms as [|m ms IH]; intros w;
    [by apply elem_of_nil in Hin |].
  cbn [calls]. munfold.
  apply elem_of_cons in Hin as [<- | Hin].
  - simpl. by rewrite (schema_cache_add_fault This uri var w Hnot).
  - destruct (schema_vtbl This m w) as [[hr w1] |]; [| done].
    by rewrite (IH Hin w1).
Qed.

(** A sequence of add, get, remove, length, namespaceURI and _newEnum
    calls on a well-formed collection does not fault, provided the source
    of every add that is a dispatch pointer is a document node (whose
    document, if it has one, is allocated): every call returns, with one
    HRESULT per call, whatever the other arguments are (any index, with or
    without output slot), and the collection is well-formed afterwards.
    The proviso is needed: a sequence with an add whose source is a
    pointer to something that is no document node faults. *)
Theorem calls_never_fault This ms w :
  cache_ok w This →
  (Forall (method_ok w) ms →
   ∃ hrs w',
     calls This ms w = Some (hrs, w') ∧
     length hrs = length ms ∧
     cache_ok w' This) ∧
  (∀ uri var, Vtbl_add uri var ∈ ms → ¬ domnode_ok var → calls This ms w = None).
Proof.
  intros Hok. split.
  - intros Hms.
    destruct (calls_run This ms w Hok Hms) as (hrs & w' & Hrun & Hlen & Hok' & _).
    by exists hrs, w'.
  - intros uri var. apply calls_fault.
Qed.

(** ** Entries shared by two collections *)

(** An entry that addCollection has handed to a second collection
    outlives its removal from the first: after
    This.addCollection(That) and That.remove(uri), the entry That held
    under uri is still allocated, with the count it had before the merge,
    nothing has been torn down, and This.get(uri) is made from its
    document. *)
Theorem shared_entry_survives This That uri w self other p e :
  This ≠ That →
  caches w !! This = Some self → caches w !! That = Some other →
  table_wf (cache self) → table_wf (cache other) →
  (∀ it, it ∈ xmlHashItems (cache other) → is_Some (entries w !! it.2)) →
  NoDup (xmlHashItems (cache other)).*2 →
  xmlHashLookup (cache self) (xmlChar_from_wchar uri) = None →
  xmlHashLookup (cache other) (xmlChar_from_wchar uri) = Some p →
  entries w !! p = Some e → is_LONG (ref e) → ref e ≠ 0%Z →
  (type e = SCHEMA_TYPE_XSD → ∃ s, schema e = Some s ∧ is_Some (schemas w !! s)) →
  ∃ w1 w2,
    schema_cache_addCollection This (Some That) w = Some (S_OK, w1) ∧
    schema_cache_remove That uri w1 = Some (S_OK, w2) ∧
    entries w1 !! p = Some (with_ref e (LONG_wrap (ref e + 1))) ∧
    entries w2 !! p = Some e ∧
    trace w2 = trace w ∧
    schema_cache_get That uri true w2 = Some ((S_OK, None), w2) ∧
    schema_cache_get This uri true w2 =
      Some (DOMDocument_create_from_xmldoc (doc e), w2).
Proof.
  intros Hne Hself Hother Hwfs Hwfo Hlive Hnd Hs Ho He Hlong Hnz Hsch.
  set (name := xmlChar_from_wchar uri) in *.
  set (w1 := copied This (xmlHashItems (cache other)) self w).
  set (e1 := with_ref e (LONG_wrap (ref e + 1))).
  assert (entries w1 !! p = Some e1) as He1.
  { unfold w1, copied. simpl.
    rewrite copy_items_entries; [| apply Hwfs | by apply items_NoDup_keys].
    fold (copies_of p (cache self) (cache other)).
    rewrite (copies_of_shared _ _ _ _ Hwfo Hnd Hs Ho). by rewrite He. }
  assert (caches w1 !! That = Some other) as Hother1
    by (unfold w1, copied; simpl; by rewrite lookup_insert_ne).
  assert (released p e1 w1 = set_entries (<[p := e]>) w1) as Hrel.
  { assert (LONG_wrap (ref e1 - 1) = ref e) as Hr
      by exact (LONG_wrap_succ_pred _ Hlong).
    unfold released. rewrite Hr, decide_False by done.
    unfold e1. by rewrite with_ref_twice. }
  set (w2 := with_table That (λ t, table_remove t name) (set_entries (<[p := e]>) w1)).
  exists w1, w2.
  split; [by apply schema_cache_addCollection_spec |].
  split.
  { unfold schema_cache_remove. fold name.
    rewrite (bind_Some _ _ _ _ _
               (xmlHashRemoveEntry_present That name w1 other p e1 Hother1 Ho He1 Hsch)).
    by rewrite Hrel. }
  split; [done |].
  assert (entries w2 !! p = Some e) as He2 by (simpl; by rewrite lookup_insert_eq).
  split; [done |]. split; [done |].
  split.
  - assert (caches w2 !! That =
              Some {| cache := table_remove (cache other) name;
                      cache_ref := cache_ref other |}) as Hc2
      by by apply (with_table_lookup That (λ t, table_remove t name)).
    pose proof (schema_cache_get_spec That uri w2 _ Hc2) as Hget. simpl in Hget.
    fold name in Hget. by rewrite lookup_table_remove_eq in Hget.
  - assert (caches w2 !! This =
              Some {| cache := (copy_items (xmlHashItems (cache other)) (cache self)
                                  (entries w)).1;
                      cache_ref := cache_ref self |}) as Hc2.
    { unfold w2. rewrite with_table_lookup_ne by done. simpl.
      by rewrite lookup_insert_eq. }
    pose proof (schema_cache_get_spec This uri w2 _ Hc2) as Hget. simpl in Hget.
    fold name in Hget.
    rewrite copy_items_lookup, Hs, chain_lookup_items, Ho in Hget by (done || apply Hwfs).
    by apply Hget.
Qed.

End Coverage.

(** ** The further properties at work *)

(** length() around remove("urn:a") and add("urn:a", ...) on the
    collection that holds urn:a and urn:bb. *)
Lemma length_tracks_keys_witness :
  @cache_ok demo_ext demo_world_ab 1%positive ∧
  @variant_ok demo_ext demo_world_ab (@VT_BSTR demo_ext "file:///a.xsd") ∧
  caches demo_world_ab !! 1%positive = Some (demo_cache demo_world_ab 1%positive) ∧
  (∃ w1,
     @schema_cache_remove demo_ext 1%positive "urn:a" demo_world_ab = Some (S_OK, w1) ∧
     schema_cache_get_length 1%positive true w1 =
       Some ((S_OK,
              Some (match @xmlHashLookup demo_ext
                            (cache (demo_cache demo_world_ab 1%positive))
                            (@xmlChar_from_wchar demo_ext "urn:a") with
                    | Some _ => xmlHashSize (cache (demo_cache demo_world_ab 1%positive)) - 1
                    | None => xmlHashSize (cache (demo_cache demo_world_ab 1%positive))
                    end)%Z), w1)) ∧
  (∀ w', @VT_BSTR demo_ext "file:///a.xsd" ≠ VT_NULL →
     @schema_cache_add demo_ext 1%positive "urn:a" (@VT_BSTR demo_ext "file:///a.xsd")
       demo_world_ab = Some (S_OK, w') →
     schema_cache_get_length 1%positive true w' =
       Some ((S_OK,
              Some (match @xmlHashLookup demo_ext
                            (cache (demo_cache demo_world_ab 1%positive))
                            (@xmlChar_from_wchar demo_ext "urn:a") with
                    | Some _ => xmlHashSize (cache (demo_cache demo_world_ab 1%positive))
                    | None => xmlHashSize (cache (demo_cache demo_world_ab 1%positive)) + 1
                    end)%Z), w')).
Proof.
  assert (caches demo_world_ab !! 1%positive = Some (demo_cache demo_world_ab 1%positive))
    as H1 by (vm_compute; reflexivity).
  split; [apply demo_world_ab_ok |]. split; [exact I |]. split; [exact H1 |].
  exact (@length_tracks_keys demo_ext 1%positive "urn:a"
           (@VT_BSTR demo_ext "file:///a.xsd") demo_world_ab _
           (proj1 demo_world_ab_ok) I H1).
Defined.

(** add("urn:a", Null) on the collection that holds urn:a and urn:bb
    leaves urn:bb alone. *)
Lemma add_leaves_other_keys_witness :
  @cache_ok demo_ext demo_world_ab 1%positive ∧
  @variant_ok demo_ext demo_world_ab (@VT_NULL demo_ext) ∧
  @xmlChar_from_wchar demo_ext "urn:a" ≠ @xmlChar_from_wchar demo_ext "urn:bb" ∧
  @schema_cache_add demo_ext 1%positive "urn:a" (@VT_NULL demo_ext) demo_world_ab =
    Some (S_OK, run (@schema_cache_add demo_ext 1%positive "urn:a" (@VT_NULL demo_ext))
                  demo_world_ab) ∧
  ∃ c c',
    caches demo_world_ab !! 1%positive = Some c ∧
    caches (run (@schema_cache_add demo_ext 1%positive "urn:a" (@VT_NULL demo_ext))
              demo_world_ab) !! 1%positive = Some c' ∧
    @xmlHashLookup demo_ext (cache c') (@xmlChar_from_wchar demo_ext "urn:bb") =
      @xmlHashLookup demo_ext (cache c) (@xmlChar_from_wchar demo_ext "urn:bb") ∧
    (∀ p, @xmlHashLookup demo_ext (cache c) (@xmlChar_from_wchar demo_ext "urn:bb") = Some p →
       entries (run (@schema_cache_add demo_ext 1%positive "urn:a" (@VT_NULL demo_ext))
                  demo_world_ab) !! p = entries demo_world_ab !! p) ∧
    fst <$> @schema_cache_get demo_ext 1%positive "urn:bb" true
              (run (@schema_cache_add demo_ext 1%positive "urn:a" (@VT_NULL demo_ext))
                 demo_world_ab) =
      fst <$> @schema_cache_get demo_ext 1%positive "urn:bb" true demo_world_ab.
Proof.
  assert (@xmlChar_from_wchar demo_ext "urn:a" ≠ @xmlChar_from_wchar demo_ext "urn:bb")
    as Hne by (vm_compute; discriminate).
  assert (@schema_cache_add demo_ext 1%positive "urn:a" (@VT_NULL demo_ext) demo_world_ab =
            Some (S_OK, run (@schema_cache_add demo_ext 1%positive "urn:a"
                               (@VT_NULL demo_ext)) demo_world_ab))
    as Hrun by (vm_compute; reflexivity).
  split; [apply demo_world_ab_ok |]. split; [exact I |]. split; [exact Hne |].
  split; [exact Hrun |].
  exact (@add_leaves_other_keys demo_ext 1%positive "urn:a" "urn:bb" (@VT_NULL demo_ext)
           demo_world_ab S_OK _ (proj1 demo_world_ab_ok) I Hne Hrun).
Defined.

(** What add stores on the collection that holds urn:a and urn:bb. *)
Lemma add_owns_its_document_witness :
  @cache_ok demo_ext demo_world_ab 1%positive ∧
  (∀ d content w',
     docs demo_world_ab !! d = Some content →
     @schema_cache_add demo_ext 1%positive "urn:c"
       (@VT_DISPATCH demo_ext (Dispatch_domnode (Some d))) demo_world_ab = Some (S_OK, w') →
     ∃ c' entry e,
       caches w' !! 1%positive = Some c' ∧
       @xmlHashLookup demo_ext (cache c') (@xmlChar_from_wchar demo_ext "urn:c") =
         Some entry ∧
       entries w' !! entry = Some e ∧
       type e = schema_type_from_xmlDocPtr content ∧
       type e ≠ SCHEMA_TYPE_INVALID ∧
       doc e ≠ d ∧ docs demo_world_ab !! doc e = None ∧
       docs w' !! doc e = Some content ∧ docs w' !! d = Some content ∧
       @schema_cache_get demo_ext 1%positive "urn:c" true w' =
         Some (@DOMDocument_create_from_xmldoc demo_ext (doc e), w')) ∧
  (∀ bstrVal w',
     @schema_cache_add demo_ext 1%positive "urn:c" (@VT_BSTR demo_ext bstrVal)
       demo_world_ab = Some (S_OK, w') →
     ∃ c' entry e content,
       @xmlSchemaParse_url demo_ext (@xmlChar_from_wchar demo_ext bstrVal) = Some content ∧
       caches w' !! 1%positive = Some c' ∧
       @xmlHashLookup demo_ext (cache c') (@xmlChar_from_wchar demo_ext "urn:c") =
         Some entry ∧
       entries w' !! entry = Some e ∧
       type e = SCHEMA_TYPE_XSD ∧
       docs demo_world_ab !! doc e = None ∧ docs w' !! doc e = Some content ∧
       @schema_cache_get demo_ext 1%positive "urn:c" true w' =
         Some (@DOMDocument_create_from_xmldoc demo_ext (doc e), w')).
Proof.
  split; [apply demo_world_ab_ok |].
  exact (@add_owns_its_document demo_ext 1%positive "urn:c" demo_world_ab
           (proj1 demo_world_ab_ok)).
Defined.

(** The keys of the collection that holds urn:a and urn:bb. *)
Lemma namespaceURI_enumerates_witness :
  @cache_ok demo_ext demo_world_ab 1%positive ∧
  caches demo_world_ab !! 1%positive = Some (demo_cache demo_world_ab 1%positive) ∧
  (xmlHashSize (cache (demo_cache demo_world_ab 1%positive)) < 2 ^ 31)%Z ∧
  ∃ keys : list string,
    NoDup keys ∧
    schema_cache_get_length 1%positive true demo_world_ab =
      Some ((S_OK, Some (Z.of_nat (length keys))), demo_world_ab) ∧
    (∀ name, name ∈ keys ↔
       is_Some (@xmlHashLookup demo_ext (cache (demo_cache demo_world_ab 1%positive)) name)) ∧
    ∀ i, i < length keys →
      ∃ name, keys !! i = Some name ∧
        @schema_cache_get_namespaceURI demo_ext 1%positive (Z.of_nat i) true demo_world_ab =
          Some ((S_OK, Some (@bstr_from_xmlChar demo_ext name)), demo_world_ab).
Proof.
  assert (caches demo_world_ab !! 1%positive = Some (demo_cache demo_world_ab 1%positive))
    as H1 by (vm_compute; reflexivity).
  assert (xmlHashSize (cache (demo_cache demo_world_ab 1%positive)) < 2 ^ 31)%Z
    as H2 by (vm_compute; reflexivity).
  split; [apply demo_world_ab_ok |]. split; [exact H1 |]. split; [exact H2 |].
  exact (@namespaceURI_enumerates demo_ext 1%positive demo_world_ab _
           (proj1 demo_world_ab_ok) H1 H2).
Defined.

(** The empty collection 2 takes the two keys of collection 1. *)
Lemma addCollection_length_witness :
  caches demo_world_ab !! 2%positive = Some (demo_cache demo_world_ab 2%positive) ∧
  caches demo_world_ab !! 1%positive = Some (demo_cache demo_world_ab 1%positive) ∧
  @table_wf demo_ext (cache (demo_cache demo_world_ab 2%positive)) ∧
  @table_wf demo_ext (cache (demo_cache demo_world_ab 1%positive)) ∧
  (∀ it, it ∈ xmlHashItems (cache (demo_cache demo_world_ab 1%positive)) →
     is_Some (entries demo_world_ab !! it.2)) ∧
  ∃ w',
    @schema_cache_addCollection demo_ext 2%positive (Some 1%positive) demo_world_ab =
      Some (S_OK, w') ∧
    schema_cache_get_length 2%positive true w' =
      Some ((S_OK,
             Some (xmlHashSize (cache (demo_cache demo_world_ab 2%positive)) +
                   Z.of_nat (length (filter
                     (λ it, @xmlHashLookup demo_ext
                              (cache (demo_cache demo_world_ab 2%positive)) it.1 = None)
                     (xmlHashItems (cache (demo_cache demo_world_ab 1%positive))))))%Z),
            w') ∧
    (∀ Other, Other ≠ 2%positive → caches w' !! Other = caches demo_world_ab !! Other) ∧
    docs w' = docs demo_world_ab ∧ schemas w' = schemas demo_world_ab ∧
    trace w' = trace demo_world_ab.
Proof.
  assert (caches demo_world_ab !! 2%positive = Some (demo_cache demo_world_ab 2%positive))
    as H2 by (vm_compute; reflexivity).
  assert (caches demo_world_ab !! 1%positive = Some (demo_cache demo_world_ab 1%positive))
    as H1 by (vm_compute; reflexivity).
  pose proof (@cache_ok_table_wf demo_ext _ _ _ (proj2 demo_world_ab_ok) H2) as Hwf2.
  pose proof (@cache_ok_table_wf demo_ext _ _ _ (proj1 demo_world_ab_ok) H1) as Hwf1.
  pose proof (λ it, @cache_ok_live demo_ext _ _ _ it (proj1 demo_world_ab_ok) H1) as Hlive.
  split; [exact H2 |]. split; [exact H1 |]. split; [exact Hwf2 |]. split; [exact Hwf1 |].
  split; [exact Hlive |].
  exact (@addCollection_length demo_ext 2%positive 1%positive demo_world_ab _ _
           H2 H1 Hwf2 Hwf1 Hlive).
Defined.

(** Collection 1 merged into the empty collection 2, twice. *)
Lemma addCollection_idempotent_witness :
  caches demo_world_ab !! 2%positive = Some (demo_cache demo_world_ab 2%positive) ∧
  caches demo_world_ab !! 1%positive = Some (demo_cache demo_world_ab 1%positive) ∧
  @table_wf demo_ext (cache (demo_cache demo_world_ab 2%positive)) ∧
  @table_wf demo_ext (cache (demo_cache demo_world_ab 1%positive)) ∧
  (∀ it, it ∈ xmlHashItems (cache (demo_cache demo_world_ab 1%positive)) →
     is_Some (entries demo_world_ab !! it.2)) ∧
  ((∀ it, it ∈ xmlHashItems (cache (demo_cache demo_world_ab 1%positive)) →
      is_Some (@xmlHashLookup demo_ext (cache (demo_cache demo_world_ab 2%positive)) it.1)) →
     @schema_cache_addCollection demo_ext 2%positive (Some 1%positive) demo_world_ab =
       Some (S_OK, demo_world_ab)) ∧
  @schema_cache_addCollection demo_ext 2%positive (Some 2%positive) demo_world_ab =
    Some (S_OK, demo_world_ab) ∧
  ∃ w',
    @schema_cache_addCollection demo_ext 2%positive (Some 1%positive) demo_world_ab =
      Some (S_OK, w') ∧
    @schema_cache_addCollection demo_ext 2%positive (Some 1%positive) w' = Some (S_OK, w').
Proof.
  assert (caches demo_world_ab !! 2%positive = Some (demo_cache demo_world_ab 2%positive))
    as H2 by (vm_compute; reflexivity).
  assert (caches demo_world_ab !! 1%positive = Some (demo_cache demo_world_ab 1%positive))
    as H1 by (vm_compute; reflexivity).
  pose proof (@cache_ok_table_wf demo_ext _ _ _ (proj2 demo_world_ab_ok) H2) as Hwf2.
  pose proof (@cache_ok_table_wf demo_ext _ _ _ (proj1 demo_world_ab_ok) H1) as Hwf1.
  pose proof (λ it, @cache_ok_live demo_ext _ _ _ it (proj1 demo_world_ab_ok) H1) as Hlive.
  split; [exact H2 |]. split; [exact H1 |]. split; [exact Hwf2 |]. split; [exact Hwf1 |].
  split; [exact Hlive |].
  exact (@addCollection_idempotent demo_ext 2%positive 1%positive demo_world_ab _ _
           H2 H1 Hwf2 Hwf1 Hlive).
Defined.

(** The counts of the entry stored under urn:a. *)
Lemma entry_ref_round_trip_witness :
  entries demo_world_ab !! 1%positive =
    Some {| type := SCHEMA_TYPE_XSD; schema := Some 1%positive; doc := 4%positive;
            ref := 1 |} ∧
  is_LONG 1 ∧
  (1%Z ≠ 0%Z →
     (cache_entry_add_ref 1%positive;; cache_entry_release 1%positive) demo_world_ab =
       Some (1%Z, demo_world_ab)) ∧
  (1%Z ≠ 1%Z →
     (cache_entry_release 1%positive;; cache_entry_add_ref 1%positive) demo_world_ab =
       Some (1%Z, demo_world_ab)) ∧
  (1%Z = 0%Z →
     (SCHEMA_TYPE_XSD = SCHEMA_TYPE_XSD →
      ∃ s, Some 1%positive = Some s ∧ is_Some (schemas demo_world_ab !! s)) →
     ∃ w', (cache_entry_add_ref 1%positive;; cache_entry_release 1%positive) demo_world_ab =
             Some (0%Z, w') ∧
       entries w' !! 1%positive = None ∧
       trace w' = trace demo_world_ab ++
         teardown_trace 1%positive
           {| type := SCHEMA_TYPE_XSD; schema := Some 1%positive; doc := 4%positive;
              ref := 1 |}).
Proof.
  assert (entries demo_world_ab !! 1%positive =
            Some {| type := SCHEMA_TYPE_XSD; schema := Some 1%positive; doc := 4%positive;
                    ref := 1 |}) as He by (vm_compute; reflexivity).
  assert (is_LONG 1) as Hlong by (unfold is_LONG; lia).
  split; [exact He |]. split; [exact Hlong |].
  exact (entry_ref_round_trip 1%positive _ demo_world_ab He Hlong).
Defined.

(** The counts of a collection whose count has gone below zero. *)
Lemma collection_ref_round_trip_witness :
  caches (set_caches (<[3%positive := {| cache := replicate 31 []; cache_ref := -5 |}]>)
            demo_world) !! 3%positive =
    Some {| cache := replicate 31 []; cache_ref := -5 |} ∧
  is_LONG (-5) ∧
  ((-5)%Z ≠ 0%Z →
     (schema_cache_AddRef 3%positive;; schema_cache_Release 3%positive)
       (set_caches (<[3%positive := {| cache := replicate 31 []; cache_ref := -5 |}]>)
          demo_world) =
       Some (ULONG_of_LONG (-5),
             set_caches (<[3%positive := {| cache := replicate 31 []; cache_ref := -5 |}]>)
               demo_world)) ∧
  ((-5)%Z ≠ 1%Z →
     (schema_cache_Release 3%positive;; schema_cache_AddRef 3%positive)
       (set_caches (<[3%positive := {| cache := replicate 31 []; cache_ref := -5 |}]>)
          demo_world) =
       Some (ULONG_of_LONG (-5),
             set_caches (<[3%positive := {| cache := replicate 31 []; cache_ref := -5 |}]>)
               demo_world)) ∧
  ((0 ≤ -5)%Z → ULONG_of_LONG (-5) = (-5)%Z) ∧
  ((-5 < 0)%Z → ULONG_of_LONG (-5) = (-5 + 2 ^ 32)%Z).
Proof.
  assert (caches (set_caches
                    (<[3%positive := {| cache := replicate 31 []; cache_ref := -5 |}]>)
                    demo_world) !! 3%positive =
            Some {| cache := replicate 31 []; cache_ref := -5 |})
    as H1 by (vm_compute; reflexivity).
  assert (is_LONG (-5)) as Hlong by (unfold is_LONG; lia).
  split; [exact H1 |]. split; [exact Hlong |].
  exact (collection_ref_round_trip 3%positive
           {| cache := replicate 31 []; cache_ref := -5 |} _ H1 Hlong).
Defined.

(** The last reference to the collection that holds urn:a and urn:bb. *)
Lemma Release_last_reference_witness :
  @cache_ok demo_ext demo_world_ab 1%positive ∧
  caches demo_world_ab !! 1%positive = Some (demo_cache demo_world_ab 1%positive) ∧
  cache_ref (demo_cache demo_world_ab 1%positive) = 1%Z ∧
  ∃ w',
    schema_cache_Release 1%positive demo_world_ab = Some (0%Z, w') ∧
    caches w' = delete 1%positive (caches demo_world_ab) ∧
    trace w' = trace demo_world_ab ++
      teardown_traces (entries demo_world_ab)
        (xmlHashItems (cache (demo_cache demo_world_ab 1%positive))) ∧
    (∀ it e, it ∈ xmlHashItems (cache (demo_cache demo_world_ab 1%positive)) →
       entries demo_world_ab !! it.2 = Some e →
       entries w' !! it.2 =
         if decide (ref e = 1%Z) then None
         else Some (with_ref e (LONG_wrap (ref e - 1)))) ∧
    (∀ p, p ∉ (xmlHashItems (cache (demo_cache demo_world_ab 1%positive))).*2 →
       entries w' !! p = entries demo_world_ab !! p).
Proof.
  assert (caches demo_world_ab !! 1%positive = Some (demo_cache demo_world_ab 1%positive))
    as H1 by (vm_compute; reflexivity).
  assert (cache_ref (demo_cache demo_world_ab 1%positive) = 1%Z)
    as Hone by (vm_compute; reflexivity).
  split; [apply demo_world_ab_ok |]. split; [exact H1 |]. split; [exact Hone |].
  exact (@Release_last_reference demo_ext 1%positive _ demo_world_ab
           (proj1 demo_world_ab_ok) H1 Hone).
Defined.

(** add("urn:a", Url("file:///a.xsd")) on the empty collection, then
    remove("urn:a"). *)
Lemma add_then_remove_witness :
  @cache_ok demo_ext demo_world 1%positive ∧
  @variant_ok demo_ext demo_world (@VT_BSTR demo_ext "file:///a.xsd") ∧
  @VT_BSTR demo_ext "file:///a.xsd" ≠ VT_NULL ∧
  @schema_cache_add demo_ext 1%positive "urn:a" (@VT_BSTR demo_ext "file:///a.xsd")
    demo_world = Some (S_OK, demo_world_a) ∧
  ∃ entry e w2 c c2,
    entries demo_world !! entry = None ∧
    entries demo_world_a !! entry = Some e ∧ ref e = 1%Z ∧
    @schema_cache_remove demo_ext 1%positive "urn:a" demo_world_a = Some (S_OK, w2) ∧
    entries w2 !! entry = None ∧
    trace w2 = trace demo_world_a ++ teardown_trace entry e ∧
    caches demo_world !! 1%positive = Some c ∧ caches w2 !! 1%positive = Some c2 ∧
    @xmlHashLookup demo_ext (cache c2) (@xmlChar_from_wchar demo_ext "urn:a") = None ∧
    ∀ name, name ≠ @xmlChar_from_wchar demo_ext "urn:a" →
      @xmlHashLookup demo_ext (cache c2) name = @xmlHashLookup demo_ext (cache c) name.
Proof.
  assert (@VT_BSTR demo_ext "file:///a.xsd" ≠ VT_NULL) as Hnn by discriminate.
  assert (@schema_cache_add demo_ext 1%positive "urn:a" (@VT_BSTR demo_ext "file:///a.xsd")
            demo_world = Some (S_OK, demo_world_a)) as Hrun by (vm_compute; reflexivity).
  split; [apply demo_world_ok |]. split; [exact I |]. split; [exact Hnn |].
  split; [exact Hrun |].
  exact (@add_then_remove demo_ext 1%positive "urn:a" (@VT_BSTR demo_ext "file:///a.xsd")
           demo_world demo_world_a (proj1 demo_world_ok) I Hnn Hrun).
Defined.

(** Seven calls on the empty collection, a negative index and a failing
    source among them. *)
Lemma calls_never_fault_witness :
  @cache_ok demo_ext demo_world 1%positive ∧
  Forall (@method_ok demo_ext demo_world)
    [@Vtbl_add demo_ext "urn:a" (@VT_BSTR demo_ext "file:///a.xsd");
     @Vtbl_get demo_ext "urn:a" true;
     @Vtbl_get_namespaceURI demo_ext (-1) true;
     @Vtbl_add demo_ext "urn:bb" (@VT_DISPATCH demo_ext (Dispatch_domnode (Some 3%positive)));
     @Vtbl_get_length demo_ext false;
     @Vtbl_remove demo_ext "urn:a";
     @Vtbl_get__newEnum demo_ext] ∧
  ∃ hrs w',
    @calls demo_ext 1%positive
      [@Vtbl_add demo_ext "urn:a" (@VT_BSTR demo_ext "file:///a.xsd");
       @Vtbl_get demo_ext "urn:a" true;
       @Vtbl_get_namespaceURI demo_ext (-1) true;
       @Vtbl_add demo_ext "urn:bb"
          (@VT_DISPATCH demo_ext (Dispatch_domnode (Some 3%positive)));
       @Vtbl_get_length demo_ext false;
       @Vtbl_remove demo_ext "urn:a";
       @Vtbl_get__newEnum demo_ext] demo_world = Some (hrs, w') ∧
    length hrs =
      length [@Vtbl_add demo_ext "urn:a" (@VT_BSTR demo_ext "file:///a.xsd");
              @Vtbl_get demo_ext "urn:a" true;
              @Vtbl_get_namespaceURI demo_ext (-1) true;
              @Vtbl_add demo_ext "urn:bb"
                 (@VT_DISPATCH demo_ext (Dispatch_domnode (Some 3%positive)));
              @Vtbl_get_length demo_ext false;
              @Vtbl_remove demo_ext "urn:a";
              @Vtbl_get__newEnum demo_ext] ∧
    @cache_ok demo_ext w' 1%positive.
Proof.
  assert (Forall (@method_ok demo_ext demo_world)
            [@Vtbl_add demo_ext "urn:a" (@VT_BSTR demo_ext "file:///a.xsd");
             @Vtbl_get demo_ext "urn:a" true;
             @Vtbl_get_namespaceURI demo_ext (-1) true;
             @Vtbl_add demo_ext "urn:bb"
                (@VT_DISPATCH demo_ext (Dispatch_domnode (Some 3%positive)));
             @Vtbl_get_length demo_ext false;
             @Vtbl_remove demo_ext "urn:a";
             @Vtbl_get__newEnum demo_ext]) as Hms.
  { repeat (apply Forall_cons; split); try exact I; try apply Forall_nil_2.
    - split; exact I.
    - split; [exact I |]. simpl. vm_compute. eauto. }
  split; [apply demo_world_ok |]. split; [exact Hms |].
  exact (proj1 (@calls_never_fault demo_ext 1%positive _ demo_world
                  (proj1 demo_world_ok)) Hms).
Defined.

(** Collection 2 takes urn:a from collection 1, which then removes it. *)
Lemma shared_entry_survives_witness :
  2%positive ≠ 1%positive ∧
  caches demo_world_ab !! 2%positive = Some (demo_cache demo_world_ab 2%positive) ∧
  caches demo_world_ab !! 1%positive = Some (demo_cache demo_world_ab 1%positive) ∧
  @table_wf demo_ext (cache (demo_cache demo_world_ab 2%positive)) ∧
  @table_wf demo_ext (cache (demo_cache demo_world_ab 1%positive)) ∧
  (∀ it, it ∈ xmlHashItems (cache (demo_cache demo_world_ab 1%positive)) →
     is_Some (entries demo_world_ab !! it.2)) ∧
  NoDup (xmlHashItems (cache (demo_cache demo_world_ab 1%positive))).*2 ∧
  @xmlHashLookup demo_ext (cache (demo_cache demo_world_ab 2%positive))
    (@xmlChar_from_wchar demo_ext "urn:a") = None ∧
  @xmlHashLookup demo_ext (cache (demo_cache demo_world_ab 1%positive))
    (@xmlChar_from_wchar demo_ext "urn:a") = Some 1%positive ∧
  entries demo_world_ab !! 1%positive =
    Some {| type := SCHEMA_TYPE_XSD; schema := Some 1%positive; doc := 4%positive;
            ref := 1 |} ∧
  is_LONG 1 ∧ 1%Z ≠ 0%Z ∧
  (SCHEMA_TYPE_XSD = SCHEMA_TYPE_XSD →
   ∃ s, Some 1%positive = Some s ∧ is_Some (schemas demo_world_ab !! s)) ∧
  ∃ w1 w2,
    @schema_cache_addCollection demo_ext 2%positive (Some 1%positive) demo_world_ab =
      Some (S_OK, w1) ∧
    @schema_cache_remove demo_ext 1%positive "urn:a" w1 = Some (S_OK, w2) ∧
    entries w1 !! 1%positive =
      Some (with_ref {| type := SCHEMA_TYPE_XSD; schema := Some 1%positive;
                        doc := 4%positive; ref := 1 |} (LONG_wrap (1 + 1))) ∧
    entries w2 !! 1%positive =
      Some {| type := SCHEMA_TYPE_XSD; schema := Some 1%positive; doc := 4%positive;
              ref := 1 |} ∧
    trace w2 = trace demo_world_ab ∧
    @schema_cache_get demo_ext 1%positive "urn:a" true w2 = Some ((S_OK, None), w2) ∧
    @schema_cache_get demo_ext 2%positive "urn:a" true w2 =
      Some (@DOMDocument_create_from_xmldoc demo_ext 4%positive, w2).
Proof.
  assert (2%positive ≠ 1%positive) as Hne by discriminate.
  assert (caches demo_world_ab !! 2%positive = Some (demo_cache demo_world_ab 2%positive))
    as H2 by (vm_compute; reflexivity).
  assert (caches demo_world_ab !! 1%positive = Some (demo_cache demo_world_ab 1%positive))
    as H1 by (vm_compute; reflexivity).
  pose proof (@cache_ok_table_wf demo_ext _ _ _ (proj2 demo_world_ab_ok) H2) as Hwf2.
  pose proof (@cache_ok_table_wf demo_ext _ _ _ (proj1 demo_world_ab_ok) H1) as Hwf1.
  pose proof (λ it, @cache_ok_live demo_ext _ _ _ it (proj1 demo_world_ab_ok) H1) as Hlive.
  pose proof (proj1 (@cache_ok_items_ok demo_ext _ _ _ (proj1 demo_world_ab_ok) H1)) as Hnd.
  assert (@xmlHashLookup demo_ext (cache (demo_cache demo_world_ab 2%positive))
            (@xmlChar_from_wchar demo_ext "urn:a") = None) as Hs by (vm_compute; reflexivity).
  assert (@xmlHashLookup demo_ext (cache (demo_cache demo_world_ab 1%positive))
            (@xmlChar_from_wchar demo_ext "urn:a") = Some 1%positive)
    as Ho by (vm_compute; reflexivity).
  assert (entries demo_world_ab !! 1%positive =
            Some {| type := SCHEMA_TYPE_XSD; schema := Some 1%positive; doc := 4%positive;
                    ref := 1 |}) as He by (vm_compute; reflexivity).
  assert (is_LONG 1) as Hlong by (unfold is_LONG; lia).
  assert (1%Z ≠ 0%Z) as Hnz by lia.
  assert (SCHEMA_TYPE_XSD = SCHEMA_TYPE_XSD →
          ∃ s, Some 1%positive = Some s ∧ is_Some (schemas demo_world_ab !! s)) as Hsch.
  { intros _. exists 1%positive. split; [reflexivity |]. vm_compute. eauto. }
  split; [exact Hne |]. split; [exact H2 |]. split; [exact H1 |]. split; [exact Hwf2 |].
  split; [exact Hwf1 |]. split; [exact Hlive |]. split; [exact Hnd |]. split; [exact Hs |].
  split; [exact Ho |]. split; [exact He |]. split; [exact Hlong |]. split; [exact Hnz |].
  split; [exact Hsch |].
  exact (@shared_entry_survives demo_ext 2%positive 1%positive "urn:a" demo_world_ab _ _
           1%positive _ Hne H2 H1 Hwf2 Hwf1 Hlive Hnd Hs Ho He Hlong Hnz Hsch).
Defined.
